(** * Deep research: recursive orchestrator and prompt budgeting

    A shallow embedding of [src/deep-research.ts] ([crawlWebsite],
    [generateSerpQueries], [processSerpResult], [writeFinalReport],
    [deepResearch]), of [src/ai/providers.ts] ([trimPrompt],
    [extractJSONFromResponse], the LM Studio model) and of
    [src/feedback.ts] ([generateFeedback]).

    Conventions.
    - A JavaScript string is a [string]: texts over the code units
      below 256, which [length] and [slice] count one by one.
    - [breadth], [depth] and token budgets are numbers with an integer
      value ([Z]). A number is a double: [Math.ceil(breadth / 2)] is
      exact on every integer a double holds, [depth - 1] is exact up to
      [2^53] in magnitude and rounded beyond ([JS.minus_one]). In
      [trimPrompt] the rounding of [length - contextSize] changes no
      comparison of the code, so the arithmetic is written exactly.
    - Calls that leave the program (the language model, the tokenizer,
      the crawler process, the text splitter of [./text-splitter]) are
      parameters: every theorem holds whatever they answer, unless it
      names an assumption on them.
    - A call returns an [outcome]: the value it returns (the value the
      promise of an [async] function fulfils with), [Threw] when it
      throws (the promise rejects), [Unsettled] when it never returns
      (the promise never settles). *)

From Stdlib Require Import ZArith List String Ascii Bool Lia Arith.
From Stdlib Require Import QArith Qround.
Import ListNotations.

Local Open Scope string_scope.
Local Open Scope list_scope.
Local Open Scope Z_scope.

Set Warnings "-register-all".

(* ================================================================== *)
(** * JavaScript strings and arrays *)

Module JS.

Definition strlen (s : string) : Z := Z.of_nat (String.length s).

(** [s.slice(0, n)]: a negative end counts from the end of the string. *)
Definition str_slice0 (s : string) (n : Z) : string :=
  if n <? 0
  then substring 0 (Z.to_nat (Z.max (strlen s + n) 0)) s
  else substring 0 (Z.to_nat n) s.

(** [a.slice(0, n)] on arrays. *)
Definition arr_slice0 {A} (a : list A) (n : Z) : list A :=
  if n <? 0
  then firstn (Z.to_nat (Z.max (Z.of_nat (List.length a) + n) 0)) a
  else firstn (Z.to_nat n) a.

(** [!s] on a string: only the empty string is falsy. *)
Definition falsy (s : string) : bool :=
  match s with EmptyString => true | String _ _ => false end.

(** [a[0] ?? d] *)
Definition first_or {A} (a : list A) (d : A) : A :=
  match a with x :: _ => x | [] => d end.

(** [[...new Set(a)]]: the elements in order of first occurrence. *)
Fixpoint set_from (seen : list string) (a : list string) : list string :=
  match a with
  | [] => []
  | x :: rest =>
      if existsb (String.eqb x) seen
      then set_from seen rest
      else x :: set_from (x :: seen) rest
  end.

Definition uniq (a : list string) : list string := set_from [] a.

(** [a.map((x, i) => f i x)], for callbacks that are told apart by
    their position. *)
Fixpoint mapi_from {A B} (i : nat) (f : nat -> A -> B) (a : list A) : list B :=
  match a with
  | [] => []
  | x :: rest => f i x :: mapi_from (S i) f rest
  end.

Definition mapi {A B} (f : nat -> A -> B) (a : list A) : list B :=
  mapi_from 0 f a.

(** [Math.ceil(b / 2)] for an integer [b]. *)
Definition ceil_half (b : Z) : Z := Qceiling (Qdiv (inject_Z b) (inject_Z 2)).

(** Every integer up to [2^53] in magnitude is a double. *)
Definition MaxSafe : Z := 2 ^ 53.

(** The double next to an integer [z] (of magnitude below [2^1024]):
    [z] itself up to [2^53]; beyond, [z] is cut to 53 significant bits
    and rounded to the nearest such number, to the one with an even
    last bit when it is half way between two. *)
Definition round_double (z : Z) : Z :=
  let a := Z.abs z in
  if a <=? MaxSafe then z
  else
    let e := Z.log2 a - 52 in
    let q := a / 2 ^ e in
    let r := a mod 2 ^ e in
    let half := 2 ^ (e - 1) in
    let q' := if r <? half then q
              else if half <? r then q + 1
              else if Z.even q then q else q + 1 in
    Z.sgn z * (q' * 2 ^ e).

(** [d - 1] on numbers. *)
Definition minus_one (d : Z) : Z := round_double (d - 1).

End JS.

(* ================================================================== *)
(** * Calls that may throw or never return *)

Module Async.

Inductive outcome (A : Type) : Type :=
| Returned (a : A)
| Threw
| Unsettled.

Arguments Returned {A} a.
Arguments Threw {A}.
Arguments Unsettled {A}.

(** [const x = await m; k x], and [const x = m; k x] for a call [m]
    that is not awaited. *)
Definition bind {A B} (m : outcome A) (k : A -> outcome B) : outcome B :=
  match m with
  | Returned a => k a
  | Threw => Threw
  | Unsettled => Unsettled
  end.

Notation "x <- m ;; k" := (bind m (fun x => k))
  (at level 61, m at next level, right associativity).

(** [try { m } catch (e) { handler }], for a body [m] whose awaits all
    happen inside the block. *)
Definition try_catch {A} (m : outcome A) (handler : outcome A) : outcome A :=
  match m with
  | Threw => handler
  | _ => m
  end.

(** [await Promise.all(ps)]: rejects as soon as one promise rejects,
    fulfils when all have fulfilled. *)
Fixpoint threw_any {A} (ps : list (outcome A)) : bool :=
  match ps with
  | [] => false
  | Threw :: _ => true
  | _ :: rest => threw_any rest
  end.

Fixpoint fulfilled {A} (ps : list (outcome A)) : option (list A) :=
  match ps with
  | [] => Some []
  | Returned a :: rest =>
      match fulfilled rest with
      | Some l => Some (a :: l)
      | None => None
      end
  | _ :: _ => None
  end.

Definition Promise_all {A} (ps : list (outcome A)) : outcome (list A) :=
  if threw_any ps then Threw
  else match fulfilled ps with
       | Some l => Returned l
       | None => Unsettled
       end.

(** [xs.map(f)] for a callback that may throw: the calls are made in
    order and the first that does not return ends the loop. *)
Fixpoint map_calls {A B} (f : A -> outcome B) (xs : list A)
  : outcome (list B) :=
  match xs with
  | [] => Returned []
  | x :: rest =>
      y <- f x ;;
      ys <- map_calls f rest ;;
      Returned (y :: ys)
  end.

End Async.

(* ================================================================== *)
(** * Text Budgeter: [trimPrompt] *)

Module Budgeter.

Import Async.

Definition MinChunkSize : Z := 140.
Definition DefaultContextSize : Z := 120000.

(** One pass through the body of [trimPrompt]: it returns ([Done]),
    calls itself on another prompt ([Again]), or is left by the
    exception of [encoder.encode] ([Raise]). *)
Inductive pass : Type :=
| Done (out : string)
| Again (next : string)
| Raise.

Definition chunkSize_of (prompt : string) (length contextSize : Z) : Z :=
  let overflowTokens := length - contextSize in
  JS.strlen prompt - overflowTokens * 3.

Section Trim.

(** [encoder.encode] of js-tiktoken: text to token ids. It is called
    with its defaults, under which it throws on a text that holds a
    special token such as [<|endoftext|>]: [None]. *)
Variable encode : string -> option (list N).

(** [new RecursiveCharacterTextSplitter({chunkSize, chunkOverlap: 0})
    .splitText(text)]; the class of [./text-splitter] is taken as it
    is used here, by what it is given and what it hands back. *)
Variable splitText : Z -> string -> list string.

(** [encoder.encode(s).length] *)
Definition tokens (s : string) : option Z :=
  match encode s with
  | Some ids => Some (Z.of_nat (List.length ids))
  | None => None
  end.

Definition trimPrompt_pass (prompt : string) (contextSize : Z) : pass :=
  if JS.falsy prompt then Done EmptyString
  else
    match tokens prompt with
    | None => Raise
    | Some length =>
        if length <=? contextSize then Done prompt
        else
          let chunkSize := chunkSize_of prompt length contextSize in
          if chunkSize <? MinChunkSize
          then Done (JS.str_slice0 prompt MinChunkSize)
          else
            let trimmedPrompt :=
              JS.first_or (splitText chunkSize prompt) EmptyString in
            if JS.strlen trimmedPrompt =? JS.strlen prompt
            then Again (JS.str_slice0 prompt chunkSize)
            else Again trimmedPrompt
    end.

(** The recursion, cut after [fuel] passes. *)
Fixpoint trimPrompt_fuel (fuel : nat) (prompt : string) (contextSize : Z)
  : outcome string :=
  match fuel with
  | O => Unsettled
  | S fuel' =>
      match trimPrompt_pass prompt contextSize with
      | Done out => Returned out
      | Again next => trimPrompt_fuel fuel' next contextSize
      | Raise => Threw
      end
  end.

(** [trimPrompt]: one pass per character of the prompt and one more are
    allowed, which is enough as soon as the first chunk of the splitter
    is never longer than its text. [Unsettled]: the recursion is still
    running after that many passes. *)
Definition trimPrompt (prompt : string) (contextSize : Z) : outcome string :=
  trimPrompt_fuel (S (String.length prompt)) prompt contextSize.

(** The prompts of the recursion that starts from [text]: [text]
    itself and every prompt [trimPrompt] calls itself on. *)
Inductive recursion (contextSize : Z) (text : string) : string -> Prop :=
| rec_first : recursion contextSize text text
| rec_next (prompt next : string) :
    recursion contextSize text prompt ->
    trimPrompt_pass prompt contextSize = Again next ->
    recursion contextSize text next.

(** What a splitter may or may not do. It cuts its text: the first
    chunk is never longer than the text it was cut from. *)
Definition first_chunk_bounded : Prop :=
  forall chunkSize text chunk,
    hd_error (splitText chunkSize text) = Some chunk ->
    (String.length chunk <= String.length text)%nat.

(** What an encoder may or may not do. It refuses a text for what
    stands in it: a text it accepts, it accepts cut short. *)
Definition accepts_prefixes : Prop :=
  forall text n,
    encode text <> None -> encode (substring 0 n text) <> None.

End Trim.

End Budgeter.

(* ================================================================== *)
(** * The shell that [exec] hands the command line to

    [child_process.exec] runs [/bin/sh -c command]. What follows is the
    word grammar of the POSIX shell as far as [crawlWebsite] can reach
    it: blanks, [;] and newline, the three quoting forms, parameter
    expansion and command substitution. Redirections, pipes and the
    other operators are outside the fragment ([sh_parse] answers
    [None]), as are arithmetic expansion, a substitution whose script
    quotes or escapes, and a command line that ends inside a
    quotation. *)

Module Shell.






Definition dquote : ascii := "034"%char.
Definition newline : ascii := "010"%char.







Definition snoc_char (s : string) (c : ascii) : string :=
  (s ++ String c EmptyString)%string.


















End Shell.

(* ================================================================== *)
(** * The research orchestrator: [src/deep-research.ts] *)

Module Research.

Export Async.

(** ** Data *)

Record ContentItem : Type := {
  content : string;
  sourceURL : string            (* metadata.sourceURL *)
}.

Record SerpQuery : Type := {
  query : string;
  researchGoal : string
}.

(** An element of [queries] as the schema admits it: an object or a
    bare string. *)
Inductive PlannedQuery : Type :=
| Bare (q : string)
| Full (q : SerpQuery).

(** The object the synthesis schema admits: [followUpQuestions] is
    optional. *)
Record Synthesis : Type := {
  syn_learnings : list string;
  syn_followUpQuestions : option (list string)
}.

Record SynthesisResult : Type := {
  sr_learnings : list string;
  followUpQuestions : list string
}.

Record ResearchResult : Type := {
  learnings : list string;
  visitedUrls : list string
}.

Definition emptyResult : ResearchResult :=
  {| learnings := []; visitedUrls := [] |}.

(** What [JSON.parse(stdout)] can hand to the caller of
    [crawlWebsite]: the array of items its type announces, or any other
    value, on which [result.map(item => item.metadata.sourceURL)]
    throws a TypeError. *)
Inductive crawl_value : Type :=
| Items (l : list ContentItem)
| Malformed.

(** How the promise of [execAsync] ends: rejected, fulfilled with what
    the process printed, or never, since [exec] is given no timeout
    and the process may hang. *)
Inductive exec_result : Type :=
| ExecError
| ExecOutput (stdout : string)
| ExecPending.

(** ** The world outside

    Every call is told apart by its [site]: the indices of the branches
    that lead to it from the top-level call, innermost first. Two calls
    with the same arguments may therefore be answered differently. *)

Record World : Type := {
  encode : string -> option (list N);
  splitText : Z -> string -> list string;
  execAsync : list nat -> string -> exec_result;
  JSON_parse : string -> option crawl_value;
  (* generateObject of generateSerpQueries: query, numQueries, learnings *)
  plan_call : list nat -> string -> Z -> list string
              -> outcome (list PlannedQuery);
  (* generateObject of processSerpResult: query, contents, numLearnings,
     numFollowUpQuestions *)
  synth_call : list nat -> string -> list string -> Z -> Z
               -> outcome Synthesis
}.

Definition ConcurrencyLimit : nat := 2.

Section Orchestrator.

Variable w : World.

(** ** [crawlWebsite] *)

Definition crawl_prefix : string := "python3 duckduckgo-crawler/crawl.py ".

Definition quote (s : string) : string :=
  (String Shell.dquote s ++ String Shell.dquote EmptyString)%string.

Definition crawl_command (q : string) : string :=
  (crawl_prefix ++ quote q)%string.


(** What [crawlWebsite] makes of the way [execAsync] ended. *)
Definition crawl_result (r : exec_result) : outcome crawl_value :=
  match r with
  | ExecPending => Unsettled
  | ExecError => Returned (Items [])
  | ExecOutput stdout =>
      match JSON_parse w stdout with
      | Some v => Returned v
      | None => Returned (Items [])
      end
  end.

Definition crawlWebsite (site : list nat) (q : string) : outcome crawl_value :=
  crawl_result (execAsync w site (crawl_command q)).

(** ** [generateSerpQueries] *)

Definition defaultGoal : string :=
  "Explore this query to gather relevant information for the research topic.".

Definition processedQuery (p : PlannedQuery) : SerpQuery :=
  match p with
  | Bare q => {| query := q; researchGoal := defaultGoal |}
  | Full q => q
  end.

Definition generateSerpQueries (site : list nat) (q : string)
    (numQueries : Z) (learnings : list string) : outcome (list SerpQuery) :=
  queries <- plan_call w site q numQueries learnings ;;
  Returned (JS.arr_slice0 (map processedQuery queries) numQueries).

(** ** [processSerpResult] *)

Definition DefaultNumLearnings : Z := 3.
Definition ContentBudget : Z := 25000.

(** [result.map(item => trimPrompt(item.content, 25_000))] *)
Definition trimmed_contents (result : list ContentItem) : outcome (list string) :=
  map_calls (fun item =>
               Budgeter.trimPrompt (encode w) (splitText w)
                                   (content item) ContentBudget)
            result.

Definition processSerpResult (site : list nat) (q : string)
    (result : list ContentItem) (numLearnings numFollowUpQuestions : Z)
  : outcome SynthesisResult :=
  contents <- trimmed_contents result ;;
  res <- synth_call w site q contents numLearnings numFollowUpQuestions ;;
  Returned {| sr_learnings := syn_learnings res;
              followUpQuestions :=
                match syn_followUpQuestions res with
                | Some qs => qs
                | None => []
                end |}.

(** ** [deepResearch] *)

Definition nl : string := String Shell.newline EmptyString.

(** The white space of [String.prototype.trim] among the code units
    below 256: tab, line feed, vertical tab, form feed, carriage
    return, space and no-break space. *)
Definition is_space (c : ascii) : bool :=
  existsb (Ascii.eqb c) [" "; "009"; "010"; "011"; "012"; "013"; "160"]%char.

Fixpoint trim_start (s : string) : string :=
  match s with
  | EmptyString => EmptyString
  | String c rest => if is_space c then trim_start rest else s
  end.

Fixpoint trim_end (s : string) : string :=
  match s with
  | EmptyString => EmptyString
  | String c rest =>
      match trim_end rest with
      | EmptyString => if is_space c then EmptyString else String c EmptyString
      | kept => String c kept
      end
  end.

(** [s.trim()] *)
Definition trim (s : string) : string := trim_end (trim_start s).

Definition nextQuery (serpQuery : SerpQuery) (followUps : list string) : string :=
  trim (nl ++ "            Previous research goal: " ++ researchGoal serpQuery
        ++ nl ++ "            Follow-up research directions: "
        ++ String.concat EmptyString (map (fun q => nl ++ q) followUps)
        ++ nl ++ "          ")%string.

(** Where the [try] block of a branch ends: with the object to return,
    or with the call [deepResearch({...})] whose promise it returns. *)
Inductive verdict : Type :=
| Final (r : ResearchResult)
| Deeper (next : string) (newBreadth newDepth : Z)
         (allLearnings allUrls : list string).

Definition branch_try (site : list nat) (serpQuery : SerpQuery)
    (breadth depth : Z) (learnings visitedUrls : list string)
  : outcome verdict :=
  result <- crawlWebsite site (query serpQuery) ;;
  match result with
  | Malformed => Threw
  | Items result =>
      let newUrls := map sourceURL result in
      let newBreadth := JS.ceil_half breadth in
      let newDepth := JS.minus_one depth in
      newLearnings <- processSerpResult site (query serpQuery) result
                        DefaultNumLearnings newBreadth ;;
      let allLearnings := learnings ++ sr_learnings newLearnings in
      let allUrls := visitedUrls ++ newUrls in
      if newDepth >? 0
      then Returned (Deeper (nextQuery serpQuery (followUpQuestions newLearnings))
                            newBreadth newDepth allLearnings allUrls)
      else Returned (Final {| learnings := allLearnings;
                              visitedUrls := allUrls |})
  end.

(** What a branch finds by itself: its synthesis and the URLs of the
    items it retrieved, when both steps succeed. *)
Definition discoveries (site : list nat) (serpQuery : SerpQuery) (breadth : Z)
  : option (SynthesisResult * list string) :=
  match crawlWebsite site (query serpQuery) with
  | Returned (Items result) =>
      match processSerpResult site (query serpQuery) result
                              DefaultNumLearnings (JS.ceil_half breadth) with
      | Returned s => Some (s, map sourceURL result)
      | _ => None
      end
  | _ => None
  end.

(** The task handed to the limiter. The [catch] clause covers what is
    awaited inside the [try] block. [return deepResearch({...})] hands
    the promise of the nested call back without awaiting it: the block
    has been left when that promise settles, so a rejection of the
    nested call is the rejection of the task. *)
Definition branch
    (recur : list nat -> string -> Z -> Z -> list string -> list string
             -> outcome ResearchResult)
    (site : list nat) (serpQuery : SerpQuery)
    (breadth depth : Z) (learnings visitedUrls : list string)
  : outcome ResearchResult :=
  v <- try_catch (branch_try site serpQuery breadth depth learnings visitedUrls)
                 (Returned (Final emptyResult)) ;;
  match v with
  | Final r => Returned r
  | Deeper next newBreadth newDepth allLearnings allUrls =>
      recur site next newBreadth newDepth allLearnings allUrls
  end.

(** The outside world answers: every model call settles, the crawler
    process ends and the splitter cuts its text. *)
Definition world_settles : Prop :=
  (forall site q numQueries learnings,
      plan_call w site q numQueries learnings <> Unsettled)
  /\ (forall site q contents numLearnings numFollowUpQuestions,
        synth_call w site q contents numLearnings numFollowUpQuestions
        <> Unsettled)
  /\ (forall site line, execAsync w site line <> ExecPending)
  /\ Budgeter.first_chunk_bounded (splitText w).

Definition merge (results : list ResearchResult) : ResearchResult :=
  {| learnings := JS.uniq (flat_map learnings results);
     visitedUrls := JS.uniq (flat_map visitedUrls results) |}.

(** [fuel] bounds the nesting of calls. *)
Fixpoint deepResearch_fuel (fuel : nat) (site : list nat) (q : string)
    (breadth depth : Z) (learnings visitedUrls : list string)
  : outcome ResearchResult :=
  match fuel with
  | O => Unsettled
  | S fuel' =>
      serpQueries <- generateSerpQueries site q breadth learnings ;;
      results <- Promise_all
        (JS.mapi (fun i serpQuery =>
                    branch (deepResearch_fuel fuel') (i :: site) serpQuery
                           breadth depth learnings visitedUrls)
                 serpQueries) ;;
      Returned (merge results)
  end.

(** A call of depth [d] nests at most [d - 1] further calls, as long
    as [d - 1] is exact, that is for [d] up to [2^53]. Beyond, a run
    that comes to nest as many calls is taken not to settle. *)
Definition levels (depth : Z) : nat := S (Z.to_nat (depth - 1)).

Definition deepResearch (q : string) (breadth depth : Z)
    (learnings visitedUrls : list string) : outcome ResearchResult :=
  deepResearch_fuel (levels depth) [] q breadth depth learnings visitedUrls.

(** ** Branches that carry their inputs to the end

    A branch lives when its retrieval and its synthesis succeed and,
    if it hands over to a nested call, some branch of that call lives
    in turn. *)
Definition branch_lives
    (recur_lives : list nat -> string -> Z -> Z -> list string -> list string
                   -> bool)
    (site : list nat) (serpQuery : SerpQuery)
    (breadth depth : Z) (learnings visitedUrls : list string) : bool :=
  match discoveries site serpQuery breadth with
  | None => false
  | Some (found, newUrls) =>
      if JS.minus_one depth >? 0
      then recur_lives site (nextQuery serpQuery (followUpQuestions found))
                       (JS.ceil_half breadth) (JS.minus_one depth)
                       (learnings ++ sr_learnings found)
                       (visitedUrls ++ newUrls)
      else true
  end.

Fixpoint lives_fuel (fuel : nat) (site : list nat) (q : string)
    (breadth depth : Z) (learnings visitedUrls : list string) : bool :=
  match fuel with
  | O => false
  | S fuel' =>
      match generateSerpQueries site q breadth learnings with
      | Returned serpQueries =>
          existsb (fun alive : bool => alive)
            (JS.mapi (fun i serpQuery =>
                        branch_lives (lives_fuel fuel') (i :: site) serpQuery
                                     breadth depth learnings visitedUrls)
                     serpQueries)
      | _ => false
      end
  end.

(** ** The calls of a run

    The calls a run makes to the outside world, each with the
    arguments it is made with. *)
Inductive call : Type :=
| Planning (site : list nat) (q : string) (numQueries : Z)
           (learnings : list string)
| Crawling (site : list nat) (q : string)
| Synthesising (site : list nat) (q : string) (contents : list string)
               (numLearnings numFollowUpQuestions : Z).

Definition branch_calls
    (recur_calls : list nat -> string -> Z -> Z -> list string -> list string
                   -> list call)
    (site : list nat) (serpQuery : SerpQuery)
    (breadth depth : Z) (learnings visitedUrls : list string) : list call :=
  Crawling site (query serpQuery)
  :: match crawlWebsite site (query serpQuery) with
     | Returned (Items result) =>
         match trimmed_contents result with
         | Returned contents =>
             Synthesising site (query serpQuery) contents
                          DefaultNumLearnings (JS.ceil_half breadth)
             :: match branch_try site serpQuery breadth depth
                                 learnings visitedUrls with
                | Returned (Deeper next newBreadth newDepth
                                   allLearnings allUrls) =>
                    recur_calls site next newBreadth newDepth
                                allLearnings allUrls
                | _ => []
                end
         | _ => []
         end
     | _ => []
     end.

Fixpoint calls_fuel (fuel : nat) (site : list nat) (q : string)
    (breadth depth : Z) (learnings visitedUrls : list string) : list call :=
  match fuel with
  | O => []
  | S fuel' =>
      Planning site q breadth learnings
      :: match generateSerpQueries site q breadth learnings with
         | Returned serpQueries =>
             List.concat
               (JS.mapi (fun i serpQuery =>
                           branch_calls (calls_fuel fuel') (i :: site) serpQuery
                                        breadth depth learnings visitedUrls)
                        serpQueries)
         | _ => []
         end
  end.

Definition calls (q : string) (breadth depth : Z)
    (learnings visitedUrls : list string) : list call :=
  calls_fuel (levels depth) [] q breadth depth learnings visitedUrls.

End Orchestrator.

End Research.

(* ================================================================== *)
(** * The limiters of a run: [pLimit(ConcurrencyLimit)]

    [deepResearch] calls [pLimit] in its own body, after planning, and
    hands every branch of that call to the limiter it got. A limiter of
    p-limit starts a queued function when fewer than its capacity are
    active, oldest first, and counts a function as active until the
    promise it returned has settled: a task that returned the promise
    of a nested [deepResearch] call stays active while that call, with
    the limiter and the tasks of its own, runs. The nested call rejects
    as soon as one of its tasks has rejected ([Promise.all]); the task
    that waits for it then rejects too and gives its slot back, while
    the other tasks of the nested call go on under their limiter.

    The runs are those of tasks whose own steps settle: a task whose
    retrieval, synthesis or nested planning never settles would stay
    as it is and is not told apart here. *)

Module Limiter.

(** What a task will do once started: end in its own right (with a
    result or in the [catch] clause), end its [try] block with a nested
    call whose planning rejects, or with a nested call that plans the
    given tasks. *)
Inductive plan : Type :=
| Ends
| Fails
| Nests (tasks : list plan).

Inductive task : Type :=
| Queued (p : plan)               (* handed to [limit], not started *)
| Running (p : plan)              (* retrieving or synthesising *)
| Awaiting (nested : list task)   (* its promise is the nested call's *)
| Settled                         (* fulfilled *)
| Rejected                        (* rejected with the nested planning *)
| Detached (nested : list task).  (* rejected; the nested tasks go on *)

Definition is_queued (t : task) : bool :=
  match t with Queued _ => true | _ => false end.

Definition has_fulfilled (t : task) : bool :=
  match t with Settled => true | _ => false end.

Definition has_rejected (t : task) : bool :=
  match t with Rejected | Detached _ => true | _ => false end.

(** The promise of the task has settled, one way or the other. *)
Definition is_settled (t : task) : bool :=
  (has_fulfilled t || has_rejected t)%bool.

Definition active (t : task) : bool :=
  match t with Running _ | Awaiting _ => true | _ => false end.

(** [limit.activeCount] of the limiter that holds the tasks [ts]. *)
Definition activeCount (ts : list task) : nat :=
  List.length (filter active ts).

(** What one task can do next, given whether its limiter has a free
    slot for it. *)
Definition act (may_start : bool) (t : task) : option task :=
  match t with
  | Queued p => if may_start then Some (Running p) else None
  | Running Ends => Some Settled
  | Running Fails => Some Rejected
  | Running (Nests ps) => Some (Awaiting (map Queued ps))
  | Awaiting nested =>
      if existsb has_rejected nested then Some (Detached nested)
      else if forallb has_fulfilled nested then Some Settled
      else None
  | Settled | Rejected | Detached _ => None
  end.

Fixpoint replace_nth {A} (i : nat) (x : A) (l : list A) : list A :=
  match l, i with
  | [], _ => []
  | _ :: rest, O => x :: rest
  | y :: rest, S j => y :: replace_nth j x rest
  end.

(** One event of the run, at the task with address [addr]: the index of
    a task of the top-level call, then of a task of the call nested in
    it, and so on. *)
Fixpoint fire (addr : list nat) (ts : list task) : option (list task) :=
  match addr with
  | [] => None
  | i :: deeper =>
      match nth_error ts i with
      | None => None
      | Some t =>
          match deeper with
          | [] =>
              let may_start :=
                (Nat.ltb (activeCount ts) Research.ConcurrencyLimit
                 && negb (existsb is_queued (firstn i ts)))%bool in
              match act may_start t with
              | Some t' => Some (replace_nth i t' ts)
              | None => None
              end
          | _ :: _ =>
              match t with
              | Awaiting nested =>
                  match fire deeper nested with
                  | Some nested' => Some (replace_nth i (Awaiting nested') ts)
                  | None => None
                  end
              | Detached nested =>
                  match fire deeper nested with
                  | Some nested' => Some (replace_nth i (Detached nested') ts)
                  | None => None
                  end
              | _ => None
              end
          end
      end
  end.

Fixpoint run (events : list (list nat)) (ts : list task) : option (list task) :=
  match events with
  | [] => Some ts
  | e :: rest =>
      match fire e ts with
      | Some ts' => run rest ts'
      | None => None
      end
  end.

(** Branch tasks started and not yet settled, over the whole tree of
    calls. *)
Fixpoint in_flight (t : task) : nat :=
  match t with
  | Running _ => 1
  | Awaiting nested => 1 + list_sum (map in_flight nested)
  | Detached nested => list_sum (map in_flight nested)
  | _ => 0
  end.

Definition in_flight_all (ts : list task) : nat := list_sum (map in_flight ts).

(** Of these, the tasks that are retrieving or synthesising themselves,
    not waiting for a nested call. *)
Fixpoint busy (t : task) : nat :=
  match t with
  | Running _ => 1
  | Awaiting nested | Detached nested => list_sum (map busy nested)
  | _ => 0
  end.

Definition busy_all (ts : list task) : nat := list_sum (map busy ts).

(** Every limiter of the tree is within its capacity. *)
Fixpoint within_limit (t : task) : bool :=
  match t with
  | Awaiting nested | Detached nested =>
      (Nat.leb (activeCount nested) Research.ConcurrencyLimit
       && forallb within_limit nested)%bool
  | _ => true
  end.

Definition limiters_ok (ts : list task) : bool :=
  (Nat.leb (activeCount ts) Research.ConcurrencyLimit
   && forallb within_limit ts)%bool.

(** The limiters created by the calls nested in a task: one for each
    nested call that got as far as [pLimit]. *)
Fixpoint limiters (t : task) : nat :=
  match t with
  | Awaiting nested | Detached nested => 1 + list_sum (map limiters nested)
  | _ => 0
  end.

(** No task of the plan rejects. *)
Fixpoint never_fails (p : plan) : bool :=
  match p with
  | Ends => true
  | Fails => false
  | Nests ps => forallb never_fails ps
  end.

(** The tasks a call of [deepResearch] will hand to its limiter, and
    those of the calls nested in them. *)
Fixpoint call_plan (w : Research.World) (fuel : nat) (site : list nat)
    (q : string) (breadth depth : Z) (learnings visitedUrls : list string)
  : list plan :=
  match fuel with
  | O => []
  | S fuel' =>
      match Research.generateSerpQueries w site q breadth learnings with
      | Async.Returned serpQueries =>
          JS.mapi
            (fun i serpQuery =>
               match Research.branch_try w (i :: site) serpQuery
                                         breadth depth learnings visitedUrls with
               | Async.Returned
                   (Research.Deeper next newBreadth newDepth allLearnings allUrls) =>
                   match Research.generateSerpQueries w (i :: site) next
                                                      newBreadth allLearnings with
                   | Async.Threw => Fails
                   | _ =>
                       Nests (call_plan w fuel' (i :: site) next newBreadth
                                        newDepth allLearnings allUrls)
                   end
               | _ => Ends
               end)
            serpQueries
      | _ => []
      end
  end.

Definition initial (w : Research.World) (q : string) (breadth depth : Z)
    (learnings visitedUrls : list string) : list task :=
  map Queued
      (call_plan w (Research.levels depth) [] q breadth depth learnings visitedUrls).

End Limiter.

(* ================================================================== *)
(** * Concrete tokenizers, splitters and worlds

    Stand-ins for the outside world, used to run the definitions above
    on explicit inputs. *)

Module Samples.

Import Research.

(** A tokenizer that makes every character a token and, like
    js-tiktoken, throws on a text in which a special token stands. *)
Definition special_token : string := "<|endoftext|>".

Fixpoint stands_in (pat s : string) : bool :=
  (String.prefix pat s
   || match s with
      | EmptyString => false
      | String _ rest => stands_in pat rest
      end)%bool.

Definition char_encode (s : string) : option (list N) :=
  if stands_in special_token s then None
  else Some (map N_of_ascii (list_ascii_of_string s)).

(** A splitter that only makes raw character cuts: chunks of
    [chunkSize] characters. *)
Fixpoint cuts (fuel : nat) (n : nat) (s : string) : list string :=
  match fuel with
  | O => []
  | S fuel' =>
      match s with
      | EmptyString => []
      | String _ _ =>
          substring 0 n s :: cuts fuel' n (substring n (String.length s - n) s)
      end
  end.

Definition raw_split (chunkSize : Z) (text : string) : list string :=
  cuts (String.length text) (Z.to_nat chunkSize) text.

(** A splitter that cuts on word boundaries: the words of the text,
    packed into chunks of at most [chunkSize] characters, one blank
    between two words of a chunk. *)
Fixpoint words_from (cur : string) (s : string) : list string :=
  match s with
  | EmptyString => if JS.falsy cur then [] else [cur]
  | String c rest =>
      if is_space c
      then if JS.falsy cur then words_from EmptyString rest
           else cur :: words_from EmptyString rest
      else words_from (Shell.snoc_char cur c) rest
  end.

Fixpoint pack (chunkSize : Z) (cur : string) (ws : list string) : list string :=
  match ws with
  | [] => if JS.falsy cur then [] else [cur]
  | wd :: rest =>
      if JS.falsy cur then pack chunkSize wd rest
      else if JS.strlen cur + 1 + JS.strlen wd <=? chunkSize
           then pack chunkSize (cur ++ " " ++ wd)%string rest
           else cur :: pack chunkSize wd rest
  end.

Definition word_split (chunkSize : Z) (text : string) : list string :=
  pack chunkSize EmptyString (words_from EmptyString text).

Fixpoint repeat_char (n : nat) (c : ascii) : string :=
  match n with
  | O => EmptyString
  | S m => String c (repeat_char m c)
  end.

(** Two hundred blanks and two hundred letters. *)
Definition blanks : string := repeat_char 200 " "%char.
Definition letters : string := repeat_char 200 "a"%char.

(** A text the tokenizer refuses. *)
Definition marked : string := ("end of text: " ++ special_token)%string.

(** A world in which the crawler process fails, the planner answers
    what [planner] says and every synthesis yields [facts]. *)
Definition world_of
    (split : Z -> string -> list string)
    (planner : list nat -> outcome (list PlannedQuery))
    (facts : list string) : World :=
  {| encode := char_encode;
     splitText := split;
     execAsync := fun _ _ => ExecError;
     JSON_parse := fun _ => None;
     plan_call := fun site _ _ _ => planner site;
     synth_call := fun _ _ _ _ _ =>
       Returned {| syn_learnings := facts; syn_followUpQuestions := None |} |}.

(** The planner finds nothing to ask. *)
Definition silent_world : World :=
  world_of raw_split (fun _ => Returned []) ["fact"].

(** The planner always proposes three queries. *)
Definition eager_world : World :=
  world_of raw_split (fun _ => Returned [Bare "a"; Bare "b"; Bare "c"]) ["fact"].

(** The synthesis call yields four learnings, whatever was asked for. *)
Definition chatty_world : World :=
  world_of raw_split (fun _ => Returned [Bare "a"])
           ["one"; "two"; "three"; "four"].

(** Planning succeeds at the top and in the call nested in the second
    branch; it fails in the call nested in the first branch. *)
Definition flaky_world : World :=
  world_of raw_split
           (fun site =>
              match site with
              | [] => Returned [Bare "a"; Bare "b"]
              | [O] => Threw
              | _ => Returned [Bare "c"]
              end)
           ["fact"].

(** The synthesis call fails in the first branch of the top-level call
    and yields a learning everywhere else. *)
Definition lossy_world : World :=
  {| encode := char_encode;
     splitText := raw_split;
     execAsync := fun _ _ => ExecError;
     JSON_parse := fun _ => None;
     plan_call := fun _ _ _ _ => Returned [Bare "a"; Bare "b"];
     synth_call := fun site _ _ _ _ =>
       match site with
       | [O] => Threw
       | _ => Returned {| syn_learnings := ["fact"];
                          syn_followUpQuestions := None |}
       end |}.

Definition query_a : SerpQuery := {| query := "a"; researchGoal := defaultGoal |}.
Definition query_b : SerpQuery := {| query := "b"; researchGoal := defaultGoal |}.







(** The crawler hangs in the first branch of the top-level call. *)
Definition hanging_world : World :=
  {| encode := char_encode;
     splitText := raw_split;
     execAsync := fun site _ =>
       match site with
       | [O] => ExecPending
       | _ => ExecError
       end;
     JSON_parse := fun _ => None;
     plan_call := fun _ _ _ _ => Returned [Bare "a"; Bare "b"];
     synth_call := fun _ _ _ _ _ =>
       Returned {| syn_learnings := ["fact"];
                   syn_followUpQuestions := None |} |}.

(** One query at the top and two in the call nested in its branch;
    of the calls nested in these two branches, planning fails in the
    first and asks one query in the second. *)
Definition orphaning_world : World :=
  world_of raw_split
           (fun site =>
              match site with
              | [] => Returned [Bare "a"]
              | [O] => Returned [Bare "b"; Bare "c"]
              | [O; O] => Threw
              | _ => Returned [Bare "d"]
              end)
           ["fact"].

(** A run of breadth 3 and depth 2: the first two tasks of the
    top-level call start and reach their nested calls, then the two
    tasks of each nested call start. *)
Definition crowded_events : list (list nat) :=
  [[0]; [1]; [0]; [1]; [0; 0]; [0; 1]; [1; 0]; [1; 1]]%nat.

Definition crowded_state : list Limiter.task :=
  [Limiter.Awaiting [Limiter.Running Limiter.Ends; Limiter.Running Limiter.Ends];
   Limiter.Awaiting [Limiter.Running Limiter.Ends; Limiter.Running Limiter.Ends];
   Limiter.Queued (Limiter.Nests [Limiter.Ends; Limiter.Ends])].

End Samples.

(* ================================================================== *)
(** * The report composer: [writeFinalReport] *)

Module Report.

Import Research.

Definition ReportBudget : Z := 150000.

Definition learning_tag (learning : string) : string :=
  ("<learning>" ++ nl ++ learning ++ nl ++ "</learning>")%string.

Definition bullet (s : string) : string := ("- " ++ s)%string.

(** [items.map(x => `- ${x}`).join('\n')] *)
Definition bullets (items : list string) : string :=
  String.concat nl (map bullet items).

Definition sourcesHeading : string :=
  (nl ++ nl ++ "## Sources" ++ nl ++ nl)%string.

Definition urlsSection (visitedUrls : list string) : string :=
  (sourcesHeading ++ bullets visitedUrls)%string.

Definition fallbackReport (learnings : list string) : string :=
  ("# Research Findings" ++ nl ++ nl ++ "## Summary of Learnings" ++ nl ++ nl
     ++ bullets learnings)%string.

Definition errorReport (learnings visitedUrls : list string) : string :=
  ("Error generating report. Please review the following learnings:"
     ++ nl ++ nl ++ String.concat (nl ++ nl) learnings
     ++ sourcesHeading ++ bullets visitedUrls)%string.

(** [x] stands somewhere in [s]. *)
Definition occurs (x s : string) : Prop :=
  exists before after, s = (before ++ x ++ after)%string.

Section Composer.

Variable encode : string -> option (list N).
Variable splitText : Z -> string -> list string.

(** [generateObject] of [writeFinalReport], given the user's prompt and
    the learnings string; it answers with the optional
    [reportMarkdown] of the schema. *)
Variable report_call : string -> string -> outcome (option string).

(** The learnings string is trimmed before the [try] block is
    entered: an exception of [trimPrompt] is not caught. *)
Definition learningsString (learnings : list string) : outcome string :=
  Budgeter.trimPrompt encode splitText
    (String.concat nl (map learning_tag learnings)) ReportBudget.

Definition writeFinalReport (prompt : string)
    (learnings visitedUrls : list string) : outcome string :=
  trimmed <- learningsString learnings ;;
  try_catch
    (res <- report_call prompt trimmed ;;
     let report :=
       match res with
       | Some reportMarkdown =>
           if JS.falsy reportMarkdown then fallbackReport learnings
           else reportMarkdown
       | None => fallbackReport learnings
       end in
     Returned (report ++ urlsSection visitedUrls)%string)
    (Returned (errorReport learnings visitedUrls)).

End Composer.

End Report.

(* ================================================================== *)
(** * Clarifying questions: [generateFeedback] *)

Module Feedback.

Import Research.

Definition DefaultNumQuestions : Z := 3.

Definition fallbackQuestions (q : string) : list string :=
  [ ("Can you provide more context about " ++ quote q ++ "?")%string;
    ("What specific aspects of " ++ quote q
       ++ " are you most interested in?")%string;
    ("Are there any particular time periods or geographic areas you want to focus on for "
       ++ quote q ++ "?")%string ].

Section Clarifier.

(** [generateObject] of [generateFeedback], given the query and
    [numQuestions]; it answers with the optional [questions] of the
    schema. *)
Variable feedback_call : string -> Z -> outcome (option (list string)).

Definition generateFeedback (q : string) (numQuestions : Z)
  : outcome (list string) :=
  try_catch
    (userFeedback <- feedback_call q numQuestions ;;
     match userFeedback with
     | Some questions => Returned (JS.arr_slice0 questions numQuestions)
     | None => Threw
     end)
    (Returned (JS.arr_slice0 (fallbackQuestions q) numQuestions)).

End Clarifier.

End Feedback.

(* ================================================================== *)
(** * The LM Studio provider: [extractJSONFromResponse], [doGenerate] *)

Module Providers.

Import Research.

(** ** JSON values as [json5.parse] builds them *)

Inductive jsnum : Type :=
| Finite (q : Q)
| NaN
| Infinite (negative : bool).

Inductive json : Type :=
| JNull
| JBool (b : bool)
| JNum (n : jsnum)
| JStr (s : string)
| JArr (items : list json)
| JObj (fields : list (string * json)).

(** A value in a condition. *)
Definition truthy (v : json) : bool :=
  match v with
  | JNull => false
  | JBool b => b
  | JNum (Finite q) => negb (Qeq_bool q 0)
  | JNum NaN => false
  | JNum (Infinite _) => true
  | JStr s => negb (JS.falsy s)
  | JArr _ | JObj _ => true
  end.

(** [o.key]: [None] stands for [undefined]. *)
Fixpoint get (key : string) (fields : list (string * json)) : option json :=
  match fields with
  | [] => None
  | (k, v) :: rest => if String.eqb k key then Some v else get key rest
  end.

(** [o.key = v]: a key the object has keeps its place, a new key comes
    last. *)
Fixpoint set (key : string) (v : json) (fields : list (string * json))
  : list (string * json) :=
  match fields with
  | [] => [(key, v)]
  | (k, old) :: rest =>
      if String.eqb k key then (k, v) :: rest
      else (k, old) :: set key v rest
  end.

Definition is_array (v : option json) : bool :=
  match v with Some (JArr _) => true | _ => false end.

(** [learnings.map(learning => ({ query: learning, researchGoal: '' }))] *)
Definition as_queries (learnings : list json) : json :=
  JArr (map (fun learning =>
               JObj [("query", learning); ("researchGoal", JStr EmptyString)])
            learnings).

(** The lines of the [try] block between [json5.parse] and
    [JSON.stringify]; [None] when they throw a TypeError: reading a
    property of [null], calling [map] on a value that has none, or, in
    the strict mode of a module, assigning a property to a primitive
    value. A property assigned to an array is not one of its elements
    and does not show in its JSON text. *)
Definition normalise (parsed : json) : option json :=
  match parsed with
  | JNull | JBool _ | JNum _ | JStr _ => None
  | JArr items => Some (JArr items)
  | JObj fields =>
      let no_queries :=
        match get "queries" fields with
        | Some v => negb (truthy v)
        | None => true
        end in
      let has_learnings :=
        match get "learnings" fields with
        | Some v => truthy v
        | None => false
        end in
      let mirrored :=
        if (no_queries && has_learnings)%bool
        then match get "learnings" fields with
             | Some (JArr learnings) =>
                 Some (set "queries" (as_queries learnings) fields)
             | _ => None
             end
        else Some fields in
      match mirrored with
      | None => None
      | Some fields' =>
          if is_array (get "queries" fields') then Some (JObj fields')
          else Some (JObj (set "queries" (JArr []) fields'))
      end
  end.

(** ** The regular expressions of the file, by the place they are used *)

Inductive regex : Type :=
| ThinkSection        (* /<think>[\s\S]*?<\/think>\s*/ *)
| CodeFence           (* /^```json\s*|\s*```$/g *)
| LearningsHeading    (* /\*\*.*Learnings.*\*\*([\s\S]*?)(?:\*\*|$)/i *)
| NumberedBold        (* /^\d+\.\s*\*\*/ *)
| ColonBold           (* /:\*\*\s*/ *)
| QuestionsHeading    (* /\*\*Follow-Up Questions.*\*\*([\s\S]*?)(?:\n\n|$)/i *)
| LeadingDash         (* /^-\s*/ *)
| BracedObject.       (* /\{[\s\S]*\}/ *)

(** What the provider takes from its runtime and its libraries: the
    regular expression engine, json5 and [JSON.stringify]. *)
Record Runtime : Type := {
  (* subject.replace(re, replacement) *)
  re_replace : regex -> string -> string -> string;
  (* subject.match(re): the whole match, then the groups *)
  re_match : regex -> string -> option (list string);
  (* json5.parse(text); None when it throws *)
  JSON5_parse : string -> option json;
  JSON_stringify : json -> string
}.

(** [s.split(sep)] for a separator that is not empty; [skip] counts the
    characters of a separator just found that are still to be passed. *)
Fixpoint split_from (sep : string) (skip : nat) (cur : string) (s : string)
  : list string :=
  match s with
  | EmptyString => [cur]
  | String c rest =>
      match skip with
      | S n => split_from sep n cur rest
      | O =>
          if String.prefix sep s
          then cur :: split_from sep (String.length sep - 1) EmptyString rest
          else split_from sep O (Shell.snoc_char cur c) rest
      end
  end.

Definition split (sep : string) (s : string) : list string :=
  split_from sep O EmptyString s.

Record message : Type := {
  role : string;
  msg_content : string
}.

(** [callOptions.prompt] as the type test of [doGenerate] sees it. *)
Inductive prompt : Type :=
| PromptString (s : string)
| PromptMessages (messages : list message)
| PromptOther.

(** What [fetch] and [response.json()] gave: the [ok] flag of the
    response and [result.choices[0].message.content], [None] when the
    body has no string there: reading it throws, or what is read makes
    [response.replace] throw at the start of [extractJSONFromResponse];
    the caller sees a rejection in both cases. *)
Record reply : Type := {
  ok : bool;
  statusText : string;
  reply_content : option string
}.

Record generated : Type := {
  text : string;
  totalTokens : Z;
  finishReason : string
}.

Section LMStudio.

Variable rt : Runtime.

(** [fetch] of the chat completions endpoint with its body read. *)
Variable post_chat : list message -> outcome reply.

(** The items under a heading of a markdown answer: the first group of
    the match, trimmed, split, each piece stripped and trimmed. *)
Definition heading_items (heading : regex) (sep : string)
    (strip : string -> string) (content : string) : option (list string) :=
  match re_match rt heading content with
  | Some found =>
      match nth_error found 1 with
      | Some group =>
          if JS.falsy group then None
          else Some (map (fun item => trim (strip item))
                         (split sep (trim group)))
      | None => None
      end
  | None => None
  end.

Definition strings (l : list string) : json := JArr (map JStr l).

(** The [catch] clause: the object put together from a markdown
    answer. *)
Definition extractedData (content : string) : json :=
  let learnings :=
    heading_items LearningsHeading (nl ++ nl)%string
      (fun item => re_replace rt ColonBold ": "
                     (re_replace rt NumberedBold EmptyString item))
      content in
  let questions :=
    heading_items QuestionsHeading nl
      (fun item => re_replace rt LeadingDash EmptyString item)
      content in
  JObj [ ("queries",
          match learnings with
          | Some ls => as_queries (map JStr ls)
          | None => JArr []
          end);
         ("learnings",
          match learnings with Some ls => strings ls | None => JArr [] end);
         ("followUpQuestions",
          match questions with Some qs => strings qs | None => JArr [] end) ].

Definition cleaned (response : string) : string :=
  let cleanedResponse := trim (re_replace rt ThinkSection EmptyString response) in
  trim (re_replace rt CodeFence EmptyString cleanedResponse).

(** The value whose JSON text [extractJSONFromResponse] returns. *)
Definition extracted_value (response : string) : json :=
  let content := cleaned response in
  match JSON5_parse rt content with
  | Some parsed =>
      match normalise parsed with
      | Some v => v
      | None => extractedData content
      end
  | None => extractedData content
  end.

(** [{ text, isJSON }] *)
Definition extractJSONFromResponse (response : string) : string * bool :=
  let content := cleaned response in
  match JSON5_parse rt content with
  | Some parsed =>
      match normalise parsed with
      | Some v => (JSON_stringify rt v, true)
      | None => (JSON_stringify rt (extractedData content), true)
      end
  | None => (JSON_stringify rt (extractedData content), true)
  end.

(** [generate(messages)] *)
Definition generate (messages : list message) : outcome string :=
  response <- post_chat messages ;;
  if ok response
  then match reply_content response with
       | Some content => Returned content
       | None => Threw
       end
  else Threw.

Definition doGenerate (p : prompt) : outcome generated :=
  messages <- match p with
              | PromptString s =>
                  Returned [{| role := "user"; msg_content := s |}]
              | PromptMessages ms => Returned ms
              | PromptOther => Threw
              end ;;
  fullResponse <- generate messages ;;
  let (text, isJSON) := extractJSONFromResponse fullResponse in
  let responseText :=
    if isJSON then text
    else match re_match rt BracedObject text with
         | Some (whole :: _) => whole
         | _ => text
         end in
  Returned {| text := responseText; totalTokens := 0; finishReason := "stop" |}.

(** [doStream] *)
Definition doStream : outcome generated := Threw.

End LMStudio.

(** The shape the callers' schemas look for: an array, or an object
    whose [queries] is an array. *)
Definition queries_ready (v : json) : bool :=
  match v with
  | JArr _ => true
  | JObj fields => is_array (get "queries" fields)
  | _ => false
  end.

End Providers.

(* ================================================================== *)
(** * Counting the work of a run *)

Module Accounting.

Import Research Limiter.





(** How deep calls are nested below a task. *)
Fixpoint plan_levels (p : plan) : nat :=
  match p with
  | Ends | Fails => 0
  | Nests ps => S (list_max (map plan_levels ps))
  end.

Fixpoint task_levels (t : task) : nat :=
  match t with
  | Queued p | Running p => plan_levels p
  | Awaiting nested | Detached nested => S (list_max (map task_levels nested))
  | Settled | Rejected => 0
  end.

(** No task has rejected and none will. *)
Fixpoint calm (t : task) : bool :=
  match t with
  | Queued p | Running p => never_fails p
  | Awaiting nested => forallb calm nested
  | Settled => true
  | Rejected | Detached _ => false
  end.



(** Where a learning or a URL of a result can come from: a synthesis
    call or a crawl among the calls [made]. *)
Definition synthesised (w : World) (made : list call) (x : string) : Prop :=
  exists site q contents numLearnings numFollowUpQuestions res,
    In (Synthesising site q contents numLearnings numFollowUpQuestions) made
    /\ synth_call w site q contents numLearnings numFollowUpQuestions
       = Returned res
    /\ In x (syn_learnings res).

Definition crawled (w : World) (made : list call) (u : string) : Prop :=
  exists site q items item,
    In (Crawling site q) made
    /\ crawlWebsite w site q = Returned (Items items)
    /\ In item items
    /\ sourceURL item = u.

(** Every learning and every URL of a result was given to the call or
    comes from a synthesis or a crawl among the calls [made]. *)
Definition sourced (w : World) (made : list call)
    (given_learnings given_urls : list string)
    (r : ResearchResult) : Prop :=
  (forall x, In x (learnings r) ->
             In x given_learnings \/ synthesised w made x)
  /\ (forall u, In u (visitedUrls r) ->
                In u given_urls \/ crawled w made u).

(** A planning call among the calls [made] rejected. *)
Definition planning_rejected (w : World) (made : list call) : Prop :=
  exists site q numQueries learnings,
    In (Planning site q numQueries learnings) made
    /\ plan_call w site q numQueries learnings = Threw.

End Accounting.

(* ================================================================== *)
(** * Concrete model answers and a concrete runtime *)

Module MoreSamples.

Import Research Samples Providers.

Definition report_written : string -> string -> outcome (option string) :=
  fun _ _ => Returned (Some "# Findings").

Definition report_missing : string -> string -> outcome (option string) :=
  fun _ _ => Returned None.

Definition report_failing : string -> string -> outcome (option string) :=
  fun _ _ => Threw.

Definition five_questions : string -> Z -> outcome (option (list string)) :=
  fun _ _ => Returned (Some ["q1"; "q2"; "q3"; "q4"; "q5"]).

Definition no_questions : string -> Z -> outcome (option (list string)) :=
  fun _ _ => Returned None.

(** A crawler that finds one page, whatever the query. *)
Definition page : ContentItem :=
  {| content := "text of the page"; sourceURL := "https://example.org/a" |}.

Definition crawling_world : World :=
  {| encode := char_encode;
     splitText := raw_split;
     execAsync := fun _ _ => ExecOutput "[page]";
     JSON_parse := fun _ => Some (Items [page]);
     plan_call := fun _ _ _ _ => Returned [Bare "a"; Bare "b"; Bare "c"; Bare "d"];
     synth_call := fun _ _ _ _ _ =>
       Returned {| syn_learnings := ["fact"];
                   syn_followUpQuestions := Some ["why"] |} |}.

(** A crawler that prints an object where an array is expected. *)
Definition garbled_world : World :=
  {| encode := char_encode;
     splitText := raw_split;
     execAsync := fun _ _ => ExecOutput "{}";
     JSON_parse := fun _ => Some Malformed;
     plan_call := fun _ _ _ _ => Returned [Bare "a"];
     synth_call := fun _ _ _ _ _ =>
       Returned {| syn_learnings := ["fact"];
                   syn_followUpQuestions := None |} |}.

(** A runtime whose regular expressions never match and whose parser
    knows two answers. *)
Definition answer_with_learnings : json :=
  JObj [("learnings", JArr [JStr "a"; JStr "b"])].

Definition sample_parse (s : string) : option json :=
  if String.eqb s "{learnings: ['a', 'b']}" then Some answer_with_learnings
  else if String.eqb s "42" then Some (JNum (Finite 42))
  else None.

(** Keys and strings without quotation and escapes: enough to tell
    values apart. *)
Fixpoint show (v : json) : string :=
  match v with
  | JNull => "null"
  | JBool b => if b then "true" else "false"
  | JNum _ => "0"
  | JStr s => s
  | JArr items =>
      ("[" ++ String.concat "," (map show items) ++ "]")%string
  | JObj fields =>
      ("{" ++ String.concat ","
                (map (fun kv => (fst kv ++ ":" ++ show (snd kv))%string) fields)
           ++ "}")%string
  end.

Definition sample_runtime : Runtime :=
  {| re_replace := fun _ _ subject => subject;
     re_match := fun _ _ => None;
     JSON5_parse := sample_parse;
     JSON_stringify := show |}.

Definition answering (content : string) : list message -> outcome reply :=
  fun _ => Returned {| ok := true; statusText := "OK";
                       reply_content := Some content |}.

End MoreSamples.

(* ================================================================== *)
(** * Facts about strings and arrays *)

Module JSFacts.

Lemma falsy_true (s : string) : JS.falsy s = true <-> s = EmptyString.
Proof. destruct s; simpl; split; congruence. Qed.

Lemma falsy_false (s : string) : JS.falsy s = false <-> s <> EmptyString.
Proof. destruct s; simpl; split; congruence. Qed.

Lemma length_zero (s : string) : String.length s = O <-> s = EmptyString.
Proof. destruct s; simpl; split; congruence. Qed.

Lemma substring_0_length (n : nat) (s : string) :
  String.length (substring 0 n s) = Nat.min n (String.length s).
Proof.
  revert n; induction s as [|c s IH]; intros [|n]; simpl; auto.
Qed.

Lemma substring_0_all (n : nat) (s : string) :
  (String.length s <= n)%nat -> substring 0 n s = s.
Proof.
  revert n; induction s as [|c s IH]; intros [|n] H; simpl in *;
    try reflexivity; try lia.
  f_equal. apply IH. lia.
Qed.

Lemma str_slice0_nonneg (s : string) (n : Z) :
  0 <= n -> JS.str_slice0 s n = substring 0 (Z.to_nat n) s.
Proof.
  intros H. unfold JS.str_slice0.
  destruct (Z.ltb_spec n 0); [lia | reflexivity].
Qed.

Lemma str_slice0_length (s : string) (n : Z) :
  0 <= n -> JS.strlen (JS.str_slice0 s n) = Z.min n (JS.strlen s).
Proof.
  intros H. rewrite str_slice0_nonneg by assumption.
  unfold JS.strlen. rewrite substring_0_length. lia.
Qed.

Lemma str_slice0_short (s : string) (n : Z) :
  JS.strlen s <= n -> JS.str_slice0 s n = s.
Proof.
  intros H. unfold JS.strlen in H.
  rewrite str_slice0_nonneg by lia.
  apply substring_0_all. lia.
Qed.

Lemma str_slice0_nonempty (s : string) (n : Z) :
  0 < n -> s <> EmptyString -> JS.str_slice0 s n <> EmptyString.
Proof.
  intros Hn Hs. rewrite str_slice0_nonneg by lia.
  destruct s as [|c s]; [congruence|].
  destruct (Z.to_nat n) as [|m] eqn:E; [lia|]. simpl. congruence.
Qed.

(** ** [new Set] keeps exactly the elements, each once *)

Lemma existsb_eqb_In (x : string) (l : list string) :
  existsb (String.eqb x) l = true <-> In x l.
Proof.
  rewrite existsb_exists. split.
  - intros [y [Hy E]]. apply String.eqb_eq in E. now subst.
  - intros H. exists x. split; [assumption | apply String.eqb_refl].
Qed.

Lemma set_from_In (a seen : list string) (x : string) :
  In x (JS.set_from seen a) <-> In x a /\ ~ In x seen.
Proof.
  revert seen; induction a as [|y a IH]; intros seen; simpl.
  - tauto.
  - destruct (existsb (String.eqb y) seen) eqn:E.
    + apply existsb_eqb_In in E. rewrite IH.
      split; [tauto|]. intros [[->|H] Hn]; tauto.
    + assert (Hy : ~ In y seen).
      { intros H. apply existsb_eqb_In in H. congruence. }
      simpl. rewrite IH. simpl.
      destruct (string_dec y x) as [->|Hne]; tauto.
Qed.

Lemma uniq_In (a : list string) (x : string) : In x (JS.uniq a) <-> In x a.
Proof. unfold JS.uniq. rewrite set_from_In. simpl. tauto. Qed.

Lemma set_from_NoDup (a seen : list string) : NoDup (JS.set_from seen a).
Proof.
  revert seen; induction a as [|y a IH]; intros seen; simpl.
  - constructor.
  - destruct (existsb (String.eqb y) seen); [apply IH|].
    constructor; [|apply IH].
    rewrite set_from_In. simpl. tauto.
Qed.

Lemma uniq_nil_inv (a : list string) : JS.uniq a = [] -> a = [].
Proof. destruct a; simpl; [reflexivity | discriminate]. Qed.

(** ** [map] with positions *)


Lemma mapi_from_In {A B} (f : nat -> A -> B) (a : list A) (i : nat) (y : B) :
  In y (JS.mapi_from i f a) ->
  exists j x, nth_error a j = Some x /\ y = f (i + j)%nat x.
Proof.
  revert i; induction a as [|x a IH]; intros i; simpl; [tauto|].
  intros [<-|H].
  - exists O, x. rewrite Nat.add_0_r. auto.
  - destruct (IH _ H) as [j [x' [Hj ->]]].
    exists (S j), x'. split; [assumption|]. f_equal. lia.
Qed.

Lemma mapi_from_nth {A B} (f : nat -> A -> B) (a : list A) :
  forall i j x,
    nth_error a j = Some x -> In (f (i + j)%nat x) (JS.mapi_from i f a).
Proof.
  induction a as [|y a IH]; intros i [|j] x H; simpl in H; try discriminate.
  - injection H as ->. rewrite Nat.add_0_r. now left.
  - right. replace (i + S j)%nat with (S i + j)%nat by lia. now apply IH.
Qed.

Lemma mapi_nth {A B} (f : nat -> A -> B) (a : list A) (j : nat) (x : A) :
  nth_error a j = Some x -> In (f j x) (JS.mapi f a).
Proof. intros H. apply (mapi_from_nth f a O j x H). Qed.

Lemma mapi_In {A B} (f : nat -> A -> B) (a : list A) (y : B) :
  In y (JS.mapi f a) -> exists j x, nth_error a j = Some x /\ y = f j x.
Proof. intros H. apply mapi_from_In in H. exact H. Qed.

(** ** [Math.ceil(b / 2)] *)

Lemma ceil_half_div (b : Z) : JS.ceil_half b = (b + 1) / 2.
Proof.
  unfold JS.ceil_half, Qceiling, Qfloor, Qdiv, Qmult, Qinv, Qopp, inject_Z.
  simpl. rewrite Z.mul_1_r.
  assert (H := Z.div_mod (- b) 2 ltac:(lia)).
  assert (H' := Z.div_mod (b + 1) 2 ltac:(lia)).
  assert (Hm := Z.mod_pos_bound (- b) 2 ltac:(lia)).
  assert (Hm' := Z.mod_pos_bound (b + 1) 2 ltac:(lia)).
  lia.
Qed.

(** ** Doubles *)

Lemma round_double_safe (z : Z) :
  Z.abs z <= JS.MaxSafe -> JS.round_double z = z.
Proof.
  intros H. unfold JS.round_double.
  destruct (Z.leb_spec (Z.abs z) JS.MaxSafe); [reflexivity | lia].
Qed.

(** Rounding keeps the sign. *)
Lemma round_double_nonpos (z : Z) : z <= 0 -> JS.round_double z <= 0.
Proof.
  intros Hz. unfold JS.round_double.
  destruct (Z.leb_spec (Z.abs z) JS.MaxSafe) as [_|Hbig]; [exact Hz|].
  cbv zeta.
  set (e := Z.log2 (Z.abs z) - 52).
  assert (He : 0 <= 2 ^ e) by apply Z.pow_nonneg, Zle_0_pos.
  assert (Hq : 0 <= Z.abs z / 2 ^ e).
  { destruct (Z.eq_dec (2 ^ e) 0) as [E|E].
    - rewrite E, Z.div_0_r. lia.
    - apply Z.div_pos; lia. }
  assert (Hs : Z.sgn z = -1).
  { apply Z.sgn_neg. unfold JS.MaxSafe in Hbig.
    assert (0 < 2 ^ 53) by (apply Z.pow_pos_nonneg; lia). lia. }
  rewrite Hs.
  destruct (Z.abs z mod 2 ^ e <? 2 ^ (e - 1));
    [|destruct (2 ^ (e - 1) <? Z.abs z mod 2 ^ e);
      [|destruct (Z.even (Z.abs z / 2 ^ e))]]; nia.
Qed.

Lemma minus_one_safe (d : Z) :
  - JS.MaxSafe < d <= JS.MaxSafe -> JS.minus_one d = d - 1.
Proof.
  intros H. unfold JS.minus_one. apply round_double_safe.
  unfold JS.MaxSafe in *. lia.
Qed.

Lemma minus_one_nonpos (d : Z) : d <= 1 -> JS.minus_one d <= 0.
Proof. intros H. apply round_double_nonpos. lia. Qed.

(** Below [2^53] a positive [d - 1] is exact. *)
Lemma minus_one_positive (d : Z) :
  d <= JS.MaxSafe -> 0 < JS.minus_one d -> JS.minus_one d = d - 1.
Proof.
  intros Hd Hpos.
  destruct (Z.le_gt_cases d 1) as [Hle|Hgt].
  - apply minus_one_nonpos in Hle. lia.
  - apply minus_one_safe. unfold JS.MaxSafe in *.
    assert (0 < 2 ^ 53) by (apply Z.pow_pos_nonneg; lia). lia.
Qed.

End JSFacts.

(* ================================================================== *)
(** * The Text Budgeter *)

Module BudgeterFacts.

Import Async Budgeter.

Section Trim.

Variable encode : string -> option (list N).
Variable splitText : Z -> string -> list string.

Local Abbreviation tokens := (Budgeter.tokens encode).
Local Abbreviation pass_of := (trimPrompt_pass encode splitText).
Local Abbreviation trim_fuel := (trimPrompt_fuel encode splitText).
Local Abbreviation trim := (trimPrompt encode splitText).
Local Abbreviation prompts := (recursion encode splitText).

Lemma first_or_hd (l : list string) :
  JS.first_or l EmptyString = EmptyString /\ hd_error l = None
  \/ hd_error l = Some (JS.first_or l EmptyString).
Proof. destruct l; simpl; auto. Qed.

Lemma tokens_refused (s : string) : tokens s = None <-> encode s = None.
Proof.
  unfold Budgeter.tokens. destruct (encode s); split; congruence.
Qed.

(** The five ways a pass can go. *)
Lemma pass_cases (prompt : string) (contextSize : Z) :
  (prompt = EmptyString /\ pass_of prompt contextSize = Done EmptyString)
  \/ (prompt <> EmptyString /\ encode prompt = None
      /\ pass_of prompt contextSize = Raise)
  \/ exists length,
       prompt <> EmptyString /\ tokens prompt = Some length
       /\ ((length <= contextSize /\ pass_of prompt contextSize = Done prompt)
           \/ (contextSize < length
               /\ chunkSize_of prompt length contextSize < MinChunkSize
               /\ pass_of prompt contextSize
                  = Done (JS.str_slice0 prompt MinChunkSize))
           \/ (contextSize < length
               /\ MinChunkSize <= chunkSize_of prompt length contextSize
               /\ exists next,
                    pass_of prompt contextSize = Again next
                    /\ (next = JS.str_slice0 prompt
                                 (chunkSize_of prompt length contextSize)
                        \/ next = JS.first_or
                                    (splitText
                                       (chunkSize_of prompt length contextSize)
                                       prompt)
                                    EmptyString
                           /\ JS.strlen next <> JS.strlen prompt))).
Proof.
  unfold trimPrompt_pass.
  destruct (JS.falsy prompt) eqn:Ef.
  { left. apply JSFacts.falsy_true in Ef. auto. }
  apply JSFacts.falsy_false in Ef. right.
  destruct (tokens prompt) as [length|] eqn:Et.
  2:{ left. apply tokens_refused in Et. auto. }
  right. exists length. split; [exact Ef|]. split; [reflexivity|].
  destruct (Z.leb_spec length contextSize) as [Hle|Hgt].
  { left. auto. }
  right.
  destruct (Z.ltb_spec (chunkSize_of prompt length contextSize) MinChunkSize)
    as [Hsmall|Hbig].
  { left. auto. }
  right. repeat split; try assumption.
  destruct (Z.eqb_spec
              (JS.strlen (JS.first_or
                 (splitText (chunkSize_of prompt length contextSize) prompt)
                 EmptyString))
              (JS.strlen prompt)) as [Heq|Hne].
  - eexists. split; [reflexivity|]. left. reflexivity.
  - eexists. split; [reflexivity|]. right. split; [reflexivity | assumption].
Qed.

Lemma chunkSize_below (prompt : string) (length contextSize : Z) :
  contextSize < length ->
  chunkSize_of prompt length contextSize <= JS.strlen prompt - 3.
Proof. unfold chunkSize_of. simpl. lia. Qed.

(** A recursive call is made on a prompt over budget. *)
Lemma pass_again_over (prompt next : string) (contextSize : Z) :
  pass_of prompt contextSize = Again next ->
  exists length, tokens prompt = Some length /\ contextSize < length.
Proof.
  intros Hpass.
  destruct (pass_cases prompt contextSize)
    as [[_ H]|[[_ [_ H]]|[length [_ [Ht [[_ H]|[[_ [_ H]]|[Hgt _]]]]]]]];
    try congruence.
  exists length. auto.
Qed.

(** A recursive call is made on a strictly shorter prompt. *)
Lemma pass_again_shorter (Hsplit : first_chunk_bounded splitText)
    (prompt next : string) (contextSize : Z) :
  pass_of prompt contextSize = Again next ->
  (String.length next < String.length prompt)%nat.
Proof.
  intros Hpass.
  destruct (pass_cases prompt contextSize)
    as [[_ H]|[[_ [_ H]]|[length [_ [Ht [[_ H]|[[_ [_ H]]
                                           |[Hgt [Hbig [n [H Hn]]]]]]]]]]];
    try congruence.
  rewrite Hpass in H. injection H as <-.
  assert (Hc := chunkSize_below prompt length contextSize Hgt).
  unfold MinChunkSize in Hbig.
  destruct Hn as [->|[-> Hne]].
  - assert (Hl := JSFacts.str_slice0_length prompt
                    (chunkSize_of prompt length contextSize) ltac:(lia)).
    unfold JS.strlen in *. lia.
  - destruct (first_or_hd
                (splitText (chunkSize_of prompt length contextSize) prompt))
      as [[E _]|E].
    + rewrite E in *. unfold JS.strlen in Hne. simpl in *. lia.
    + apply Hsplit in E. unfold JS.strlen in Hne. lia.
Qed.

Lemma fuel_enough (Hsplit : first_chunk_bounded splitText)
    (contextSize : Z) (fuel : nat) :
  forall prompt,
    (String.length prompt < fuel)%nat ->
    trim_fuel fuel prompt contextSize <> Unsettled.
Proof.
  induction fuel as [|fuel IH]; intros prompt Hlen; [lia|].
  simpl. destruct (pass_of prompt contextSize) as [out|next|] eqn:E;
    try discriminate.
  apply IH. apply (pass_again_shorter Hsplit) in E. lia.
Qed.

Lemma fuel_more (contextSize : Z) (fuel : nat) :
  forall prompt extra,
    trim_fuel fuel prompt contextSize <> Unsettled ->
    trim_fuel (fuel + extra) prompt contextSize
    = trim_fuel fuel prompt contextSize.
Proof.
  induction fuel as [|fuel IH]; intros prompt extra; simpl; [congruence|].
  destruct (pass_of prompt contextSize); [reflexivity | apply IH | reflexivity].
Qed.

(** [trimPrompt] goes on from every prompt of its recursion as it does
    from the first. *)
Lemma fuel_along (contextSize : Z) (text prompt : string) :
  prompts contextSize text prompt ->
  forall fuel,
    trim_fuel fuel text contextSize <> Unsettled ->
    exists fuel',
      trim_fuel fuel' prompt contextSize = trim_fuel fuel text contextSize.
Proof.
  induction 1 as [|prompt next _ IH Hpass]; intros fuel Hfuel.
  - exists fuel. reflexivity.
  - destruct (IH fuel Hfuel) as [[|fuel'] E].
    + simpl in E. congruence.
    + exists fuel'. simpl in E. now rewrite Hpass in E.
Qed.

Lemma prompts_trans (contextSize : Z) (text middle prompt : string) :
  prompts contextSize text middle ->
  prompts contextSize middle prompt ->
  prompts contextSize text prompt.
Proof.
  intros H1 H2. induction H2 as [|p next _ IH Hpass]; [exact H1|].
  apply (rec_next _ _ _ _ p next IH Hpass).
Qed.

(** An exception comes from the encoder, on a prompt of the
    recursion. *)
Lemma fuel_threw (contextSize : Z) (fuel : nat) :
  forall text,
    trim_fuel fuel text contextSize = Threw ->
    exists prompt, prompts contextSize text prompt /\ encode prompt = None.
Proof.
  induction fuel as [|fuel IH]; intros text; simpl; [discriminate|].
  destruct (pass_of text contextSize) as [out|next|] eqn:E; [discriminate| |].
  - intros H. destruct (IH next H) as [prompt [Hp He]].
    exists prompt. split; [|exact He].
    apply (prompts_trans _ _ next); [|exact Hp].
    apply (rec_next _ _ _ _ text next (rec_first _ _ _ _) E).
  - intros _. exists text. split; [apply rec_first|].
    destruct (pass_cases text contextSize)
      as [[_ H]|[[_ [He _]]|[length [_ [_ [[_ H]|[[_ [_ H]]
                                             |[_ [_ [n [H _]]]]]]]]]]];
      congruence.
Qed.

(** What a pass returns is returned unchanged by a pass of its own,
    if the encoder accepts it. *)
Lemma pass_done_fixed (Haccept : accepts_prefixes encode)
    (prompt out : string) (contextSize : Z) :
  pass_of prompt contextSize = Done out ->
  pass_of out contextSize = Done out.
Proof.
  intros Hpass.
  destruct (pass_cases prompt contextSize)
    as [[_ H]|[[_ [_ H]]|[length [Hne [Ht [[_ H]|[[_ [_ H]]
                                             |[_ [_ [n [H _]]]]]]]]]]];
    try congruence; rewrite Hpass in H; injection H as ->; try assumption.
  - reflexivity.
  - (* the floor: at most 140 characters come back *)
    set (out := JS.str_slice0 prompt MinChunkSize) in *.
    assert (Hlen : JS.strlen out <= MinChunkSize).
    { unfold out. rewrite JSFacts.str_slice0_length by (unfold MinChunkSize; lia).
      lia. }
    assert (Hout : out <> EmptyString).
    { apply JSFacts.str_slice0_nonempty; [reflexivity | assumption]. }
    assert (Hacc : encode out <> None).
    { unfold out. rewrite JSFacts.str_slice0_nonneg by (unfold MinChunkSize; lia).
      apply Haccept. intros E. apply tokens_refused in E. congruence. }
    destruct (pass_cases out contextSize)
      as [[E _]|[[_ [He _]]|[length' [_ [_ [[_ H]|[[_ [_ H]]
                                              |[Hgt [Hbig _]]]]]]]]].
    + congruence.
    + congruence.
    + assumption.
    + rewrite H. f_equal. apply JSFacts.str_slice0_short. assumption.
    + assert (Hc := chunkSize_below out length' contextSize Hgt). lia.
Qed.

Lemma fuel_result_fixed (Haccept : accepts_prefixes encode)
    (contextSize : Z) (fuel : nat) :
  forall prompt out,
    trim_fuel fuel prompt contextSize = Returned out ->
    pass_of out contextSize = Done out.
Proof.
  induction fuel as [|fuel IH]; intros prompt out; simpl; [discriminate|].
  destruct (pass_of prompt contextSize) as [o|next|] eqn:E.
  - intros [= <-]. apply (pass_done_fixed Haccept _ _ _ E).
  - apply IH.
  - discriminate.
Qed.

Lemma trim_of_fixed (out : string) (contextSize : Z) :
  pass_of out contextSize = Done out -> trim out contextSize = Returned out.
Proof. intros H. unfold trimPrompt. simpl. now rewrite H. Qed.

(** What comes back came from a returning case. *)
Lemma fuel_result_done (contextSize : Z) (fuel : nat) :
  forall text out,
    trim_fuel fuel text contextSize = Returned out ->
    exists prompt,
      prompts contextSize text prompt
      /\ pass_of prompt contextSize = Done out.
Proof.
  induction fuel as [|fuel IH]; intros text out; simpl; [discriminate|].
  destruct (pass_of text contextSize) as [o|next|] eqn:E.
  - intros [= <-]. exists text. split; [apply rec_first | exact E].
  - intros H. destruct (IH next out H) as [prompt [Hp Hd]].
    exists prompt. split; [|exact Hd].
    apply (prompts_trans _ _ next); [|exact Hp].
    apply (rec_next _ _ _ _ text next (rec_first _ _ _ _) E).
  - discriminate.
Qed.

(** C4. A non-empty text whose token count is within the budget is
    returned exactly as it came. *)
Theorem trimPrompt_identity (text : string) (n length : Z) :
  text <> EmptyString ->
  tokens text = Some length ->
  length <= n ->
  trim text n = Returned text.
Proof.
  intros Hne Ht Hle. apply trim_of_fixed.
  destruct (pass_cases text n)
    as [[E _]|[[_ [He _]]|[length' [_ [Ht' [[_ H]|[[Hgt _]|[Hgt _]]]]]]]].
  - congruence.
  - apply tokens_refused in He. congruence.
  - assumption.
  - assert (length' = length) by congruence. lia.
  - assert (length' = length) by congruence. lia.
Qed.

(** C5. [trimPrompt] terminates. A recursive call is made only on a
    prompt over budget and on a strictly shorter one, so that one pass
    per character and one more always end the recursion, and more fuel
    changes nothing. It ends in a returning case, whose value one more
    pass hands back, or by the exception of the encoder on a prompt of
    the recursion; where the encoder accepts these prompts a value is
    returned. The splitter is assumed to cut its text
    ([first_chunk_bounded]). *)
Theorem trimPrompt_terminates (Hsplit : first_chunk_bounded splitText)
    (text : string) (n : Z) :
  (forall prompt next,
      pass_of prompt n = Again next ->
      (exists length, tokens prompt = Some length /\ n < length)
      /\ (String.length next < String.length prompt)%nat)
  /\ trim text n <> Unsettled
  /\ (forall extra,
         trim_fuel (S (String.length text) + extra) text n = trim text n)
  /\ (forall out,
         trim text n = Returned out ->
         exists prompt, prompts n text prompt /\ pass_of prompt n = Done out)
  /\ (trim text n = Threw ->
      exists prompt, prompts n text prompt /\ encode prompt = None)
  /\ ((forall prompt, prompts n text prompt -> encode prompt <> None) ->
      exists out, trim text n = Returned out).
Proof.
  assert (Hends : trim text n <> Unsettled).
  { apply (fuel_enough Hsplit). lia. }
  split; [|split; [exact Hends|split; [|split; [|split]]]].
  - intros prompt next Hpass. split.
    + apply (pass_again_over _ _ _ Hpass).
    + apply (pass_again_shorter Hsplit _ _ _ Hpass).
  - intros extra. apply fuel_more. exact Hends.
  - intros out. apply fuel_result_done.
  - apply fuel_threw.
  - intros Hacc. unfold trimPrompt in *.
    destruct (trim_fuel (S (String.length text)) text n) as [out| |] eqn:E.
    + eauto.
    + destruct (fuel_threw _ _ _ E) as [prompt [Hp He]].
      destruct (Hacc prompt Hp He).
    + congruence.
Qed.

(** C6. [trimPrompt] is idempotent: it ends, and trimming what it
    returned with the same budget returns that again; where it throws,
    so does the trimming of its result. The splitter is assumed to cut
    its text ([first_chunk_bounded]) and the encoder to accept a text
    cut short when it accepts the text ([accepts_prefixes]). *)
Theorem trimPrompt_idempotent (Hsplit : first_chunk_bounded splitText)
    (Haccept : accepts_prefixes encode) (text : string) (n : Z) :
  (out <- trim text n ;; trim out n) = trim text n
  /\ trim text n <> Unsettled
  /\ forall out, trim text n = Returned out -> trim out n = Returned out.
Proof.
  assert (Hends : trim text n <> Unsettled).
  { apply (fuel_enough Hsplit). lia. }
  assert (Hfix : forall out,
             trim text n = Returned out -> trim out n = Returned out).
  { intros out Hout. apply trim_of_fixed.
    apply (fuel_result_fixed Haccept _ _ _ _ Hout). }
  split; [|split; assumption].
  destruct (trim text n) as [out| |] eqn:E; simpl; auto.
Qed.

(** A pass that calls [trimPrompt] on the empty prompt: the splitter
    gave no first chunk, or an empty one, for a prompt over budget. *)
Lemma pass_again_empty (prompt : string) (contextSize : Z) :
  prompt <> EmptyString ->
  (pass_of prompt contextSize = Again EmptyString
   <-> exists length,
         tokens prompt = Some length /\ contextSize < length
         /\ MinChunkSize <= chunkSize_of prompt length contextSize
         /\ JS.first_or (splitText (chunkSize_of prompt length contextSize)
                                   prompt)
                        EmptyString = EmptyString).
Proof.
  intros Hne.
  assert (Hlen : JS.strlen prompt <> 0).
  { unfold JS.strlen. destruct prompt; [congruence | simpl; lia]. }
  split.
  - intros Hpass.
    destruct (pass_cases prompt contextSize)
      as [[_ H]|[[_ [_ H]]|[length [_ [Ht [[_ H]|[[_ [_ H]]
                                             |[Hgt [Hbig [n [H Hn]]]]]]]]]]];
      try congruence.
    exists length. repeat split; try assumption.
    rewrite Hpass in H. injection H as <-.
    destruct Hn as [E|[E _]]; [|now rewrite <- E].
    exfalso. symmetry in E.
    apply JSFacts.str_slice0_nonempty in E; [exact E| |exact Hne].
    unfold MinChunkSize in Hbig. lia.
  - intros [length [Ht [Hgt [Hbig E]]]].
    unfold trimPrompt_pass.
    destruct (JS.falsy prompt) eqn:Ef.
    { apply JSFacts.falsy_true in Ef. congruence. }
    rewrite Ht.
    destruct (Z.leb_spec length contextSize); [lia|].
    destruct (Z.ltb_spec (chunkSize_of prompt length contextSize) MinChunkSize);
      [lia|].
    rewrite E.
    destruct (Z.eqb_spec (JS.strlen EmptyString) (JS.strlen prompt)) as [H'|_];
      [|reflexivity].
    unfold JS.strlen in H', Hlen. simpl in H'. lia.
Qed.

Lemma pass_done_nonempty (prompt out : string) (contextSize : Z) :
  prompt <> EmptyString ->
  pass_of prompt contextSize = Done out ->
  out <> EmptyString.
Proof.
  intros Hne Hpass.
  destruct (pass_cases prompt contextSize)
    as [[E _]|[[_ [_ H]]|[length [_ [Ht [[_ H]|[[_ [_ H]]
                                           |[_ [_ [n [H _]]]]]]]]]]];
    try congruence; rewrite Hpass in H; injection H as ->.
  apply JSFacts.str_slice0_nonempty; [reflexivity | exact Hne].
Qed.

Lemma fuel_empty_output (contextSize : Z) (fuel : nat) :
  forall text,
    text <> EmptyString ->
    trim_fuel fuel text contextSize = Returned EmptyString ->
    exists prompt,
      prompts contextSize text prompt /\ prompt <> EmptyString
      /\ pass_of prompt contextSize = Again EmptyString.
Proof.
  induction fuel as [|fuel IH]; intros text Hne; simpl; [discriminate|].
  destruct (pass_of text contextSize) as [o|next|] eqn:E.
  - intros [= ->]. destruct (pass_done_nonempty _ _ _ Hne E eq_refl).
  - intros H. destruct next as [|c next'].
    + exists text. split; [apply rec_first | auto].
    + destruct (IH (String c next') ltac:(discriminate) H)
        as [prompt [Hp Hrest]].
      exists prompt. split; [|exact Hrest].
      apply (prompts_trans _ _ (String c next')); [|exact Hp].
      apply (rec_next _ _ _ _ text _ (rec_first _ _ _ _) E).
  - discriminate.
Qed.

(** C7, amended. What [trimPrompt] returns for a non-empty text is
    empty exactly when the splitter gave no first chunk, or an empty
    one, for a non-empty prompt of the recursion; and when the text is
    over budget and the chunk size falls below the floor, it returns
    the first 140 characters of the text, which are not empty. *)
Theorem trimPrompt_nonempty (text : string) (n : Z) :
  text <> EmptyString ->
  (forall out,
      trim text n = Returned out ->
      (out = EmptyString
       <-> exists prompt length,
             prompts n text prompt /\ prompt <> EmptyString
             /\ tokens prompt = Some length /\ n < length
             /\ MinChunkSize <= chunkSize_of prompt length n
             /\ JS.first_or (splitText (chunkSize_of prompt length n) prompt)
                            EmptyString = EmptyString))
  /\ (forall length,
         tokens text = Some length ->
         n < length ->
         chunkSize_of text length n < MinChunkSize ->
         trim text n = Returned (substring 0 140 text)
         /\ substring 0 140 text <> EmptyString).
Proof.
  intros Hne. split.
  - intros out Hout. split.
    + intros ->.
      destruct (fuel_empty_output _ _ _ Hne Hout) as [prompt [Hp [Hpne Hpass]]].
      apply (pass_again_empty _ _ Hpne) in Hpass.
      destruct Hpass as [length H]. exists prompt, length. tauto.
    + intros [prompt [length [Hp [Hpne H]]]].
      assert (Hpass : pass_of prompt n = Again EmptyString).
      { apply (pass_again_empty _ _ Hpne). exists length. exact H. }
      assert (Hends : trim text n <> Unsettled) by congruence.
      destruct (fuel_along _ _ _ Hp _ Hends) as [[|[|fuel']] E];
        unfold trimPrompt in Hout; rewrite Hout in E; simpl in E;
        try discriminate; rewrite Hpass in E; simpl in E;
        [discriminate | congruence].
  - intros length Ht Hgt Hsmall.
    assert (E : JS.str_slice0 text MinChunkSize = substring 0 140 text).
    { now rewrite JSFacts.str_slice0_nonneg. }
    rewrite <- E. split.
    + apply eq_trans with (y := trim_fuel 1 text n).
      { unfold trimPrompt. simpl.
        destruct (pass_of text n) eqn:Ep; try reflexivity.
        destruct (pass_cases text n)
          as [[E' _]|[[_ [_ H]]|[length' [_ [Ht' [[Hle H]|[[_ [_ H]]
                                              |[_ [Hbig _]]]]]]]]];
          try congruence;
          assert (length' = length) by congruence; subst; lia. }
      simpl.
      destruct (pass_cases text n)
        as [[E' _]|[[_ [He _]]|[length' [_ [Ht' [[Hle _]|[[_ [_ H]]
                                              |[_ [Hbig _]]]]]]]]].
      * congruence.
      * apply tokens_refused in He. congruence.
      * assert (length' = length) by congruence. lia.
      * now rewrite H.
      * assert (length' = length) by congruence. subst. lia.
    + apply JSFacts.str_slice0_nonempty; [reflexivity | assumption].
Qed.

End Trim.

End BudgeterFacts.

(* ================================================================== *)
(** * The budgeter on the sample tokenizer and splitters *)

Module BudgeterSamples.

Import Async Budgeter Samples.

Lemma raw_split_first (chunkSize : Z) (text chunk : string) :
  hd_error (raw_split chunkSize text) = Some chunk ->
  text <> EmptyString /\ chunk = substring 0 (Z.to_nat chunkSize) text.
Proof.
  unfold raw_split. destruct text as [|c text]; simpl; [discriminate|].
  intros [= <-]. split; [discriminate | reflexivity].
Qed.

Lemma raw_split_bounded : first_chunk_bounded raw_split.
Proof.
  intros chunkSize text chunk H.
  apply raw_split_first in H. destruct H as [_ ->].
  rewrite JSFacts.substring_0_length. lia.
Qed.

(** A text in which the special token does not stand does not hold it
    when cut short. *)
Lemma prefix_of_cut (pat : string) :
  forall n s,
    String.prefix pat (substring 0 n s) = true -> String.prefix pat s = true.
Proof.
  induction pat as [|a pat IH]; intros n s; [destruct s; reflexivity|].
  destruct n as [|n], s as [|c s]; simpl; try discriminate.
  destruct (ascii_dec a c); [apply IH | discriminate].
Qed.

Lemma stands_in_cut (pat : string) :
  forall s n,
    stands_in pat (substring 0 n s) = true -> stands_in pat s = true.
Proof.
  induction s as [|c s IH]; intros n.
  - destruct n; simpl; auto.
  - destruct n as [|n].
    + simpl substring. intros H.
      assert (Hp : pat = EmptyString).
      { destruct pat; [reflexivity | simpl in H; discriminate]. }
      subst. reflexivity.
    + change (substring 0 (S n) (String c s))
        with (String c (substring 0 n s)).
      intros H. simpl in H. apply orb_prop in H.
      change (stands_in pat (String c s))
        with (String.prefix pat (String c s) || stands_in pat s)%bool.
      apply orb_true_intro. destruct H as [H|H].
      * left. apply (prefix_of_cut pat (S n) (String c s)). exact H.
      * right. apply (IH n H).
Qed.

Lemma char_encode_accepts_prefixes : accepts_prefixes char_encode.
Proof.
  intros text n H. unfold char_encode in *.
  destruct (stands_in special_token (substring 0 n text)) eqn:E;
    [|discriminate].
  apply stands_in_cut in E. rewrite E in H. congruence.
Qed.

(** Two hundred letters fit a budget of two hundred tokens. *)
Lemma trimPrompt_identity_witness :
  letters <> EmptyString
  /\ tokens char_encode letters = Some 200
  /\ 200 <= 200
  /\ trimPrompt char_encode raw_split letters 200 = Returned letters.
Proof.
  assert (Hne : letters <> EmptyString) by discriminate.
  assert (Ht : tokens char_encode letters = Some 200)
    by (vm_compute; reflexivity).
  assert (Hle : 200 <= 200) by lia.
  exact (conj Hne (conj Ht (conj Hle
           (BudgeterFacts.trimPrompt_identity char_encode raw_split
              letters 200 200 Hne Ht Hle)))).
Defined.

(** Two hundred letters are ten tokens over a budget of 190: the chunk
    size is 170, the splitter is asked, and [trimPrompt] calls itself
    on its first chunk, 170 letters, which fit. *)
Lemma letters_cut_once :
  trimPrompt_pass char_encode raw_split letters 190
  = Again (repeat_char 170 "a")
  /\ trimPrompt char_encode raw_split letters 190
     = Returned (repeat_char 170 "a").
Proof. split; vm_compute; reflexivity. Qed.

Lemma trimPrompt_terminates_witness :
  first_chunk_bounded raw_split
  /\ trimPrompt_pass char_encode raw_split letters 190
     = Again (repeat_char 170 "a")
  /\ (exists length, tokens char_encode letters = Some length /\ 190 < length)
  /\ (String.length (repeat_char 170 "a") < String.length letters)%nat
  /\ trimPrompt char_encode raw_split letters 190 <> Unsettled.
Proof.
  assert (Hpass : trimPrompt_pass char_encode raw_split letters 190
                  = Again (repeat_char 170 "a")) by (vm_compute; reflexivity).
  destruct (BudgeterFacts.trimPrompt_terminates char_encode raw_split
              raw_split_bounded letters 190) as [Hshrinks [Hends _]].
  destruct (Hshrinks _ _ Hpass) as [Hover Hshorter].
  exact (conj raw_split_bounded
           (conj Hpass (conj Hover (conj Hshorter Hends)))).
Defined.

Lemma trimPrompt_idempotent_witness :
  first_chunk_bounded raw_split
  /\ accepts_prefixes char_encode
  /\ trimPrompt char_encode raw_split letters 190
     = Returned (repeat_char 170 "a")
  /\ trimPrompt char_encode raw_split (repeat_char 170 "a") 190
     = Returned (repeat_char 170 "a").
Proof.
  assert (Hout : trimPrompt char_encode raw_split letters 190
                 = Returned (repeat_char 170 "a")) by (vm_compute; reflexivity).
  exact (conj raw_split_bounded
           (conj char_encode_accepts_prefixes
              (conj Hout
                 (proj2 (proj2
                    (BudgeterFacts.trimPrompt_idempotent char_encode raw_split
                       raw_split_bounded char_encode_accepts_prefixes
                       letters 190))
                    _ Hout)))).
Defined.

(** On the raw splitter the 170 letters that come back are not empty:
    no prompt of the recursion was left without a first chunk. *)
Lemma trimPrompt_nonempty_witness :
  letters <> EmptyString
  /\ trimPrompt char_encode raw_split letters 190
     = Returned (repeat_char 170 "a")
  /\ ~ (exists prompt length,
          recursion char_encode raw_split 190 letters prompt
          /\ prompt <> EmptyString
          /\ tokens char_encode prompt = Some length /\ 190 < length
          /\ MinChunkSize <= chunkSize_of prompt length 190
          /\ JS.first_or (raw_split (chunkSize_of prompt length 190) prompt)
                         EmptyString = EmptyString).
Proof.
  assert (Hne : letters <> EmptyString) by discriminate.
  assert (Hout : trimPrompt char_encode raw_split letters 190
                 = Returned (repeat_char 170 "a")) by (vm_compute; reflexivity).
  refine (conj Hne (conj Hout _)).
  intros H.
  apply (proj1 (BudgeterFacts.trimPrompt_nonempty char_encode raw_split
                  letters 190 Hne) _ Hout) in H.
  discriminate H.
Defined.

(** C7 as stated fails on a splitter that keeps nothing of a text of
    blanks: with one token per character and a budget of 190 tokens,
    two hundred blanks are ten tokens over, the chunk size is 170, the
    splitter yields no chunk, [?? ''] makes the trimmed prompt empty
    and the recursive call returns it. *)
Lemma trimPrompt_empty_output :
  blanks <> EmptyString
  /\ tokens char_encode blanks = Some 200
  /\ chunkSize_of blanks 200 190 = 170
  /\ word_split 170 blanks = []
  /\ trimPrompt char_encode word_split blanks 190 = Returned EmptyString.
Proof.
  split; [discriminate|]. repeat split; vm_compute; reflexivity.
Qed.

(** On a text in which the special token stands the encoder throws,
    and so does [trimPrompt]. *)
Lemma marked_text_throws :
  char_encode marked = None
  /\ trimPrompt char_encode raw_split marked 190 = Threw.
Proof. split; vm_compute; reflexivity. Qed.

End BudgeterSamples.

(* ================================================================== *)
(** * The orchestrator *)

Module ResearchFacts.

Import Research.

Lemma bind_returned {A B} (m : outcome A) (k : A -> outcome B) (b : B) :
  bind m k = Returned b -> exists a, m = Returned a /\ k a = Returned b.
Proof. destruct m; simpl; intros H; try discriminate. eauto. Qed.

Lemma fulfilled_Forall2 {A} (ps : list (outcome A)) (l : list A) :
  fulfilled ps = Some l -> Forall2 (fun p x => p = Returned x) ps l.
Proof.
  revert l; induction ps as [|p ps IH]; intros l; simpl.
  - intros [= <-]. constructor.
  - destruct p; try discriminate.
    destruct (fulfilled ps); try discriminate.
    intros [= <-]. constructor; auto.
Qed.

Lemma Promise_all_returned {A} (ps : list (outcome A)) (l : list A) :
  Promise_all ps = Returned l -> Forall2 (fun p x => p = Returned x) ps l.
Proof.
  unfold Promise_all. destruct (threw_any ps); [discriminate|].
  destruct (fulfilled ps) eqn:E; [|discriminate].
  intros [= <-]. now apply fulfilled_Forall2.
Qed.

Lemma threw_any_In {A} (ps : list (outcome A)) :
  threw_any ps = true <-> In Threw ps.
Proof.
  induction ps as [|p ps IH]; simpl; [split; [discriminate | tauto]|].
  destruct p; rewrite ?IH; split; auto; intros [H|H]; auto; discriminate.
Qed.

(** One rejected task rejects the whole [Promise.all]. *)
Lemma Promise_all_threw {A} (ps : list (outcome A)) :
  In Threw ps -> Promise_all ps = Threw.
Proof.
  intros H. unfold Promise_all. apply threw_any_In in H. now rewrite H.
Qed.

(** A rejected [Promise.all] had a rejected task. *)
Lemma Promise_all_threw_inv {A} (ps : list (outcome A)) :
  Promise_all ps = Threw -> In Threw ps.
Proof.
  unfold Promise_all. destruct (threw_any ps) eqn:Et.
  - intros _. now apply threw_any_In.
  - destruct (fulfilled ps); discriminate.
Qed.

Lemma Forall2_In_r {A B} (R : A -> B -> Prop) (l : list A) (l' : list B) (y : B) :
  Forall2 R l l' -> In y l' -> exists x, In x l /\ R x y.
Proof.
  induction 1 as [|a b l l' Hab _ IH]; simpl; [tauto|].
  intros [<-|H]; [eauto|].
  destruct (IH H) as [x [Hx HR]]. eauto.
Qed.

Lemma Forall2_In_l {A B} (R : A -> B -> Prop) (l : list A) (l' : list B) (x : A) :
  Forall2 R l l' -> In x l -> exists y, In y l' /\ R x y.
Proof.
  induction 1 as [|a b l l' Hab _ IH]; simpl; [tauto|].
  intros [<-|H]; [eauto|].
  destruct (IH H) as [y [Hy HR]]. eauto.
Qed.

(** A loop of calls that all settle settles, and throws when one of
    them does. *)
Lemma map_calls_settles {A B} (f : A -> outcome B) (xs : list A) :
  (forall x, In x xs -> f x <> Unsettled) -> map_calls f xs <> Unsettled.
Proof.
  induction xs as [|x xs IH]; intros H; simpl; [discriminate|].
  assert (Hx := H x (or_introl eq_refl)).
  destruct (f x); simpl; try congruence.
  assert (Hr := IH (fun y Hy => H y (or_intror Hy))).
  destruct (map_calls f xs); simpl; congruence.
Qed.

Lemma map_calls_threw {A B} (f : A -> outcome B) (xs : list A) :
  (forall x, In x xs -> f x <> Unsettled) ->
  (exists x, In x xs /\ f x = Threw) ->
  map_calls f xs = Threw.
Proof.
  induction xs as [|x xs IH]; intros H [y [Hy Hf]]; simpl; [destruct Hy|].
  assert (Hx := H x (or_introl eq_refl)).
  destruct (f x) eqn:Ex; simpl; try congruence.
  rewrite IH; [reflexivity | intros z Hz; apply H; now right |].
  destruct Hy as [->|Hy]; [congruence | eauto].
Qed.

Section World.

Variable w : World.

(** ** Inside one branch *)

(** How the [try] block of a branch ends, read off its two steps. *)
Lemma branch_try_cases (site : list nat) (serpQuery : SerpQuery)
    (breadth depth : Z) (learnings visitedUrls : list string) :
  match discoveries w site serpQuery breadth with
  | Some (s, newUrls) =>
      branch_try w site serpQuery breadth depth learnings visitedUrls =
      Returned
        (if JS.minus_one depth >? 0
         then Deeper (nextQuery serpQuery (followUpQuestions s))
                     (JS.ceil_half breadth) (JS.minus_one depth)
                     (learnings ++ sr_learnings s) (visitedUrls ++ newUrls)
         else Final {| Research.learnings := learnings ++ sr_learnings s;
                       Research.visitedUrls := visitedUrls ++ newUrls |})
  | None =>
      branch_try w site serpQuery breadth depth learnings visitedUrls = Threw
      \/ branch_try w site serpQuery breadth depth learnings visitedUrls
         = Unsettled
  end.
Proof.
  unfold discoveries, branch_try.
  destruct (crawlWebsite w site (query serpQuery)) as [[result|]| |];
    simpl; auto.
  destruct (processSerpResult w site (query serpQuery) result
              DefaultNumLearnings (JS.ceil_half breadth)) as [s| |]; simpl; auto.
  destruct (JS.minus_one depth >? 0); reflexivity.
Qed.

(** Case analysis on what a branch found: [Hc] tells how its [try]
    block ends, with the synthesis [s] and the URLs [newUrls] when both
    steps succeeded. *)
Ltac by_discoveries site serpQuery breadth depth learnings visitedUrls :=
  let Hc := fresh "Hc" in
  assert (Hc := branch_try_cases site serpQuery breadth depth
                                 learnings visitedUrls);
  destruct (discoveries w site serpQuery breadth) as [[s newUrls]|].

(** The calls behind a [try] block that ran to its end. *)
Lemma branch_try_returned (site : list nat) (serpQuery : SerpQuery)
    (breadth depth : Z) (learnings visitedUrls : list string) (v : verdict) :
  branch_try w site serpQuery breadth depth learnings visitedUrls = Returned v ->
  exists result contents res,
    crawlWebsite w site (query serpQuery) = Returned (Items result)
    /\ trimmed_contents w result = Returned contents
    /\ synth_call w site (query serpQuery) contents
                  DefaultNumLearnings (JS.ceil_half breadth) = Returned res
    /\ discoveries w site serpQuery breadth
       = Some ({| sr_learnings := syn_learnings res;
                  followUpQuestions :=
                    match syn_followUpQuestions res with
                    | Some qs => qs
                    | None => []
                    end |},
               map sourceURL result).
Proof.
  unfold branch_try, discoveries, processSerpResult.
  destruct (crawlWebsite w site (query serpQuery)) as [[result|]| |] eqn:Ec;
    simpl; try discriminate.
  destruct (trimmed_contents w result) as [contents| |] eqn:Et; simpl;
    try discriminate.
  destruct (synth_call w site (query serpQuery) contents DefaultNumLearnings
                       (JS.ceil_half breadth)) as [res| |] eqn:Es;
    simpl; try discriminate.
  intros _. exists result, contents, res.
  repeat split; try assumption; reflexivity.
Qed.

(** A branch recurses exactly when its [try] block ends in [Deeper];
    a block that throws ends in the [catch] clause. *)
Lemma branch_of_try
    (recur : list nat -> string -> Z -> Z -> list string -> list string
             -> outcome ResearchResult)
    (site : list nat) (serpQuery : SerpQuery)
    (breadth depth : Z) (learnings visitedUrls : list string) :
  branch w recur site serpQuery breadth depth learnings visitedUrls =
  match branch_try w site serpQuery breadth depth learnings visitedUrls with
  | Returned (Final r) => Returned r
  | Returned (Deeper next newBreadth newDepth allLearnings allUrls) =>
      recur site next newBreadth newDepth allLearnings allUrls
  | Threw => Returned emptyResult
  | Unsettled => Unsettled
  end.
Proof.
  unfold branch.
  destruct (branch_try w site serpQuery breadth depth learnings visitedUrls)
    as [[r|next nb nd al au]| |]; reflexivity.
Qed.

(** ** Merging upward *)

Lemma merge_includes (results : list ResearchResult) (r : ResearchResult) :
  In r results ->
  incl (learnings r) (learnings (merge results))
  /\ incl (visitedUrls r) (visitedUrls (merge results)).
Proof.
  intros Hr. split; intros x Hx; simpl; apply JSFacts.uniq_In;
    apply in_flat_map; exists r; auto.
Qed.

Lemma merge_of_empty (results : list ResearchResult) :
  (forall r, In r results -> r = emptyResult) -> merge results = emptyResult.
Proof.
  intros H.
  assert (E : forall f : ResearchResult -> list string,
             f emptyResult = [] -> flat_map f results = []).
  { intros f Hf. induction results as [|r results IH]; [reflexivity|].
    simpl. rewrite (H r (or_introl eq_refl)), Hf.
    apply IH. intros x Hx. apply H. now right. }
  unfold merge. rewrite !E by reflexivity. reflexivity.
Qed.

(** What a call returns: the merge of what its branches returned. *)
Lemma call_returned (fuel : nat) (site : list nat) (q : string)
    (breadth depth : Z) (learnings visitedUrls : list string)
    (r : ResearchResult) :
  deepResearch_fuel w fuel site q breadth depth learnings visitedUrls
  = Returned r ->
  exists fuel' serpQueries results,
    fuel = S fuel'
    /\ generateSerpQueries w site q breadth learnings = Returned serpQueries
    /\ Forall2 (fun p x => p = Returned x)
         (JS.mapi (fun i serpQuery =>
                     branch w (deepResearch_fuel w fuel') (i :: site) serpQuery
                            breadth depth learnings visitedUrls)
                  serpQueries)
         results
    /\ r = merge results.
Proof.
  destruct fuel as [|fuel']; simpl; [discriminate|].
  intros H.
  apply bind_returned in H. destruct H as [serpQueries [Hq H]].
  apply bind_returned in H. destruct H as [results [Hall H]].
  injection H as <-.
  exists fuel', serpQueries, results.
  repeat split; try assumption.
  now apply Promise_all_returned.
Qed.

(** What the branch of a planned query returned is among the results
    that are merged. *)
Lemma branch_result_merged
    (recur : list nat -> string -> Z -> Z -> list string -> list string
             -> outcome ResearchResult)
    (site : list nat) (breadth depth : Z) (learnings visitedUrls : list string)
    (serpQueries : list SerpQuery) (results : list ResearchResult)
    (i : nat) (serpQuery : SerpQuery) :
  Forall2 (fun p x => p = Returned x)
    (JS.mapi (fun i serpQuery =>
                branch w recur (i :: site) serpQuery
                       breadth depth learnings visitedUrls)
             serpQueries)
    results ->
  nth_error serpQueries i = Some serpQuery ->
  exists r,
    In r results
    /\ branch w recur (i :: site) serpQuery breadth depth learnings visitedUrls
       = Returned r.
Proof.
  intros Hall Hn.
  apply (JSFacts.mapi_nth
           (fun i serpQuery =>
              branch w recur (i :: site) serpQuery
                     breadth depth learnings visitedUrls)) in Hn.
  destruct (Forall2_In_l _ _ _ _ Hall Hn) as [r [Hr E]]. eauto.
Qed.

(** ** What a branch carries to the end *)

Lemma branch_carries
    (recur : list nat -> string -> Z -> Z -> list string -> list string
             -> outcome ResearchResult)
    (recur_lives : list nat -> string -> Z -> Z -> list string -> list string
                   -> bool)
    (Hrec : forall site q breadth depth learnings visitedUrls r,
        recur site q breadth depth learnings visitedUrls = Returned r ->
        if recur_lives site q breadth depth learnings visitedUrls
        then incl learnings (Research.learnings r)
             /\ incl visitedUrls (Research.visitedUrls r)
        else r = emptyResult)
    (site : list nat) (serpQuery : SerpQuery)
    (breadth depth : Z) (learnings visitedUrls : list string)
    (r : ResearchResult) :
  branch w recur site serpQuery breadth depth learnings visitedUrls
  = Returned r ->
  match discoveries w site serpQuery breadth with
  | None => r = emptyResult
  | Some (found, newUrls) =>
      if branch_lives w recur_lives site serpQuery breadth depth
                      learnings visitedUrls
      then incl (learnings ++ sr_learnings found) (Research.learnings r)
           /\ incl (visitedUrls ++ newUrls) (Research.visitedUrls r)
           /\ (JS.minus_one depth <= 0 ->
               r = {| Research.learnings := learnings ++ sr_learnings found;
                      Research.visitedUrls := visitedUrls ++ newUrls |})
      else r = emptyResult
  end.
Proof.
  rewrite branch_of_try. unfold branch_lives.
  by_discoveries site serpQuery breadth depth learnings visitedUrls.
  - rewrite Hc. destruct (Z.gtb_spec (JS.minus_one depth) 0) as [Hpos|Hnon].
    + intros H. apply Hrec in H.
      destruct (recur_lives site (nextQuery serpQuery (followUpQuestions s))
                            (JS.ceil_half breadth) (JS.minus_one depth)
                            (learnings ++ sr_learnings s)
                            (visitedUrls ++ newUrls)); [|exact H].
      destruct H as [Hl Hu]. repeat split; try assumption. lia.
    + intros [= <-]. simpl. repeat split; apply incl_refl.
  - destruct Hc as [Hc|Hc]; rewrite Hc; [|discriminate].
    now intros [= <-].
Qed.

Lemma call_carries (fuel : nat) :
  forall site q breadth depth learnings visitedUrls r,
    deepResearch_fuel w fuel site q breadth depth learnings visitedUrls
    = Returned r ->
    if lives_fuel w fuel site q breadth depth learnings visitedUrls
    then incl learnings (Research.learnings r)
         /\ incl visitedUrls (Research.visitedUrls r)
    else r = emptyResult.
Proof.
  induction fuel as [|fuel IH];
    intros site q breadth depth learnings visitedUrls r H.
  { discriminate. }
  apply call_returned in H.
  destruct H as [fuel' [serpQueries [results [[= <-] [Hq [Hall ->]]]]]].
  cbn [lives_fuel]. rewrite Hq.
  match goal with
  | |- context [existsb ?f ?l] => destruct (existsb f l) eqn:E
  end.
  - apply existsb_exists in E. destruct E as [alive [Hin ->]].
    apply JSFacts.mapi_In in Hin. destruct Hin as [j [sq [Hn Hlives]]].
    destruct (branch_result_merged _ _ _ _ _ _ _ _ _ _ Hall Hn)
      as [rb [Hrb Hb]].
    apply (branch_carries _ _ IH) in Hb. symmetry in Hlives.
    destruct (discoveries w (j :: site) sq breadth) as [[found newUrls]|] eqn:Ed.
    2:{ unfold branch_lives in Hlives. rewrite Ed in Hlives. discriminate. }
    rewrite Hlives in Hb. destruct Hb as [Hl [Hu _]].
    destruct (merge_includes results rb Hrb) as [Ml Mu].
    split; intros x Hx; [apply Ml, Hl | apply Mu, Hu]; apply in_or_app; now left.
  - apply merge_of_empty. intros rb Hrb.
    destruct (Forall2_In_r _ _ _ _ Hall Hrb) as [p [Hp ->]].
    apply JSFacts.mapi_In in Hp. destruct Hp as [j [sq [Hn Hb]]].
    symmetry in Hb. apply (branch_carries _ _ IH) in Hb.
    assert (Hdead : branch_lives w (lives_fuel w fuel) (j :: site) sq breadth
                                 depth learnings visitedUrls = false).
    { destruct (branch_lives w (lives_fuel w fuel) (j :: site) sq breadth
                             depth learnings visitedUrls) eqn:El;
        [|reflexivity].
      rewrite <- E. symmetry. apply existsb_exists. exists true.
      split; [|reflexivity]. rewrite <- El.
      apply (JSFacts.mapi_nth
               (fun i serpQuery =>
                  branch_lives w (lives_fuel w fuel) (i :: site) serpQuery
                               breadth depth learnings visitedUrls) _ _ _ Hn). }
    rewrite Hdead in Hb.
    destruct (discoveries w (j :: site) sq breadth) as [[found newUrls]|];
      exact Hb.
Qed.

(** C1, amended. A branch lives when its retrieval and synthesis
    succeed and, if it hands over to a nested call, a branch of that
    call lives in turn. What a call of [deepResearch] returns, at the
    top or nested, contains every learning and URL the call was given
    as soon as one of its branches lives, together with what each
    living branch found; it is the empty result when none lives: no
    query was planned, or every branch failed or ended in a call
    without a living branch. A branch that returns gives the empty
    result when it failed or does not live; a living branch gives a
    result that contains what it was given and what it found, exactly
    these when the depth is exhausted. *)
Theorem inputs_kept_or_result_empty (fuel : nat) (site : list nat)
    (q : string) (breadth depth : Z) (learnings visitedUrls : list string) :
  (forall r,
      deepResearch w q breadth depth learnings visitedUrls = Returned r ->
      if lives_fuel w (levels depth) [] q breadth depth learnings visitedUrls
      then incl learnings (Research.learnings r)
           /\ incl visitedUrls (Research.visitedUrls r)
      else r = emptyResult)
  /\ (forall r,
        deepResearch_fuel w (S fuel) site q breadth depth learnings visitedUrls
        = Returned r ->
        (if lives_fuel w (S fuel) site q breadth depth learnings visitedUrls
         then incl learnings (Research.learnings r)
              /\ incl visitedUrls (Research.visitedUrls r)
         else r = emptyResult)
        /\ forall serpQueries i serpQuery found newUrls,
             generateSerpQueries w site q breadth learnings
             = Returned serpQueries ->
             nth_error serpQueries i = Some serpQuery ->
             discoveries w (i :: site) serpQuery breadth
             = Some (found, newUrls) ->
             branch_lives w (lives_fuel w fuel) (i :: site) serpQuery
                          breadth depth learnings visitedUrls = true ->
             incl (sr_learnings found) (Research.learnings r)
             /\ incl newUrls (Research.visitedUrls r))
  /\ (forall i serpQuery r,
        branch w (deepResearch_fuel w fuel) (i :: site) serpQuery
               breadth depth learnings visitedUrls = Returned r ->
        match discoveries w (i :: site) serpQuery breadth with
        | None => r = emptyResult
        | Some (found, newUrls) =>
            if branch_lives w (lives_fuel w fuel) (i :: site) serpQuery
                            breadth depth learnings visitedUrls
            then incl (learnings ++ sr_learnings found) (Research.learnings r)
                 /\ incl (visitedUrls ++ newUrls) (Research.visitedUrls r)
                 /\ (JS.minus_one depth <= 0 ->
                     r = {| Research.learnings :=
                              learnings ++ sr_learnings found;
                            Research.visitedUrls := visitedUrls ++ newUrls |})
            else r = emptyResult
        end).
Proof.
  split; [|split].
  - intros r. apply call_carries.
  - intros r H. split; [apply (call_carries _ _ _ _ _ _ _ _ H)|].
    intros serpQueries i serpQuery found newUrls Hq Hn Hd Hlives.
    apply call_returned in H.
    destruct H as [fuel' [serpQueries' [results [[= <-] [Hq' [Hall ->]]]]]].
    assert (serpQueries' = serpQueries) by congruence. subst serpQueries'.
    destruct (branch_result_merged _ _ _ _ _ _ _ _ _ _ Hall Hn)
      as [rb [Hrb Hb]].
    apply (branch_carries _ _ (call_carries fuel)) in Hb.
    rewrite Hd, Hlives in Hb. destruct Hb as [Hl [Hu _]].
    destruct (merge_includes results rb Hrb) as [Ml Mu].
    split; intros x Hx; [apply Ml, Hl | apply Mu, Hu]; apply in_or_app;
      now right.
  - intros i serpQuery r. apply branch_carries. apply call_carries.
Qed.

(** ** Budgets *)

Lemma ceil_half_bounds (b : Z) :
  2 * JS.ceil_half b - 2 < b <= 2 * JS.ceil_half b.
Proof.
  rewrite JSFacts.ceil_half_div.
  assert (H := Z.div_mod (b + 1) 2 ltac:(lia)).
  assert (Hm := Z.mod_pos_bound (b + 1) 2 ltac:(lia)).
  lia.
Qed.

(** C8, amended. The child breadth is the ceiling of half the
    breadth, that is the one integer [c] with [c - 1 < breadth / 2 <=
    c], and is 1, 1, 2 and 4 for the breadths 1, 2, 3 and 7. The child
    depth is [depth - 1] exactly for a depth between [-2^53] and
    [2^53]. A branch whose retrieval and synthesis succeed recurses
    when the child depth is positive, with exactly these budgets, the
    next query made of its follow-up questions and the lists it was
    given followed by what it found, and returns these lists without
    recursing otherwise. A branch whose retrieval or synthesis does not
    succeed does not recurse, whatever the child depth. *)
Theorem child_budget_exact (site : list nat) (serpQuery : SerpQuery)
    (breadth depth : Z) (learnings visitedUrls : list string) :
  (2 * JS.ceil_half breadth - 2 < breadth <= 2 * JS.ceil_half breadth)
  /\ (JS.ceil_half 1 = 1 /\ JS.ceil_half 2 = 1
      /\ JS.ceil_half 3 = 2 /\ JS.ceil_half 7 = 4)
  /\ (- JS.MaxSafe < depth <= JS.MaxSafe -> JS.minus_one depth = depth - 1)
  /\ (forall found newUrls,
         discoveries w site serpQuery breadth = Some (found, newUrls) ->
         - JS.MaxSafe < depth <= JS.MaxSafe ->
         forall recur,
           branch w recur site serpQuery breadth depth learnings visitedUrls
           = if depth - 1 >? 0
             then recur site (nextQuery serpQuery (followUpQuestions found))
                        (JS.ceil_half breadth) (depth - 1)
                        (learnings ++ sr_learnings found)
                        (visitedUrls ++ newUrls)
             else Returned
                    {| Research.learnings := learnings ++ sr_learnings found;
                       Research.visitedUrls := visitedUrls ++ newUrls |})
  /\ (discoveries w site serpQuery breadth = None ->
      forall recur recur',
        branch w recur site serpQuery breadth depth learnings visitedUrls
        = branch w recur' site serpQuery breadth depth learnings visitedUrls
        /\ branch w recur site serpQuery breadth depth learnings visitedUrls
           <> Threw).
Proof.
  split; [apply ceil_half_bounds|].
  split; [repeat split; reflexivity|].
  split; [apply JSFacts.minus_one_safe|].
  split.
  - intros found newUrls Hd Hsafe recur.
    rewrite branch_of_try.
    assert (Hc := branch_try_cases site serpQuery breadth depth
                                   learnings visitedUrls).
    rewrite Hd in Hc. rewrite Hc.
    rewrite (JSFacts.minus_one_safe depth Hsafe).
    destruct (depth - 1 >? 0); reflexivity.
  - intros Hd recur recur'. rewrite !branch_of_try.
    assert (Hc := branch_try_cases site serpQuery breadth depth
                                   learnings visitedUrls).
    rewrite Hd in Hc.
    destruct Hc as [Hc|Hc]; rewrite Hc; split; (reflexivity || discriminate).
Qed.

(** ** Failures *)

(** An error of the retrieval or of the synthesis of a branch ends in
    the [catch] clause of that branch. *)
Lemma branch_absorbs
    (recur : list nat -> string -> Z -> Z -> list string -> list string
             -> outcome ResearchResult)
    (site : list nat) (serpQuery : SerpQuery)
    (breadth depth : Z) (learnings visitedUrls : list string) :
  branch_try w site serpQuery breadth depth learnings visitedUrls = Threw ->
  branch w recur site serpQuery breadth depth learnings visitedUrls
  = Returned emptyResult.
Proof. intros H. rewrite branch_of_try, H. reflexivity. Qed.

(** When the splitter cuts its text, trimming one content ends. *)
Lemma content_trim_settles (Hsplit : Budgeter.first_chunk_bounded (splitText w))
    (item : ContentItem) :
  Budgeter.trimPrompt (encode w) (splitText w) (content item) ContentBudget
  <> Unsettled.
Proof.
  apply (BudgeterFacts.fuel_enough (encode w) (splitText w) Hsplit). lia.
Qed.

Lemma trimmed_contents_settles
    (Hsplit : Budgeter.first_chunk_bounded (splitText w))
    (result : list ContentItem) :
  trimmed_contents w result <> Unsettled.
Proof.
  apply map_calls_settles. intros item _.
  apply (content_trim_settles Hsplit).
Qed.

(** A content the encoder refuses makes the trimming throw. *)
Lemma refused_content_throws
    (Hsplit : Budgeter.first_chunk_bounded (splitText w))
    (result : list ContentItem) (item : ContentItem) :
  In item result ->
  content item <> EmptyString ->
  encode w (content item) = None ->
  trimmed_contents w result = Threw.
Proof.
  intros Hin Hne Henc. apply map_calls_threw.
  - intros x _. apply (content_trim_settles Hsplit).
  - exists item. split; [exact Hin|].
    unfold Budgeter.trimPrompt, Budgeter.trimPrompt_fuel.
    destruct (BudgeterFacts.pass_cases (encode w) (splitText w)
                (content item) ContentBudget)
      as [[E _]|[[_ [_ ->]]|[length [_ [Ht _]]]]].
    + congruence.
    + reflexivity.
    + apply (proj2 (BudgeterFacts.tokens_refused (encode w) (content item)))
        in Henc. congruence.
Qed.

(** An error of the synthesis call of a branch, or a retrieved content
    that the encoder refuses, ends the branch in its [catch] clause:
    it returns the empty result, without what it was given, and makes
    no nested call. The splitter is assumed to cut its text
    ([first_chunk_bounded]). *)
Theorem failed_synthesis_empties_branch
    (recur : list nat -> string -> Z -> Z -> list string -> list string
             -> outcome ResearchResult)
    (site : list nat) (serpQuery : SerpQuery)
    (breadth depth : Z) (learnings visitedUrls : list string)
    (result : list ContentItem) :
  Budgeter.first_chunk_bounded (splitText w) ->
  crawlWebsite w site (query serpQuery) = Returned (Items result) ->
  (exists item,
      In item result /\ content item <> EmptyString
      /\ encode w (content item) = None)
  \/ (exists contents,
         trimmed_contents w result = Returned contents
         /\ synth_call w site (query serpQuery) contents
                       DefaultNumLearnings (JS.ceil_half breadth) = Threw) ->
  branch w recur site serpQuery breadth depth learnings visitedUrls
  = Returned emptyResult
  /\ discoveries w site serpQuery breadth = None.
Proof.
  intros Hsplit Hcrawl Hfail.
  assert (Hp : processSerpResult w site (query serpQuery) result
                 DefaultNumLearnings (JS.ceil_half breadth) = Threw).
  { unfold processSerpResult.
    destruct Hfail as [[item [Hin [Hne Henc]]]|[contents [Ht Hs]]].
    - now rewrite (refused_content_throws Hsplit result item Hin Hne Henc).
    - rewrite Ht. simpl. now rewrite Hs. }
  split.
  - apply branch_absorbs. unfold branch_try. rewrite Hcrawl. simpl.
    now rewrite Hp.
  - unfold discoveries. now rewrite Hcrawl, Hp.
Qed.

(** A rejection of the nested call is the rejection of the branch. *)
Lemma branch_passes_rejection
    (recur : list nat -> string -> Z -> Z -> list string -> list string
             -> outcome ResearchResult)
    (site : list nat) (serpQuery : SerpQuery)
    (breadth depth : Z) (learnings visitedUrls : list string) :
  branch w recur site serpQuery breadth depth learnings visitedUrls = Threw ->
  exists next newBreadth newDepth allLearnings allUrls,
    branch_try w site serpQuery breadth depth learnings visitedUrls
    = Returned (Deeper next newBreadth newDepth allLearnings allUrls)
    /\ recur site next newBreadth newDepth allLearnings allUrls = Threw.
Proof.
  rewrite branch_of_try.
  destruct (branch_try w site serpQuery breadth depth learnings visitedUrls)
    as [[r|next nb nd al au]| |]; try discriminate.
  intros H. eexists _, _, _, _, _. eauto.
Qed.

(** The calls of a nested call are calls of the branch that made
    it. *)
Lemma nested_calls_in_branch
    (recur_calls : list nat -> string -> Z -> Z -> list string -> list string
                   -> list call)
    (site : list nat) (serpQuery : SerpQuery)
    (breadth depth : Z) (learnings visitedUrls : list string)
    (next : string) (newBreadth newDepth : Z)
    (allLearnings allUrls : list string) (c : call) :
  branch_try w site serpQuery breadth depth learnings visitedUrls
  = Returned (Deeper next newBreadth newDepth allLearnings allUrls) ->
  In c (recur_calls site next newBreadth newDepth allLearnings allUrls) ->
  In c (branch_calls w recur_calls site serpQuery breadth depth
                     learnings visitedUrls).
Proof.
  intros Ht Hc. unfold branch_calls.
  destruct (branch_try_returned _ _ _ _ _ _ _ Ht)
    as [result [contents [res [-> [-> _]]]]].
  rewrite Ht. right. right. exact Hc.
Qed.

(** The calls of a branch are calls of the call that planned it. *)
Lemma branch_calls_in_call (fuel : nat) (site : list nat) (q : string)
    (breadth depth : Z) (learnings visitedUrls : list string)
    (serpQueries : list SerpQuery) (i : nat) (serpQuery : SerpQuery)
    (c : call) :
  generateSerpQueries w site q breadth learnings = Returned serpQueries ->
  nth_error serpQueries i = Some serpQuery ->
  In c (branch_calls w (calls_fuel w fuel) (i :: site) serpQuery
                     breadth depth learnings visitedUrls) ->
  In c (calls_fuel w (S fuel) site q breadth depth learnings visitedUrls).
Proof.
  intros Hq Hn Hc. cbn [calls_fuel]. rewrite Hq. right.
  apply in_concat. eexists. split; [|exact Hc].
  apply (JSFacts.mapi_nth
           (fun i serpQuery =>
              branch_calls w (calls_fuel w fuel) (i :: site) serpQuery
                           breadth depth learnings visitedUrls) _ _ _ Hn).
Qed.

(** A call rejects only when one of its planning calls rejected: its
    own, or that of a call nested in it. *)
Lemma rejection_in_run (fuel : nat) :
  forall site q breadth depth learnings visitedUrls,
    deepResearch_fuel w fuel site q breadth depth learnings visitedUrls = Threw ->
    Accounting.planning_rejected w
      (calls_fuel w fuel site q breadth depth learnings visitedUrls).
Proof.
  induction fuel as [|fuel IH];
    intros site q breadth depth learnings visitedUrls; [discriminate|].
  cbn [deepResearch_fuel].
  destruct (generateSerpQueries w site q breadth learnings)
    as [serpQueries| |] eqn:Eq; simpl; [| |discriminate].
  - match goal with
    | |- context [Promise_all ?l] => destruct (Promise_all l) as [rs| |] eqn:Ea
    end; simpl; try discriminate.
    intros _. apply Promise_all_threw_inv in Ea.
    apply JSFacts.mapi_In in Ea. destruct Ea as [j [sq [Hn Hb]]].
    symmetry in Hb. apply branch_passes_rejection in Hb.
    destruct Hb as [next [nb [nd [al [au [Ht Hrec]]]]]].
    apply IH in Hrec.
    destruct Hrec as [site' [q' [n' [l' [Hin Hthrew]]]]].
    exists site', q', n', l'. split; [|exact Hthrew].
    apply (branch_calls_in_call fuel site q breadth depth learnings
             visitedUrls serpQueries j sq _ Eq Hn).
    apply (nested_calls_in_branch _ _ _ _ _ _ _ _ _ _ _ _ _ Ht Hin).
  - intros _. exists site, q, breadth, learnings. split; [now left|].
    unfold generateSerpQueries in Eq.
    destruct (plan_call w site q breadth learnings); simpl in Eq;
      congruence.
Qed.

Lemma rejection_comes_from_planning (fuel : nat) :
  forall site q breadth depth learnings visitedUrls,
    deepResearch_fuel w fuel site q breadth depth learnings visitedUrls = Threw ->
    exists site' q' numQueries learnings',
      plan_call w site' q' numQueries learnings' = Threw.
Proof.
  intros site q breadth depth learnings visitedUrls H.
  destruct (rejection_in_run _ _ _ _ _ _ _ H)
    as [site' [q' [n' [l' [_ Hthrew]]]]].
  eauto.
Qed.

(** ** Bounds on what the model calls return *)

(** The planner's list is cut to [numQueries]. *)
Lemma generateSerpQueries_bounded (site : list nat) (q : string)
    (numQueries : Z) (learnings : list string) (serpQueries : list SerpQuery) :
  0 <= numQueries ->
  generateSerpQueries w site q numQueries learnings = Returned serpQueries ->
  Z.of_nat (List.length serpQueries) <= numQueries.
Proof.
  intros Hn H. apply bind_returned in H. destruct H as [queries [_ H]].
  injection H as <-. unfold JS.arr_slice0.
  destruct (Z.ltb_spec numQueries 0); [lia|].
  rewrite length_firstn. lia.
Qed.

(** The learnings of the synthesis are handed on as they are. *)
Lemma processSerpResult_learnings (site : list nat) (q : string)
    (result : list ContentItem) (numLearnings numFollowUpQuestions : Z)
    (s : SynthesisResult) :
  processSerpResult w site q result numLearnings numFollowUpQuestions
  = Returned s ->
  exists contents res,
    trimmed_contents w result = Returned contents
    /\ synth_call w site q contents numLearnings numFollowUpQuestions
       = Returned res
    /\ sr_learnings s = syn_learnings res.
Proof.
  intros H. apply bind_returned in H. destruct H as [contents [Ht H]].
  apply bind_returned in H. destruct H as [res [Hres H]].
  injection H as <-. eauto.
Qed.

(** ** Termination *)

Lemma processSerpResult_settles (Hw : world_settles w)
    (site : list nat) (q : string) (result : list ContentItem)
    (numLearnings numFollowUpQuestions : Z) :
  processSerpResult w site q result numLearnings numFollowUpQuestions
  <> Unsettled.
Proof.
  destruct Hw as [_ [Hsynth [_ Hsplit]]]. unfold processSerpResult.
  assert (Ht := trimmed_contents_settles Hsplit result).
  destruct (trimmed_contents w result) as [contents| |]; simpl;
    try congruence.
  specialize (Hsynth site q contents numLearnings numFollowUpQuestions).
  destruct (synth_call w site q contents numLearnings numFollowUpQuestions);
    simpl; congruence.
Qed.

Lemma crawlWebsite_settles (Hw : world_settles w)
    (site : list nat) (q : string) :
  crawlWebsite w site q <> Unsettled.
Proof.
  destruct Hw as [_ [_ [Hexec _]]]. unfold crawlWebsite, crawl_result.
  specialize (Hexec site (crawl_command q)).
  destruct (execAsync w site (crawl_command q)) as [|stdout|];
    [discriminate| |congruence].
  destruct (JSON_parse w stdout); discriminate.
Qed.

Lemma branch_try_settles (Hw : world_settles w)
    (site : list nat) (serpQuery : SerpQuery)
    (breadth depth : Z) (learnings visitedUrls : list string) :
  branch_try w site serpQuery breadth depth learnings visitedUrls <> Unsettled.
Proof.
  unfold branch_try.
  assert (Hcrawl := crawlWebsite_settles Hw site (query serpQuery)).
  destruct (crawlWebsite w site (query serpQuery)) as [[result|]| |];
    simpl; try congruence.
  assert (H := processSerpResult_settles Hw site (query serpQuery) result
                 DefaultNumLearnings (JS.ceil_half breadth)).
  destruct (processSerpResult w site (query serpQuery) result
              DefaultNumLearnings (JS.ceil_half breadth)); simpl;
    try congruence.
  destruct (JS.minus_one depth >? 0); discriminate.
Qed.

Lemma Promise_all_settles {A} (ps : list (outcome A)) :
  (forall p, In p ps -> p <> Unsettled) -> Promise_all ps <> Unsettled.
Proof.
  intros H. unfold Promise_all.
  destruct (threw_any ps) eqn:Et; [discriminate|].
  assert (Hf : exists l, fulfilled ps = Some l).
  { induction ps as [|p ps IH]; simpl in *; [eauto|].
    assert (Hp := H p (or_introl eq_refl)).
    destruct p; try congruence.
    destruct IH as [l ->]; eauto. }
  destruct Hf as [l ->]. discriminate.
Qed.

Lemma deepResearch_fuel_settles (Hw : world_settles w) (fuel : nat) :
  forall site q breadth depth learnings visitedUrls,
    depth <= JS.MaxSafe ->
    (Z.to_nat (depth - 1) < fuel)%nat ->
    deepResearch_fuel w fuel site q breadth depth learnings visitedUrls
    <> Unsettled.
Proof.
  induction fuel as [|fuel IH];
    intros site q breadth depth learnings visitedUrls Hsafe Hfuel; [lia|].
  simpl. unfold generateSerpQueries.
  assert (Hp := proj1 Hw site q breadth learnings).
  destruct (plan_call w site q breadth learnings) as [queries| |];
    simpl; try congruence.
  match goal with
  | |- context [Promise_all ?l] =>
      assert (Ha : Promise_all l <> Unsettled);
      [apply Promise_all_settles | destruct (Promise_all l); simpl; congruence]
  end.
  intros p Hin. apply JSFacts.mapi_In in Hin.
  destruct Hin as [j [sq [_ ->]]].
  rewrite branch_of_try.
  assert (Hs := branch_try_settles Hw (j :: site) sq breadth depth
                                   learnings visitedUrls).
  by_discoveries (j :: site) sq breadth depth learnings visitedUrls.
  - rewrite Hc.
    destruct (Z.gtb_spec (JS.minus_one depth) 0) as [Hpos|Hnon].
    + assert (E := JSFacts.minus_one_positive depth Hsafe Hpos).
      apply IH; lia.
    + discriminate.
  - destruct Hc as [Hc|Hc]; rewrite Hc in *; [discriminate | congruence].
Qed.

(** For every breadth and every depth up to [2^53], [deepResearch]
    comes to an end when the world answers (the model calls settle, the
    crawler process ends, the splitter cuts its text): it returns a
    result, or rejects because a planning call of the run did. *)
Theorem deepResearch_terminates (Hw : world_settles w)
    (q : string) (breadth depth : Z) (learnings visitedUrls : list string) :
  depth <= JS.MaxSafe ->
  (exists r,
      deepResearch w q breadth depth learnings visitedUrls = Returned r)
  \/ (deepResearch w q breadth depth learnings visitedUrls = Threw
      /\ Accounting.planning_rejected w
           (calls w q breadth depth learnings visitedUrls)).
Proof.
  intros Hsafe.
  assert (H := deepResearch_fuel_settles Hw (levels depth) [] q breadth depth
                 learnings visitedUrls Hsafe ltac:(unfold levels; lia)).
  unfold deepResearch, calls.
  destruct (deepResearch_fuel w (levels depth) [] q breadth depth
              learnings visitedUrls) as [r| |] eqn:E.
  - left. eauto.
  - right. split; [reflexivity|].
    apply (rejection_in_run _ _ _ _ _ _ _ E).
  - congruence.
Qed.

(** ** Scenarios *)

(** The lists a call returns hold no entry twice. *)
Theorem merged_result_has_no_duplicates (fuel : nat) (site : list nat)
    (q : string) (breadth depth : Z) (learnings visitedUrls : list string)
    (r : ResearchResult) :
  deepResearch_fuel w fuel site q breadth depth learnings visitedUrls
  = Returned r ->
  NoDup (Research.learnings r) /\ NoDup (Research.visitedUrls r).
Proof.
  intros H. apply call_returned in H.
  destruct H as [fuel' [serpQueries [results [_ [_ [_ ->]]]]]].
  split; apply JSFacts.set_from_NoDup.
Qed.

(** A planner that returns no query ends the call with the empty
    result. *)
Theorem no_queries_empty_result (q : string) (breadth depth : Z)
    (learnings visitedUrls : list string) :
  generateSerpQueries w [] q breadth learnings = Returned [] ->
  deepResearch w q breadth depth learnings visitedUrls = Returned emptyResult.
Proof.
  intros H. unfold deepResearch, levels. simpl. rewrite H. reflexivity.
Qed.

(** With a depth of at most one no branch makes a nested call: what a
    branch returns does not depend on what a nested call would do. *)
Theorem depth_exhausted_no_nested_call
    (recur recur' : list nat -> string -> Z -> Z -> list string -> list string
                    -> outcome ResearchResult)
    (site : list nat) (serpQuery : SerpQuery)
    (breadth depth : Z) (learnings visitedUrls : list string) :
  depth <= 1 ->
  branch w recur site serpQuery breadth depth learnings visitedUrls
  = branch w recur' site serpQuery breadth depth learnings visitedUrls.
Proof.
  intros Hd. rewrite !branch_of_try.
  assert (Hn := JSFacts.minus_one_nonpos depth Hd).
  by_discoveries site serpQuery breadth depth learnings visitedUrls.
  - rewrite Hc. destruct (Z.gtb_spec (JS.minus_one depth) 0);
      [lia | reflexivity].
  - destruct Hc as [Hc|Hc]; rewrite Hc; reflexivity.
Qed.

End World.

End ResearchFacts.

(* ================================================================== *)
(** * The orchestrator on the sample worlds *)

Module ResearchSamples.

Import Research Samples.

Lemma sample_worlds_settle :
  world_settles silent_world /\ world_settles eager_world
  /\ world_settles flaky_world /\ world_settles lossy_world.
Proof.
  repeat split; try (intros; simpl; discriminate);
    try exact BudgeterSamples.raw_split_bounded.
  - intros site; intros. simpl. destruct site as [|[|?] [|? ?]]; discriminate.
  - intros site; intros. simpl. destruct site as [|[|?] [|? ?]]; discriminate.
Qed.

(** C1 as stated fails when the planner returns no query and when a
    branch fails: what was given is not in what comes back. *)
Lemma given_learnings_dropped :
  (generateSerpQueries silent_world [] "topic" 2 ["known"] = Returned []
   /\ deepResearch silent_world "topic" 2 1 ["known"] ["seen"]
      = Returned emptyResult)
  /\ (branch_try lossy_world [O] query_a 2 2 ["known"] ["seen"] = Threw
      /\ branch lossy_world (deepResearch_fuel lossy_world 1) [O] query_a
                2 2 ["known"] ["seen"]
         = Returned emptyResult)
  /\ ~ In "known" (learnings emptyResult)
  /\ ~ In "seen" (visitedUrls emptyResult).
Proof.
  repeat split; try (vm_compute; reflexivity); simpl; tauto.
Qed.

(** In a world where every step succeeds the branches of a call of
    depth two live, and the result keeps what was given. *)
Lemma inputs_kept_witness :
  deepResearch eager_world "topic" 3 2 ["known"] ["seen"]
  = Returned {| learnings := ["known"; "fact"]; visitedUrls := ["seen"] |}
  /\ lives_fuel eager_world (levels 2) [] "topic" 3 2 ["known"] ["seen"] = true
  /\ incl ["known"] ["known"; "fact"]
  /\ incl ["seen"] ["seen"].
Proof.
  assert (E : deepResearch eager_world "topic" 3 2 ["known"] ["seen"]
              = Returned {| learnings := ["known"; "fact"];
                            visitedUrls := ["seen"] |})
    by (vm_compute; reflexivity).
  assert (L : lives_fuel eager_world (levels 2) [] "topic" 3 2
                         ["known"] ["seen"] = true)
    by (vm_compute; reflexivity).
  assert (H := proj1 (ResearchFacts.inputs_kept_or_result_empty eager_world
                        O [] "topic" 3 2 ["known"] ["seen"]) _ E).
  rewrite L in H.
  exact (conj E (conj L H)).
Defined.

(** C3 on a synthesis call that yields four learnings when three were
    asked for: all four come back, where [generateSerpQueries] would
    have cut its list. *)
Theorem processSerpResult_exceeds_numLearnings :
  processSerpResult chatty_world [] "q" [] 3 3
  = Returned {| sr_learnings := ["one"; "two"; "three"; "four"];
                followUpQuestions := [] |}
  /\ (exists r,
         deepResearch chatty_world "topic" 1 1 [] [] = Returned r
         /\ DefaultNumLearnings < Z.of_nat (List.length (learnings r))).
Proof.
  split; [vm_compute; reflexivity|].
  eexists. split; [vm_compute; reflexivity|]. vm_compute. reflexivity.
Qed.

(** C8 as stated fails twice. A branch whose synthesis throws does not
    recurse although its child depth is positive: whatever the nested
    call would do, the branch returns the empty result. And a depth
    above [2^53] has a child depth that is not [depth - 1]: at
    [2^53 + 4] the subtraction is rounded back to the depth, and the
    nested call is given the depth of its caller. *)
Lemma child_budget_not_always :
  ((JS.minus_one 2 >? 0) = true
   /\ forall recur,
        branch lossy_world recur [O] query_a 2 2 [] []
        = Returned emptyResult)
  /\ (JS.minus_one (2 ^ 53 + 4) = 2 ^ 53 + 4
      /\ JS.minus_one (2 ^ 53 + 4) <> 2 ^ 53 + 4 - 1
      /\ forall recur,
           branch eager_world recur [O] query_a 3 (2 ^ 53 + 4) [] []
           = recur [O] (nextQuery query_a []) 2 (2 ^ 53 + 4) ["fact"] []).
Proof.
  split; [split|split; [|split]].
  - vm_compute. reflexivity.
  - intros recur. vm_compute. reflexivity.
  - vm_compute. reflexivity.
  - vm_compute. discriminate.
  - intros recur. rewrite ResearchFacts.branch_of_try.
    assert (E : branch_try eager_world [O] query_a 3 (2 ^ 53 + 4) [] []
                = Returned (Deeper (nextQuery query_a []) 2 (2 ^ 53 + 4)
                                   ["fact"] []))
      by (vm_compute; reflexivity).
    rewrite E. reflexivity.
Qed.

(** A branch of breadth 3 and depth 2 whose steps succeed hands over
    to a nested call of breadth 2 and depth 1. *)
Lemma child_budget_exact_witness :
  discoveries eager_world [O] query_a 3
  = Some ({| sr_learnings := ["fact"]; followUpQuestions := [] |}, [])
  /\ - JS.MaxSafe < 2 <= JS.MaxSafe
  /\ branch eager_world (deepResearch_fuel eager_world 1) [O] query_a
            3 2 ["known"] ["seen"]
     = deepResearch_fuel eager_world 1 [O] (nextQuery query_a [])
                         2 1 ["known"; "fact"] ["seen"].
Proof.
  assert (Hd : discoveries eager_world [O] query_a 3
               = Some ({| sr_learnings := ["fact"]; followUpQuestions := [] |},
                       []))
    by (vm_compute; reflexivity).
  assert (Hs : - JS.MaxSafe < 2 <= JS.MaxSafe) by (vm_compute; split; congruence).
  exact (conj Hd (conj Hs
           (proj1 (proj2 (proj2 (proj2
              (ResearchFacts.child_budget_exact eager_world [O] query_a
                 3 2 ["known"] ["seen"]))))
              _ _ Hd Hs (deepResearch_fuel eager_world 1)))).
Defined.

(** An error of the synthesis of one branch leaves the learnings of
    its sibling in the result. *)
Lemma failed_synthesis_absorbed :
  branch_try lossy_world [O] query_a 2 1 [] [] = Threw
  /\ deepResearch lossy_world "topic" 2 1 [] []
     = Returned {| learnings := ["fact"]; visitedUrls := [] |}.
Proof. split; vm_compute; reflexivity. Qed.

(** A crawler process that hangs keeps its branch, and with it the
    call, from ever settling: [exec] is given no timeout. *)
Lemma hanging_crawler_never_settles :
  crawlWebsite hanging_world [O] "a" = Unsettled
  /\ branch hanging_world (deepResearch_fuel hanging_world 0) [O] query_a
            2 1 [] []
     = Unsettled
  /\ deepResearch hanging_world "topic" 2 1 [] [] = Unsettled.
Proof. repeat split; vm_compute; reflexivity. Qed.

(** C9 on a run of breadth 2 and depth 2 in which planning succeeds
    for the call itself and fails for the call nested in its first
    branch: that branch is rejected instead of returning the empty
    result, and the call is rejected with it, although its second
    branch returns a learning. *)
Theorem nested_planning_failure_rejects_call :
  generateSerpQueries flaky_world [] "topic" 2 [] = Returned [query_a; query_b]
  /\ generateSerpQueries flaky_world [O] (nextQuery query_a []) 1 ["fact"]
     = Threw
  /\ branch flaky_world (deepResearch_fuel flaky_world 1) [O] query_a
            2 2 [] []
     = Threw
  /\ branch flaky_world (deepResearch_fuel flaky_world 1) [1%nat] query_b
            2 2 [] []
     = Returned {| learnings := ["fact"]; visitedUrls := [] |}
  /\ deepResearch flaky_world "topic" 2 2 [] [] = Threw.
Proof. repeat split; vm_compute; reflexivity. Qed.

(** In the world whose nested planning fails the run ends by the
    rejection of that planning call. *)
Lemma deepResearch_terminates_witness :
  world_settles flaky_world
  /\ 2 <= JS.MaxSafe
  /\ deepResearch flaky_world "topic" 2 2 [] [] = Threw
  /\ ((exists r, deepResearch flaky_world "topic" 2 2 [] [] = Returned r)
      \/ (deepResearch flaky_world "topic" 2 2 [] [] = Threw
          /\ Accounting.planning_rejected flaky_world
               (calls flaky_world "topic" 2 2 [] []))).
Proof.
  assert (Hs : 2 <= JS.MaxSafe) by (vm_compute; congruence).
  assert (E : deepResearch flaky_world "topic" 2 2 [] [] = Threw)
    by (vm_compute; reflexivity).
  exact (conj (proj1 (proj2 (proj2 sample_worlds_settle)))
           (conj Hs (conj E
              (ResearchFacts.deepResearch_terminates flaky_world
                 (proj1 (proj2 (proj2 sample_worlds_settle)))
                 "topic" 2 2 [] [] Hs)))).
Defined.

Lemma merged_result_has_no_duplicates_witness :
  deepResearch eager_world "topic" 3 2 ["known"] ["seen"]
  = Returned {| learnings := ["known"; "fact"]; visitedUrls := ["seen"] |}
  /\ NoDup ["known"; "fact"] /\ NoDup ["seen"].
Proof.
  assert (E : deepResearch eager_world "topic" 3 2 ["known"] ["seen"]
              = Returned {| learnings := ["known"; "fact"];
                            visitedUrls := ["seen"] |})
    by (vm_compute; reflexivity).
  exact (conj E
           (ResearchFacts.merged_result_has_no_duplicates eager_world
              (levels 2) [] "topic" 3 2 ["known"] ["seen"] _ E)).
Defined.

Lemma no_queries_empty_result_witness :
  generateSerpQueries silent_world [] "topic" 2 ["known"] = Returned []
  /\ deepResearch silent_world "topic" 2 3 ["known"] ["seen"]
     = Returned emptyResult.
Proof.
  exact (conj eq_refl
           (ResearchFacts.no_queries_empty_result silent_world
              "topic" 2 3 ["known"] ["seen"] eq_refl)).
Defined.

Lemma generateSerpQueries_bounded_witness :
  0 <= 2
  /\ generateSerpQueries eager_world [] "topic" 2 [] = Returned [query_a; query_b]
  /\ Z.of_nat (List.length [query_a; query_b]) <= 2.
Proof.
  assert (H0 : 0 <= 2) by lia.
  exact (conj H0 (conj eq_refl
           (ResearchFacts.generateSerpQueries_bounded eager_world
              [] "topic" 2 [] [query_a; query_b] H0 eq_refl))).
Defined.

Lemma depth_exhausted_no_nested_call_witness :
  1 <= 1
  /\ branch eager_world (fun _ _ _ _ _ _ => Threw) [O] query_a 3 1 [] []
     = branch eager_world (deepResearch_fuel eager_world 1) [O] query_a
              3 1 [] [].
Proof.
  assert (H1 : 1 <= 1) by lia.
  exact (conj H1
           (ResearchFacts.depth_exhausted_no_nested_call eager_world
              (fun _ _ _ _ _ _ => Threw) (deepResearch_fuel eager_world 1)
              [O] query_a 3 1 [] [] H1)).
Defined.

(** The synthesis call of the first branch throws: the branch returns
    the empty result, without what it was given. *)
Lemma failed_synthesis_empties_branch_witness :
  Budgeter.first_chunk_bounded (splitText lossy_world)
  /\ crawlWebsite lossy_world [O] (query query_a) = Returned (Items [])
  /\ trimmed_contents lossy_world [] = Returned []
  /\ synth_call lossy_world [O] (query query_a) []
                DefaultNumLearnings (JS.ceil_half 2) = Threw
  /\ branch lossy_world (deepResearch_fuel lossy_world 1) [O] query_a
            2 2 ["known"] ["seen"]
     = Returned emptyResult.
Proof.
  assert (Hc : crawlWebsite lossy_world [O] (query query_a)
               = Returned (Items [])) by reflexivity.
  assert (Ht : trimmed_contents lossy_world [] = Returned []) by reflexivity.
  assert (Hs : synth_call lossy_world [O] (query query_a) []
                          DefaultNumLearnings (JS.ceil_half 2) = Threw)
    by reflexivity.
  exact (conj BudgeterSamples.raw_split_bounded
           (conj Hc (conj Ht (conj Hs
              (proj1
                 (ResearchFacts.failed_synthesis_empties_branch lossy_world
                    (deepResearch_fuel lossy_world 1) [O] query_a 2 2
                    ["known"] ["seen"] []
                    BudgeterSamples.raw_split_bounded Hc
                    (or_intror (ex_intro _ [] (conj Ht Hs))))))))).
Defined.

End ResearchSamples.

(* ================================================================== *)
(** * The command line of the crawler *)

Module ShellFacts.

Import Shell Research Samples.









End ShellFacts.

(* ================================================================== *)
(** * The limiters *)

Module LimiterFacts.

Import Limiter Samples.

Lemma activeCount_cons (t : task) (ts : list task) :
  activeCount (t :: ts) = ((if active t then 1 else 0) + activeCount ts)%nat.
Proof. unfold activeCount. simpl. destruct (active t); reflexivity. Qed.

Lemma activeCount_replace (ts : list task) :
  forall i t t',
    nth_error ts i = Some t ->
    (activeCount (replace_nth i t' ts) + (if active t then 1 else 0)
     = activeCount ts + (if active t' then 1 else 0))%nat.
Proof.
  induction ts as [|x ts IH]; intros [|i] t t' H; simpl in H; try discriminate.
  - injection H as ->. simpl. rewrite !activeCount_cons. lia.
  - simpl. rewrite !activeCount_cons. specialize (IH i t t' H). lia.
Qed.

Lemma forallb_replace {A} (f : A -> bool) (ts : list A) :
  forall i t',
    forallb f ts = true -> f t' = true ->
    forallb f (replace_nth i t' ts) = true.
Proof.
  induction ts as [|x ts IH]; intros [|i] t' H Ht'; simpl in *; auto;
    apply andb_prop in H; destruct H as [Hx H]; apply andb_true_intro; auto.
Qed.

Lemma forallb_nth {A} (f : A -> bool) (ts : list A) (i : nat) (t : A) :
  forallb f ts = true -> nth_error ts i = Some t -> f t = true.
Proof.
  intros H Hn. apply nth_error_In in Hn.
  rewrite forallb_forall in H. auto.
Qed.

Lemma queued_inactive (ps : list plan) : activeCount (map Queued ps) = O.
Proof.
  induction ps as [|p ps IH]; [reflexivity|].
  simpl. rewrite activeCount_cons. simpl. exact IH.
Qed.

Lemma queued_within (ps : list plan) :
  forallb within_limit (map Queued ps) = true.
Proof. induction ps; simpl; auto. Qed.

Lemma queued_ok (ps : list plan) : limiters_ok (map Queued ps) = true.
Proof.
  unfold limiters_ok. rewrite queued_inactive, queued_within. reflexivity.
Qed.

(** What one task does keeps the limiters under it within capacity,
    and makes it active only by taking a free slot. *)
Lemma act_ok (may_start : bool) (t t' : task) :
  within_limit t = true ->
  act may_start t = Some t' ->
  within_limit t' = true
  /\ (active t' = true -> active t = true \/ may_start = true).
Proof.
  intros Hw H. destruct t as [p|[| |ps]|nested| | |nested]; simpl in H;
    try discriminate.
  - destruct may_start; [|discriminate]. injection H as <-. simpl. auto.
  - injection H as <-. simpl. split; [reflexivity | discriminate].
  - injection H as <-. simpl. split; [reflexivity | discriminate].
  - injection H as <-. split; [|auto].
    simpl. rewrite queued_inactive, queued_within. reflexivity.
  - destruct (existsb has_rejected nested).
    + injection H as <-. split; [exact Hw | discriminate].
    + destruct (forallb has_fulfilled nested); [|discriminate].
      injection H as <-. simpl. split; [reflexivity | discriminate].
Qed.

Lemma fire_ok (addr : list nat) :
  forall ts ts',
    limiters_ok ts = true -> fire addr ts = Some ts' -> limiters_ok ts' = true.
Proof.
  induction addr as [|i deeper IH]; intros ts ts' Hok H; simpl in H;
    [discriminate|].
  destruct (nth_error ts i) as [t|] eqn:Hn; [|discriminate].
  unfold limiters_ok in Hok. apply andb_prop in Hok.
  destruct Hok as [Hcount Hall]. apply Nat.leb_le in Hcount.
  assert (Ht := forallb_nth _ _ _ _ Hall Hn).
  destruct deeper as [|j deeper].
  - match type of H with
    | context [act ?m t] => destruct (act m t) as [t'|] eqn:Ha; [|discriminate];
                            set (may := m) in *
    end.
    injection H as <-.
    destruct (act_ok _ _ _ Ht Ha) as [Ht' Hactive].
    assert (Hc := activeCount_replace ts i t t' Hn).
    unfold limiters_ok. apply andb_true_intro. split.
    + apply Nat.leb_le.
      destruct (active t') eqn:Et'; [|destruct (active t); lia].
      destruct (Hactive eq_refl) as [Et|Em]; [rewrite Et in Hc; lia|].
      unfold may in Em. apply andb_prop in Em. destruct Em as [Em _].
      apply Nat.ltb_lt in Em. destruct (active t); lia.
    + now apply forallb_replace.
  - destruct t as [| |nested| | |nested]; try discriminate.
    + destruct (fire (j :: deeper) nested) as [nested'|] eqn:Hf;
        [|discriminate].
      injection H as <-.
      assert (Hnested : limiters_ok nested' = true).
      { apply (IH nested nested'); [exact Ht | exact Hf]. }
      assert (Hc := activeCount_replace ts i (Awaiting nested)
                                        (Awaiting nested') Hn).
      unfold limiters_ok. apply andb_true_intro. split.
      * apply Nat.leb_le. simpl in Hc. lia.
      * apply forallb_replace; [assumption | exact Hnested].
    + destruct (fire (j :: deeper) nested) as [nested'|] eqn:Hf;
        [|discriminate].
      injection H as <-.
      assert (Hnested : limiters_ok nested' = true).
      { apply (IH nested nested'); [exact Ht | exact Hf]. }
      assert (Hc := activeCount_replace ts i (Detached nested)
                                        (Detached nested') Hn).
      unfold limiters_ok. apply andb_true_intro. split.
      * apply Nat.leb_le. simpl in Hc. lia.
      * apply forallb_replace; [assumption | exact Hnested].
Qed.

Lemma run_ok (events : list (list nat)) :
  forall ts ts',
    limiters_ok ts = true -> run events ts = Some ts' -> limiters_ok ts' = true.
Proof.
  induction events as [|e events IH]; intros ts ts' Hok H; simpl in H.
  - now injection H as <-.
  - destruct (fire e ts) as [ts1|] eqn:Hf; [|discriminate].
    apply (IH ts1 ts'); [|exact H]. apply (fire_ok e ts ts1 Hok Hf).
Qed.

(** C2, amended. However a run of [deepResearch] proceeds, each of
    its limiters is within its capacity: at most [ConcurrencyLimit] of
    the branch tasks of one call are in flight at any instant, at the
    top and in every nested call. *)
Theorem each_limiter_within_capacity (w : Research.World) (q : string)
    (breadth depth : Z) (learnings visitedUrls : list string)
    (events : list (list nat)) (ts : list task) :
  run events (initial w q breadth depth learnings visitedUrls) = Some ts ->
  (activeCount ts <= Research.ConcurrencyLimit)%nat
  /\ limiters_ok ts = true.
Proof.
  intros H.
  assert (Hok : limiters_ok ts = true).
  { apply (run_ok events _ ts (queued_ok _) H). }
  split; [|exact Hok].
  unfold limiters_ok in Hok. apply andb_prop in Hok.
  now apply Nat.leb_le.
Qed.

(** C2 as stated fails on a run of breadth 3 and depth 2: two tasks
    of the top-level call are waiting for their nested calls, each of
    which has two tasks of its own retrieving or synthesising, while
    the third task of the top-level call is still queued. Six tasks are
    in flight, four of them at work, under three limiters. *)
Lemma more_than_two_in_flight :
  run crowded_events (initial eager_world "topic" 3 2 [] [])
  = Some crowded_state
  /\ in_flight_all crowded_state = 6%nat
  /\ busy_all crowded_state = 4%nat
  /\ (Research.ConcurrencyLimit < busy_all crowded_state)%nat
  /\ S (list_sum (map limiters crowded_state)) = 3%nat.
Proof. repeat split; vm_compute; try reflexivity; lia. Qed.

Lemma each_limiter_within_capacity_witness :
  run crowded_events (initial eager_world "topic" 3 2 [] [])
  = Some crowded_state
  /\ (activeCount crowded_state <= Research.ConcurrencyLimit)%nat
  /\ limiters_ok crowded_state = true.
Proof.
  assert (E : run crowded_events (initial eager_world "topic" 3 2 [] [])
              = Some crowded_state) by (vm_compute; reflexivity).
  exact (conj E
           (each_limiter_within_capacity eager_world "topic" 3 2 [] []
              crowded_events crowded_state E)).
Defined.

End LimiterFacts.

(* ================================================================== *)
(** * More on the Text Budgeter *)

Module BudgeterMore.

Import Async Budgeter.

Section Trim.

Variable encode : string -> option (list N).
Variable splitText : Z -> string -> list string.

Lemma fuel_not_longer (Hsplit : first_chunk_bounded splitText)
    (contextSize : Z) (fuel : nat) :
  forall prompt out,
    trimPrompt_fuel encode splitText fuel prompt contextSize = Returned out ->
    (String.length out <= String.length prompt)%nat.
Proof.
  induction fuel as [|fuel IH]; intros prompt out; simpl; [discriminate|].
  destruct (trimPrompt_pass encode splitText prompt contextSize)
    as [o|next|] eqn:E.
  - intros [= <-].
    destruct (BudgeterFacts.pass_cases encode splitText prompt contextSize)
      as [[_ H]|[[_ [_ H]]|[length [_ [_ [[_ H]|[[_ [_ H]]
                                            |[_ [_ [n [H _]]]]]]]]]]];
      rewrite E in H; try discriminate; injection H as ->.
    + simpl. lia.
    + lia.
    + assert (Hl := JSFacts.str_slice0_length prompt MinChunkSize
                      ltac:(unfold MinChunkSize; lia)).
      unfold JS.strlen in Hl. lia.
  - intros H. apply IH in H.
    apply (BudgeterFacts.pass_again_shorter encode splitText Hsplit) in E. lia.
  - discriminate.
Qed.

(** When the splitter cuts its text ([first_chunk_bounded]),
    [trimPrompt] ends, and what it returns fits the token budget or
    has at most 140 characters, and is never longer than the text it
    was given. *)
Theorem trimPrompt_fits_or_floor (text : string) (n : Z) :
  first_chunk_bounded splitText ->
  trimPrompt encode splitText text n <> Unsettled
  /\ forall out,
       trimPrompt encode splitText text n = Returned out ->
       ((exists length, tokens encode out = Some length /\ length <= n)
        \/ JS.strlen out <= MinChunkSize)
       /\ (String.length out <= String.length text)%nat.
Proof.
  intros Hsplit. split.
  { apply (BudgeterFacts.fuel_enough encode splitText Hsplit). lia. }
  intros out Hout. split; [|apply (fuel_not_longer Hsplit _ _ _ _ Hout)].
  destruct (BudgeterFacts.fuel_result_done encode splitText _ _ _ _ Hout)
    as [prompt [_ Hdone]].
  destruct (BudgeterFacts.pass_cases encode splitText prompt n)
    as [[_ H]|[[_ [_ H]]|[length [_ [Ht [[Hle H]|[[_ [_ H]]
                                            |[_ [_ [next [H _]]]]]]]]]]];
    rewrite Hdone in H; try discriminate; injection H as ->.
  - right. unfold JS.strlen, MinChunkSize. simpl. lia.
  - left. eauto.
  - right. rewrite JSFacts.str_slice0_length by (unfold MinChunkSize; lia).
    lia.
Qed.

End Trim.

(** Two hundred letters against a budget of 190 tokens: the splitter
    is asked for chunks of 170 characters and the 170 letters of its
    first chunk fit the budget. *)
Lemma trimPrompt_fits_or_floor_witness :
  first_chunk_bounded Samples.raw_split
  /\ trimPrompt Samples.char_encode Samples.raw_split Samples.letters 190
     = Returned (Samples.repeat_char 170 "a")
  /\ ((exists length,
          tokens Samples.char_encode (Samples.repeat_char 170 "a")
          = Some length
          /\ length <= 190)
      \/ JS.strlen (Samples.repeat_char 170 "a") <= MinChunkSize)
  /\ (String.length (Samples.repeat_char 170 "a")
      <= String.length Samples.letters)%nat.
Proof.
  assert (Hout : trimPrompt Samples.char_encode Samples.raw_split
                            Samples.letters 190
                 = Returned (Samples.repeat_char 170 "a"))
    by (vm_compute; reflexivity).
  exact (conj BudgeterSamples.raw_split_bounded
           (conj Hout
              (proj2 (trimPrompt_fits_or_floor Samples.char_encode
                        Samples.raw_split Samples.letters 190
                        BudgeterSamples.raw_split_bounded)
                     _ Hout))).
Defined.

End BudgeterMore.

(* ================================================================== *)
(** * The report composer *)

Module ReportFacts.

Import Research Report.

Lemma append_assoc (a b c : string) :
  ((a ++ b) ++ c)%string = (a ++ (b ++ c))%string.
Proof. induction a as [|x a IH]; simpl; [reflexivity | now rewrite IH]. Qed.

Lemma append_nil_r (a : string) : (a ++ EmptyString)%string = a.
Proof. induction a as [|x a IH]; simpl; [reflexivity | now rewrite IH]. Qed.

Lemma occurs_refl (x : string) : occurs x x.
Proof. exists EmptyString, EmptyString. simpl. now rewrite append_nil_r. Qed.

Lemma occurs_inside (x s before after : string) :
  occurs x s -> occurs x (before ++ s ++ after)%string.
Proof.
  intros [b [a ->]]. exists (before ++ b)%string, (a ++ after)%string.
  now rewrite !append_assoc.
Qed.

Lemma occurs_left (x s after : string) :
  occurs x s -> occurs x (s ++ after)%string.
Proof. intros H. apply (occurs_inside x s EmptyString after H). Qed.

Lemma occurs_right (x s before : string) :
  occurs x s -> occurs x (before ++ s)%string.
Proof.
  intros H. rewrite <- (append_nil_r s). now apply occurs_inside.
Qed.

Lemma occurs_trans (x y s : string) : occurs x y -> occurs y s -> occurs x s.
Proof. intros Hxy [b [a ->]]. now apply occurs_inside. Qed.

(** An element of a joined list stands in the join. *)
Lemma occurs_concat (sep x : string) (items : list string) :
  In x items -> occurs x (String.concat sep items).
Proof.
  induction items as [|y items IH]; simpl; [tauto|].
  intros [->|H].
  - destruct items; [apply occurs_refl | now apply occurs_left, occurs_refl].
  - destruct items as [|z items]; [destruct H|].
    apply occurs_right, occurs_right. now apply IH.
Qed.

Lemma occurs_bullets (x : string) (items : list string) :
  In x items -> occurs (bullet x) (bullets items).
Proof. intros H. apply occurs_concat. now apply in_map. Qed.

Lemma occurs_in_bullet (x : string) : occurs x (bullet x).
Proof. apply occurs_right, occurs_refl. Qed.

Section Composer.

Variable encode : string -> option (list N).
Variable splitText : Z -> string -> list string.
Variable report_call : string -> string -> outcome (option string).

Local Abbreviation write := (writeFinalReport encode splitText report_call).
Local Abbreviation trimmed_learnings := (learningsString encode splitText).

(** The ways a report comes about, once the learnings string has been
    trimmed. *)
Lemma writeFinalReport_cases (prompt : string)
    (learnings visitedUrls : list string) (trimmed : string) :
  trimmed_learnings learnings = Returned trimmed ->
  write prompt learnings visitedUrls
  = match report_call prompt trimmed with
    | Returned (Some reportMarkdown) =>
        Returned ((if JS.falsy reportMarkdown
                   then fallbackReport learnings
                   else reportMarkdown)
                  ++ urlsSection visitedUrls)%string
    | Returned None =>
        Returned (fallbackReport learnings ++ urlsSection visitedUrls)%string
    | Threw => Returned (errorReport learnings visitedUrls)
    | Unsettled => Unsettled
    end.
Proof.
  intros Ht. unfold writeFinalReport. rewrite Ht. simpl.
  destruct (report_call prompt trimmed) as [[md|]| |]; reflexivity.
Qed.

Lemma errorReport_sources (learnings visitedUrls : list string) :
  errorReport learnings visitedUrls
  = (("Error generating report. Please review the following learnings:"
        ++ nl ++ nl ++ String.concat (nl ++ nl) learnings)
       ++ sourcesHeading ++ bullets visitedUrls)%string.
Proof. unfold errorReport. now rewrite !append_assoc. Qed.

(** When the splitter cuts its text ([first_chunk_bounded]) and the
    model call made with the trimmed learnings settles,
    [writeFinalReport] rejects only by the exception the encoder
    throws, before the [try] block, on a prompt of the trimming of the
    learnings string; in every other case it returns a report, and the
    report ends with the sources section, which lists the visited URLs
    one per line in the order given. This holds when the model writes
    the report, when it writes none, and when the model call fails. *)
Theorem report_always_lists_sources (prompt : string)
    (learnings visitedUrls : list string) :
  Budgeter.first_chunk_bounded splitText ->
  (forall trimmed,
      trimmed_learnings learnings = Returned trimmed ->
      report_call prompt trimmed <> Unsettled) ->
  (write prompt learnings visitedUrls = Threw
   /\ exists refused,
        Budgeter.recursion encode splitText ReportBudget
          (String.concat nl (map learning_tag learnings)) refused
        /\ encode refused = None)
  \/ exists report body,
       write prompt learnings visitedUrls = Returned report
       /\ report = (body ++ sourcesHeading ++ bullets visitedUrls)%string
       /\ forall u, In u visitedUrls -> occurs (bullet u) report.
Proof.
  intros Hsplit Hsettles.
  assert (Hends : trimmed_learnings learnings <> Unsettled).
  { apply (BudgeterFacts.fuel_enough encode splitText Hsplit). lia. }
  destruct (trimmed_learnings learnings) as [trimmed| |] eqn:Et;
    [| |congruence].
  2:{ left. split.
      - unfold writeFinalReport. now rewrite Et.
      - apply (BudgeterFacts.fuel_threw encode splitText _ _ _ Et). }
  right.
  assert (Hw := writeFinalReport_cases prompt learnings visitedUrls _ Et).
  assert (Hs := Hsettles trimmed eq_refl).
  assert (Hocc : forall body u,
             In u visitedUrls ->
             occurs (bullet u)
                    (body ++ sourcesHeading ++ bullets visitedUrls)%string).
  { intros body u Hu. apply occurs_right, occurs_right.
    now apply occurs_bullets. }
  destruct (report_call prompt trimmed) as [[md|]| |]; try congruence.
  - eexists _, _. split; [exact Hw|]. split; [reflexivity | apply Hocc].
  - eexists _, _. split; [exact Hw|]. split; [reflexivity | apply Hocc].
  - rewrite errorReport_sources in Hw.
    eexists _, _. split; [exact Hw|]. split; [reflexivity | apply Hocc].
Qed.

(** When the trimming of the learnings string returns and the model
    call made with it writes no report (none, or an empty one) or
    fails, no learning is lost: a report comes back and every learning
    stands in it, as it was given. *)
Theorem fallback_report_keeps_learnings (prompt : string)
    (learnings visitedUrls : list string) (trimmed : string) :
  trimmed_learnings learnings = Returned trimmed ->
  report_call prompt trimmed = Threw
  \/ report_call prompt trimmed = Returned None
  \/ report_call prompt trimmed = Returned (Some EmptyString) ->
  exists report,
    write prompt learnings visitedUrls = Returned report
    /\ forall learning, In learning learnings -> occurs learning report.
Proof.
  intros Ht Hcall.
  assert (Hw := writeFinalReport_cases prompt learnings visitedUrls _ Ht).
  assert (Hfb : forall l, In l learnings ->
                  occurs l (fallbackReport learnings
                              ++ urlsSection visitedUrls)%string).
  { intros l Hl. apply occurs_left. unfold fallbackReport.
    do 6 apply occurs_right.
    apply (occurs_trans _ (bullet l)); [apply occurs_in_bullet|].
    now apply occurs_bullets. }
  destruct Hcall as [E|[E|E]]; rewrite E in Hw.
  - eexists. split; [exact Hw|].
    intros l Hl. unfold errorReport.
    do 3 apply occurs_right. apply occurs_left.
    now apply occurs_concat.
  - eexists. split; [exact Hw|]. exact Hfb.
  - eexists. split; [exact Hw|]. exact Hfb.
Qed.

End Composer.

End ReportFacts.

Module ReportSamples.

Import Research Report Samples MoreSamples.

(** A report of one learning and one source, written when the model
    call fails. *)
Lemma report_always_lists_sources_witness :
  Budgeter.first_chunk_bounded raw_split
  /\ (forall trimmed,
         learningsString char_encode raw_split ["fact"] = Returned trimmed ->
         report_failing "topic" trimmed <> Unsettled)
  /\ writeFinalReport char_encode raw_split report_failing
                      "topic" ["fact"] ["https://example.org/a"]
     = Returned (errorReport ["fact"] ["https://example.org/a"])
  /\ ((writeFinalReport char_encode raw_split report_failing
                        "topic" ["fact"] ["https://example.org/a"] = Threw
       /\ exists refused,
            Budgeter.recursion char_encode raw_split ReportBudget
              (String.concat nl (map learning_tag ["fact"])) refused
            /\ char_encode refused = None)
      \/ exists report body,
           writeFinalReport char_encode raw_split report_failing
                            "topic" ["fact"] ["https://example.org/a"]
           = Returned report
           /\ report
              = (body ++ sourcesHeading
                      ++ bullets ["https://example.org/a"])%string
           /\ forall u,
                In u ["https://example.org/a"] -> occurs (bullet u) report).
Proof.
  assert (H : forall trimmed,
             learningsString char_encode raw_split ["fact"] = Returned trimmed ->
             report_failing "topic" trimmed <> Unsettled) by discriminate.
  assert (E : writeFinalReport char_encode raw_split report_failing
                               "topic" ["fact"] ["https://example.org/a"]
              = Returned (errorReport ["fact"] ["https://example.org/a"]))
    by (vm_compute; reflexivity).
  exact (conj BudgeterSamples.raw_split_bounded (conj H (conj E
           (ReportFacts.report_always_lists_sources char_encode raw_split
              report_failing "topic" ["fact"] ["https://example.org/a"]
              BudgeterSamples.raw_split_bounded H)))).
Defined.

(** A learning in which a special token stands: the encoder throws
    while the learnings string is trimmed, before the [try] block, and
    the call rejects although the model would have answered. *)
Lemma report_rejects_on_special_token :
  writeFinalReport char_encode raw_split report_written
                   "topic" [marked] ["https://example.org/a"]
  = Threw.
Proof. vm_compute. reflexivity. Qed.

Lemma fallback_report_keeps_learnings_witness :
  learningsString char_encode raw_split ["fact one"; "fact two"]
  = Returned (String.concat nl (map learning_tag ["fact one"; "fact two"]))
  /\ report_missing "topic"
       (String.concat nl (map learning_tag ["fact one"; "fact two"]))
     = Returned None
  /\ exists report,
       writeFinalReport char_encode raw_split report_missing
                        "topic" ["fact one"; "fact two"] []
       = Returned report
       /\ forall learning,
            In learning ["fact one"; "fact two"] -> occurs learning report.
Proof.
  assert (Ht : learningsString char_encode raw_split ["fact one"; "fact two"]
               = Returned (String.concat nl
                             (map learning_tag ["fact one"; "fact two"])))
    by (vm_compute; reflexivity).
  assert (Hc : report_missing "topic"
                 (String.concat nl (map learning_tag ["fact one"; "fact two"]))
               = Returned None) by reflexivity.
  exact (conj Ht (conj Hc
           (ReportFacts.fallback_report_keeps_learnings char_encode raw_split
              report_missing "topic" ["fact one"; "fact two"] [] _ Ht
              (or_intror (or_introl Hc))))).
Defined.

End ReportSamples.

(* ================================================================== *)
(** * Clarifying questions *)

Module FeedbackFacts.

Import Research Feedback.

Lemma arr_slice0_length {A} (a : list A) (n : Z) :
  0 <= n -> List.length (JS.arr_slice0 a n) = Nat.min (Z.to_nat n) (List.length a).
Proof.
  intros H. unfold JS.arr_slice0.
  destruct (Z.ltb_spec n 0); [lia|]. apply length_firstn.
Qed.

Lemma arr_slice0_In {A} (a : list A) (n : Z) (x : A) :
  0 <= n -> In x (JS.arr_slice0 a n) -> In x a.
Proof.
  intros H. unfold JS.arr_slice0.
  destruct (Z.ltb_spec n 0); [lia|].
  intros Hx. rewrite <- (firstn_skipn (Z.to_nat n) a).
  apply in_or_app. now left.
Qed.

Section Clarifier.

Variable feedback_call : string -> Z -> outcome (option (list string)).

(** [generateFeedback] never rejects: when the model call settles it
    returns questions, at most [numQuestions] of them (for a count that
    is not negative); when the call failed or its answer holds no list
    of questions, they are the first [numQuestions] of the three
    fallback questions, each of which quotes the query. *)
Theorem generateFeedback_bounded (q : string) (numQuestions : Z) :
  feedback_call q numQuestions <> Unsettled ->
  0 <= numQuestions ->
  exists questions,
    generateFeedback feedback_call q numQuestions = Returned questions
    /\ Z.of_nat (List.length questions) <= numQuestions
    /\ ((forall answered,
            feedback_call q numQuestions <> Returned (Some answered)) ->
        List.length questions = Nat.min (Z.to_nat numQuestions) 3
        /\ forall question,
             In question questions -> Report.occurs (quote q) question).
Proof.
  intros Hs Hn. unfold generateFeedback.
  assert (Hfb : List.length (JS.arr_slice0 (fallbackQuestions q) numQuestions)
                = Nat.min (Z.to_nat numQuestions) 3).
  { now rewrite arr_slice0_length. }
  assert (Hq : forall question,
             In question (JS.arr_slice0 (fallbackQuestions q) numQuestions) ->
             Report.occurs (quote q) question).
  { intros question Hin. apply arr_slice0_In in Hin; [|assumption].
    destruct Hin as [<-|[<-|[<-|[]]]];
      apply ReportFacts.occurs_right, ReportFacts.occurs_left,
            ReportFacts.occurs_refl. }
  destruct (feedback_call q numQuestions) as [[answered|]| |] eqn:E;
    simpl; try congruence.
  - eexists. split; [reflexivity|]. split.
    + rewrite arr_slice0_length by assumption. lia.
    + intros Hno. exfalso. apply (Hno answered). reflexivity.
  - eexists. split; [reflexivity|]. split; [rewrite Hfb; lia | auto].
  - eexists. split; [reflexivity|]. split; [rewrite Hfb; lia | auto].
Qed.

End Clarifier.

Lemma generateFeedback_bounded_witness :
  MoreSamples.five_questions "llm" 2 <> Unsettled
  /\ 0 <= 2
  /\ exists questions,
       generateFeedback MoreSamples.five_questions "llm" 2 = Returned questions
       /\ Z.of_nat (List.length questions) <= 2.
Proof.
  assert (Hs : MoreSamples.five_questions "llm" 2 <> Unsettled) by discriminate.
  assert (Hn : 0 <= 2) by lia.
  destruct (generateFeedback_bounded MoreSamples.five_questions "llm" 2 Hs Hn)
    as [questions [E [Hlen _]]].
  exact (conj Hs (conj Hn (ex_intro _ questions (conj E Hlen)))).
Defined.

End FeedbackFacts.

(* ================================================================== *)
(** * The LM Studio provider *)

Module ProvidersFacts.

Import Research Providers.

Lemma get_set_same (key : string) (v : json) (fields : list (string * json)) :
  get key (set key v fields) = Some v.
Proof.
  induction fields as [|[k old] fields IH]; simpl.
  - now rewrite String.eqb_refl.
  - destruct (String.eqb k key) eqn:E; simpl; rewrite E; auto.
Qed.

Lemma get_set_other (key other : string) (v : json)
    (fields : list (string * json)) :
  other <> key -> get other (set key v fields) = get other fields.
Proof.
  intros Hne. induction fields as [|[k old] fields IH]; simpl.
  - destruct (String.eqb_spec key other); congruence.
  - destruct (String.eqb_spec k key) as [->|Hk]; simpl.
    + destruct (String.eqb_spec key other); congruence.
    + destruct (String.eqb k other); auto.
Qed.

Lemma is_array_inv (v : option json) :
  is_array v = true -> exists items, v = Some (JArr items).
Proof. destruct v as [[]|]; simpl; try discriminate. eauto. Qed.

(** What [normalise] does to an object, by the state of its [queries]
    and [learnings]. *)
Lemma normalise_object (fields : list (string * json)) (v : json) :
  normalise (JObj fields) = Some v ->
  exists fields',
    v = JObj fields'
    /\ is_array (get "queries" fields') = true
    /\ (fields' = fields
        \/ (exists learnings,
               get "learnings" fields = Some (JArr learnings)
               /\ fields' = set "queries" (as_queries learnings) fields)
        \/ fields' = set "queries" (JArr []) fields).
Proof.
  unfold normalise.
  set (no_queries := match get "queries" fields with
                     | Some v => negb (truthy v)
                     | None => true
                     end).
  set (has_learnings := match get "learnings" fields with
                        | Some v => truthy v
                        | None => false
                        end).
  destruct (no_queries && has_learnings)%bool.
  - destruct (get "learnings" fields) as [[| | | |learnings|]|] eqn:El;
      try discriminate.
    rewrite get_set_same. simpl. intros [= <-].
    eexists. split; [reflexivity|]. split.
    + now rewrite get_set_same.
    + right. left. eauto.
  - destruct (is_array (get "queries" fields)) eqn:Ea; intros [= <-].
    + eexists. split; [reflexivity|]. split; [exact Ea | now left].
    + eexists. split; [reflexivity|]. split.
      * now rewrite get_set_same.
      * right. right. reflexivity.
Qed.

Lemma normalise_ready (parsed v : json) :
  normalise parsed = Some v -> queries_ready v = true.
Proof.
  destruct parsed as [| | | |items|fields]; try discriminate.
  - intros [= <-]. reflexivity.
  - intros H. apply normalise_object in H.
    destruct H as [fields' [-> [Ha _]]]. exact Ha.
Qed.

Section LMStudio.

Variable rt : Runtime.
Variable post_chat : list message -> outcome reply.

Lemma extractedData_ready (content : string) :
  queries_ready (extractedData rt content) = true.
Proof.
  unfold extractedData. simpl.
  destruct (heading_items rt LearningsHeading _ _ content); reflexivity.
Qed.

Lemma extracted_value_ready (response : string) :
  queries_ready (extracted_value rt response) = true.
Proof.
  unfold extracted_value.
  destruct (JSON5_parse rt (cleaned rt response)) as [parsed|];
    [|apply extractedData_ready].
  destruct (normalise parsed) as [v|] eqn:E;
    [apply (normalise_ready _ _ E) | apply extractedData_ready].
Qed.

Lemma extractJSONFromResponse_value (response : string) :
  extractJSONFromResponse rt response
  = (JSON_stringify rt (extracted_value rt response), true).
Proof.
  unfold extractJSONFromResponse, extracted_value.
  destruct (JSON5_parse rt (cleaned rt response)) as [parsed|];
    [|reflexivity].
  destruct (normalise parsed); reflexivity.
Qed.

(** Whatever the model answered, and whatever the regular expressions
    and the parser make of it, a text that [doGenerate] returns is the
    JSON text of an array or of an object whose [queries] is an array:
    [extractJSONFromResponse] reports [isJSON] on both of its paths, so
    that the search for a braced object in [doGenerate] is never
    made. *)
Theorem doGenerate_text_is_ready (p : prompt) (g : generated) :
  doGenerate rt post_chat p = Returned g ->
  exists messages response,
    generate post_chat messages = Returned response
    /\ extractJSONFromResponse rt response = (text g, true)
    /\ text g = JSON_stringify rt (extracted_value rt response)
    /\ queries_ready (extracted_value rt response) = true.
Proof.
  unfold doGenerate. intros H.
  apply ResearchFacts.bind_returned in H. destruct H as [messages [_ H]].
  apply ResearchFacts.bind_returned in H. destruct H as [response [Hgen H]].
  rewrite extractJSONFromResponse_value in H. injection H as <-. simpl.
  exists messages, response.
  repeat split; try assumption.
  - apply extractJSONFromResponse_value.
  - apply extracted_value_ready.
Qed.

End LMStudio.

(** Normalising is idempotent and touches nothing but [queries]: what
    [normalise] returns is returned unchanged by [normalise], and every
    other key of an object keeps its value. *)
Theorem normalise_idempotent_frame (parsed v : json) :
  normalise parsed = Some v ->
  normalise v = Some v
  /\ forall fields fields' key,
       parsed = JObj fields -> v = JObj fields' -> key <> "queries" ->
       get key fields' = get key fields.
Proof.
  intros H. split.
  - destruct parsed as [| | | |items|fields]; try discriminate.
    + injection H as <-. reflexivity.
    + apply normalise_object in H.
      destruct H as [fields' [-> [Ha _]]].
      apply is_array_inv in Ha. destruct Ha as [items Hq].
      unfold normalise. rewrite Hq. simpl. rewrite Hq. reflexivity.
  - intros fields fields' key -> -> Hkey.
    apply normalise_object in H.
    destruct H as [f [[= <-] [_ [->|[[ls [_ ->]]| ->]]]]];
      [reflexivity | |]; now apply get_set_other.
Qed.

End ProvidersFacts.

Module ProvidersSamples.

Import Research Providers MoreSamples.

Lemma doGenerate_text_is_ready_witness :
  exists g,
    doGenerate sample_runtime (answering "{learnings: ['a', 'b']}")
               (PromptString "find out")
    = Returned g
    /\ text g
       = "{learnings:[a,b],queries:[{query:a,researchGoal:},{query:b,researchGoal:}]}"
    /\ queries_ready
         (extracted_value sample_runtime "{learnings: ['a', 'b']}") = true.
Proof.
  eexists. split; [vm_compute; reflexivity|].
  split; [reflexivity|].
  destruct (ProvidersFacts.doGenerate_text_is_ready sample_runtime
              (answering "{learnings: ['a', 'b']}") (PromptString "find out")
              _ eq_refl) as [messages [response [_ [_ [_ H]]]]].
  vm_compute. reflexivity.
Defined.

Lemma normalise_idempotent_frame_witness :
  normalise answer_with_learnings
  = Some (JObj [("learnings", JArr [JStr "a"; JStr "b"]);
                ("queries", as_queries [JStr "a"; JStr "b"])])
  /\ normalise (JObj [("learnings", JArr [JStr "a"; JStr "b"]);
                      ("queries", as_queries [JStr "a"; JStr "b"])])
     = Some (JObj [("learnings", JArr [JStr "a"; JStr "b"]);
                   ("queries", as_queries [JStr "a"; JStr "b"])]).
Proof.
  exact (conj eq_refl
           (proj1 (ProvidersFacts.normalise_idempotent_frame
                     answer_with_learnings _ eq_refl))).
Defined.

End ProvidersSamples.

(* ================================================================== *)
(** * Where results come from, and how much work a run is *)

Module AccountingFacts.

Import Research Limiter Accounting.

Section World.

Variable w : World.

(** What a branch found comes from its own synthesis call and its own
    crawl. *)
Lemma discoveries_sourced
    (recur_calls : list nat -> string -> Z -> Z -> list string -> list string
                   -> list call)
    (site : list nat) (serpQuery : SerpQuery) (breadth depth : Z)
    (learnings visitedUrls : list string)
    (s : SynthesisResult) (newUrls : list string) :
  discoveries w site serpQuery breadth = Some (s, newUrls) ->
  (forall x, In x (sr_learnings s) ->
             synthesised w (branch_calls w recur_calls site serpQuery
                                         breadth depth learnings visitedUrls) x)
  /\ (forall u, In u newUrls ->
                crawled w (branch_calls w recur_calls site serpQuery
                                        breadth depth learnings visitedUrls) u).
Proof.
  unfold discoveries, branch_calls.
  destruct (crawlWebsite w site (query serpQuery)) as [[result|]| |] eqn:Ec;
    try discriminate.
  destruct (processSerpResult w site (query serpQuery) result
              DefaultNumLearnings (JS.ceil_half breadth)) as [s'| |] eqn:Ep;
    try discriminate.
  intros [= <- <-].
  apply ResearchFacts.processSerpResult_learnings in Ep.
  destruct Ep as [contents [res [Ht [Hres Hl]]]]. rewrite Ht. split.
  - intros x Hx. rewrite Hl in Hx.
    exists site, (query serpQuery), contents, DefaultNumLearnings,
           (JS.ceil_half breadth), res.
    split; [right; now left|]. auto.
  - intros u Hu. apply in_map_iff in Hu. destruct Hu as [item [<- Hitem]].
    exists site, (query serpQuery), result, item.
    split; [now left|]. auto.
Qed.

Lemma sourced_among (made made' : list call)
    (given urls : list string) (r : ResearchResult) :
  (forall c, In c made -> In c made') ->
  sourced w made given urls r -> sourced w made' given urls r.
Proof.
  intros Hsub [Hl Hu]. split.
  - intros x Hx. destruct (Hl x Hx) as [H|H]; [now left | right].
    destruct H as [site [q [contents [n [m [res [Hin H]]]]]]].
    exists site, q, contents, n, m, res. auto.
  - intros u Hx. destruct (Hu u Hx) as [H|H]; [now left | right].
    destruct H as [site [q [items [item [Hin H]]]]].
    exists site, q, items, item. auto.
Qed.

Lemma sourced_more (made : list call) (given more urls more_urls : list string)
    (r : ResearchResult) :
  (forall x, In x more -> synthesised w made x) ->
  (forall u, In u more_urls -> crawled w made u) ->
  sourced w made (given ++ more) (urls ++ more_urls) r ->
  sourced w made given urls r.
Proof.
  intros Hm Hu [Hl Hv]. split.
  - intros x Hx. destruct (Hl x Hx) as [H|H]; [|now right].
    apply in_app_or in H. destruct H; [now left | right; auto].
  - intros u Hx. destruct (Hv u Hx) as [H|H]; [|now right].
    apply in_app_or in H. destruct H; [now left | right; auto].
Qed.

Lemma branch_sourced
    (recur : list nat -> string -> Z -> Z -> list string -> list string
             -> outcome ResearchResult)
    (recur_calls : list nat -> string -> Z -> Z -> list string -> list string
                   -> list call)
    (Hrec : forall site q breadth depth learnings visitedUrls r,
        recur site q breadth depth learnings visitedUrls = Returned r ->
        sourced w (recur_calls site q breadth depth learnings visitedUrls)
                learnings visitedUrls r)
    (site : list nat) (serpQuery : SerpQuery)
    (breadth depth : Z) (learnings visitedUrls : list string)
    (r : ResearchResult) :
  branch w recur site serpQuery breadth depth learnings visitedUrls
  = Returned r ->
  sourced w (branch_calls w recur_calls site serpQuery breadth depth
                          learnings visitedUrls)
          learnings visitedUrls r.
Proof.
  rewrite ResearchFacts.branch_of_try.
  assert (Hc := ResearchFacts.branch_try_cases w site serpQuery breadth depth
                  learnings visitedUrls).
  destruct (discoveries w site serpQuery breadth) as [[s newUrls]|] eqn:Ed.
  - apply (discoveries_sourced recur_calls site serpQuery breadth depth
             learnings visitedUrls) in Ed.
    destruct Ed as [Hs Hu].
    rewrite Hc. destruct (JS.minus_one depth >? 0) eqn:Epos.
    + intros H. apply Hrec in H.
      apply (sourced_more _ _ _ _ _ _ Hs Hu).
      apply (sourced_among _ _ _ _ _
               (fun c => ResearchFacts.nested_calls_in_branch w recur_calls
                           _ _ _ _ _ _ _ _ _ _ _ c Hc) H).
    + intros [= <-]. apply (sourced_more _ _ (sr_learnings s) _ newUrls);
        try assumption.
      split; simpl; auto.
  - destruct Hc as [Hc|Hc]; rewrite Hc; [|discriminate].
    intros [= <-]. split; simpl; tauto.
Qed.

(** [deepResearch] invents nothing: every learning of a result was
    among the learnings given to the call or was returned by a synthesis
    call of the run, and every URL was among the URLs given or is the
    source of an item that a crawl of the run returned. The calls of
    the run are those the call and the calls nested in it make, each
    with the arguments it is made with. *)
Theorem results_are_sourced (fuel : nat) :
  forall site q breadth depth learnings visitedUrls r,
    deepResearch_fuel w fuel site q breadth depth learnings visitedUrls
    = Returned r ->
    sourced w (calls_fuel w fuel site q breadth depth learnings visitedUrls)
            learnings visitedUrls r.
Proof.
  induction fuel as [|fuel IH];
    intros site q breadth depth learnings visitedUrls r H; [discriminate|].
  apply ResearchFacts.call_returned in H.
  destruct H as [fuel' [serpQueries [results [[= <-] [Hq [Hall ->]]]]]].
  assert (Hx : forall x, In x results ->
                 sourced w (calls_fuel w (S fuel) site q breadth depth
                                       learnings visitedUrls)
                         learnings visitedUrls x).
  { intros x Hx.
    destruct (ResearchFacts.Forall2_In_r _ _ _ _ Hall Hx) as [p [Hp ->]].
    apply JSFacts.mapi_In in Hp. destruct Hp as [j [sq [Hn Hp]]].
    symmetry in Hp. apply (branch_sourced _ _ IH) in Hp.
    apply (sourced_among _ _ _ _ _
             (fun c => ResearchFacts.branch_calls_in_call w fuel site q breadth
                         depth learnings visitedUrls serpQueries j sq c Hq Hn)
             Hp). }
  split; simpl; intros x Hin; apply (proj1 (JSFacts.uniq_In _ _)) in Hin;
    apply in_flat_map in Hin; destruct Hin as [rb [Hrb Hin]];
    destruct (Hx rb Hrb) as [Hl Hu]; auto.
Qed.

(** When a call returns, each of its branches has returned, and the
    learnings and URLs of the call are exactly those of its branches:
    nothing a branch returned is lost, nothing else is added. *)
Theorem result_is_union_of_branches (fuel : nat) (site : list nat)
    (q : string) (breadth depth : Z) (learnings visitedUrls : list string)
    (serpQueries : list SerpQuery) (r : ResearchResult) :
  generateSerpQueries w site q breadth learnings = Returned serpQueries ->
  deepResearch_fuel w (S fuel) site q breadth depth learnings visitedUrls
  = Returned r ->
  (forall i serpQuery,
      nth_error serpQueries i = Some serpQuery ->
      exists rb,
        branch w (deepResearch_fuel w fuel) (i :: site) serpQuery
               breadth depth learnings visitedUrls = Returned rb)
  /\ (forall x,
        In x (Research.learnings r) <->
        exists i serpQuery rb,
          nth_error serpQueries i = Some serpQuery
          /\ branch w (deepResearch_fuel w fuel) (i :: site) serpQuery
                    breadth depth learnings visitedUrls = Returned rb
          /\ In x (Research.learnings rb))
  /\ (forall u,
        In u (Research.visitedUrls r) <->
        exists i serpQuery rb,
          nth_error serpQueries i = Some serpQuery
          /\ branch w (deepResearch_fuel w fuel) (i :: site) serpQuery
                    breadth depth learnings visitedUrls = Returned rb
          /\ In u (Research.visitedUrls rb)).
Proof.
  intros Hq H. apply ResearchFacts.call_returned in H.
  destruct H as [fuel' [qs [results [[= <-] [Hq' [Hall ->]]]]]].
  rewrite Hq in Hq'. injection Hq' as <-.
  assert (Hfrom : forall rb, In rb results ->
            exists i sq,
              nth_error serpQueries i = Some sq
              /\ branch w (deepResearch_fuel w fuel) (i :: site) sq
                        breadth depth learnings visitedUrls = Returned rb).
  { intros rb Hrb.
    destruct (ResearchFacts.Forall2_In_r _ _ _ _ Hall Hrb) as [p [Hp ->]].
    apply JSFacts.mapi_from_In in Hp. destruct Hp as [j [sq [Hj Hp]]].
    exists j, sq. split; [exact Hj | now symmetry]. }
  assert (Hto : forall i sq,
            nth_error serpQueries i = Some sq ->
            exists rb,
              In rb results
              /\ branch w (deepResearch_fuel w fuel) (i :: site) sq
                        breadth depth learnings visitedUrls = Returned rb).
  { intros i sq Hi.
    assert (Hin := JSFacts.mapi_from_nth
              (fun i serpQuery =>
                 branch w (deepResearch_fuel w fuel) (i :: site) serpQuery
                        breadth depth learnings visitedUrls)
              serpQueries O i sq Hi).
    destruct (ResearchFacts.Forall2_In_l _ _ _ _ Hall Hin) as [rb [Hrb E]].
    exists rb. split; [exact Hrb | exact E]. }
  split; [|split].
  - intros i sq Hi. destruct (Hto i sq Hi) as [rb [_ E]]. eauto.
  - intros x. simpl. rewrite JSFacts.uniq_In, in_flat_map. split.
    + intros [rb [Hrb Hx]]. destruct (Hfrom rb Hrb) as [i [sq [Hi E]]].
      eauto 6.
    + intros [i [sq [rb [Hi [E Hx]]]]].
      destruct (Hto i sq Hi) as [rb' [Hrb' E']].
      rewrite E in E'. injection E' as <-. eauto.
  - intros u. simpl. rewrite JSFacts.uniq_In, in_flat_map. split.
    + intros [rb [Hrb Hx]]. destruct (Hfrom rb Hrb) as [i [sq [Hi E]]].
      eauto 6.
    + intros [i [sq [rb [Hi [E Hx]]]]].
      destruct (Hto i sq Hi) as [rb' [Hrb' E']].
      rewrite E in E'. injection E' as <-. eauto.
Qed.

(** A retrieval that fails, because the crawler process fails or
    prints no JSON, does not fail the branch: the synthesis runs on no
    content, and what it yields is added to the learnings, the URLs
    staying as they were. *)
Theorem retrieval_failure_is_not_fatal (site : list nat)
    (serpQuery : SerpQuery) (breadth depth : Z)
    (learnings visitedUrls : list string) (res : Synthesis) :
  (execAsync w site (crawl_command (query serpQuery)) = ExecError
   \/ exists stdout,
        execAsync w site (crawl_command (query serpQuery)) = ExecOutput stdout
        /\ JSON_parse w stdout = None) ->
  synth_call w site (query serpQuery) [] DefaultNumLearnings
             (JS.ceil_half breadth) = Returned res ->
  crawlWebsite w site (query serpQuery) = Returned (Items [])
  /\ forall recur,
       branch w recur site serpQuery breadth depth learnings visitedUrls
       = if JS.minus_one depth >? 0
         then recur site
                (nextQuery serpQuery
                   (match syn_followUpQuestions res with
                    | Some qs => qs
                    | None => []
                    end))
                (JS.ceil_half breadth) (JS.minus_one depth)
                (learnings ++ syn_learnings res) visitedUrls
         else Returned {| Research.learnings := learnings ++ syn_learnings res;
                          Research.visitedUrls := visitedUrls |}.
Proof.
  intros Hfail Hsyn.
  assert (Hc : crawlWebsite w site (query serpQuery) = Returned (Items [])).
  { unfold crawlWebsite, crawl_result.
    destruct Hfail as [->|[stdout [-> ->]]]; reflexivity. }
  split; [exact Hc|]. intros recur.
  unfold branch, branch_try. rewrite Hc.
  unfold processSerpResult. simpl. rewrite Hsyn. simpl.
  rewrite app_nil_r. destruct (JS.minus_one depth >? 0); reflexivity.
Qed.

(** A breadth of zero asks nothing: the call hands no task to its
    limiter and returns the empty result, whatever it was given. *)
Theorem zero_breadth_empty_result (q : string) (depth : Z)
    (learnings visitedUrls : list string) (r : ResearchResult) :
  deepResearch w q 0 depth learnings visitedUrls = Returned r ->
  r = emptyResult
  /\ initial w q 0 depth learnings visitedUrls = [].
Proof.
  unfold deepResearch, initial, levels. simpl.
  unfold generateSerpQueries.
  destruct (plan_call w [] q 0 learnings) as [queries| |]; simpl;
    try discriminate.
  intros [= <-]. split; reflexivity.
Qed.

(** ** How many tasks a run starts *)







(** What a planned task is, by the way its [try] block ends. *)
Lemma planned_task (fuel : nat) (site : list nat) (serpQuery : SerpQuery)
    (breadth depth : Z) (learnings visitedUrls : list string) :
  match branch_try w site serpQuery breadth depth learnings visitedUrls with
  | Returned (Deeper next newBreadth newDepth allLearnings allUrls) =>
      match generateSerpQueries w site next newBreadth allLearnings with
      | Threw => Fails
      | _ => Nests (call_plan w fuel site next newBreadth newDepth
                              allLearnings allUrls)
      end
  | _ => Ends
  end = Ends
  \/ match branch_try w site serpQuery breadth depth learnings visitedUrls with
     | Returned (Deeper next newBreadth newDepth allLearnings allUrls) =>
         match generateSerpQueries w site next newBreadth allLearnings with
         | Threw => Fails
         | _ => Nests (call_plan w fuel site next newBreadth newDepth
                                 allLearnings allUrls)
         end
     | _ => Ends
     end = Fails
  \/ (JS.minus_one depth > 0
      /\ exists next allLearnings allUrls,
           match branch_try w site serpQuery breadth depth
                            learnings visitedUrls with
           | Returned (Deeper next newBreadth newDepth allLearnings allUrls) =>
               match generateSerpQueries w site next newBreadth
                                         allLearnings with
               | Threw => Fails
               | _ => Nests (call_plan w fuel site next newBreadth newDepth
                                       allLearnings allUrls)
               end
           | _ => Ends
           end
           = Nests (call_plan w fuel site next (JS.ceil_half breadth)
                              (JS.minus_one depth) allLearnings allUrls)).
Proof.
  assert (Hc := ResearchFacts.branch_try_cases w site serpQuery breadth depth
                  learnings visitedUrls).
  destruct (discoveries w site serpQuery breadth) as [[s newUrls]|].
  - rewrite Hc.
    destruct (Z.gtb_spec (JS.minus_one depth) 0) as [Hpos|Hnon].
    + destruct (generateSerpQueries w site
                  (nextQuery serpQuery (followUpQuestions s))
                  (JS.ceil_half breadth) (learnings ++ sr_learnings s));
        [right; right | right; now left | right; right];
        (split; [lia|]; eexists _, _, _; reflexivity).
    + now left.
  - destruct Hc as [Hc|Hc]; rewrite Hc; now left.
Qed.



(** ** How many tasks are in flight *)

Lemma levels_max {A} (f : A -> nat) (l : list A) (n : nat) :
  (list_max (map f l) <= n)%nat <-> Forall (fun x => (f x <= n)%nat) l.
Proof. rewrite list_max_le, Forall_map. reflexivity. Qed.

Lemma queued_levels (ps : list plan) :
  map task_levels (map Queued ps) = map plan_levels ps.
Proof. rewrite map_map. reflexivity. Qed.

Lemma plan_levels_bound (fuel : nat) :
  forall site q breadth depth learnings visitedUrls,
    depth <= JS.MaxSafe ->
    (Z.to_nat (depth - 1) < fuel)%nat ->
    Forall (fun p => (plan_levels p <= Z.to_nat (depth - 1))%nat)
           (call_plan w fuel site q breadth depth learnings visitedUrls).
Proof.
  induction fuel as [|fuel IH];
    intros site q breadth depth learnings visitedUrls Hsafe Hfuel; [lia|].
  simpl.
  destruct (generateSerpQueries w site q breadth learnings)
    as [serpQueries| |]; try constructor.
  apply Forall_forall. intros p Hp. apply JSFacts.mapi_In in Hp.
  destruct Hp as [j [sq [_ ->]]].
  destruct (planned_task fuel (j :: site) sq breadth depth
                         learnings visitedUrls)
    as [->|[->|[Hpos [next [al [au ->]]]]]].
  - cbn [plan_levels]. lia.
  - cbn [plan_levels]. lia.
  - cbn [plan_levels].
    assert (E := JSFacts.minus_one_positive depth Hsafe ltac:(lia)).
    assert (Hf : (Z.to_nat (JS.minus_one depth - 1) < fuel)%nat) by lia.
    assert (H := IH (j :: site) next (JS.ceil_half breadth)
                    (JS.minus_one depth) al au ltac:(lia) Hf).
    apply levels_max in H. lia.
Qed.

Lemma Forall_replace {A} (P : A -> Prop) (l : list A) :
  forall i x, Forall P l -> P x -> Forall P (replace_nth i x l).
Proof.
  induction l as [|y l IH]; intros [|i] x Hl Hx; simpl; auto;
    inversion Hl; subst; constructor; auto.
Qed.

Lemma Forall_nth {A} (P : A -> Prop) (l : list A) (i : nat) (x : A) :
  Forall P l -> nth_error l i = Some x -> P x.
Proof.
  intros H Hn. apply nth_error_In in Hn.
  rewrite Forall_forall in H. auto.
Qed.

Lemma act_levels (may_start : bool) (t t' : task) :
  act may_start t = Some t' -> (task_levels t' <= task_levels t)%nat.
Proof.
  destruct t as [p|[| |ps]|nested| | |nested]; simpl; try discriminate.
  - destruct may_start; [|discriminate]. intros [= <-]. simpl. lia.
  - intros [= <-]. simpl. lia.
  - intros [= <-]. simpl. lia.
  - intros [= <-]. simpl. rewrite queued_levels. lia.
  - destruct (existsb has_rejected nested); [intros [= <-]; simpl; lia|].
    destruct (forallb has_fulfilled nested); [|discriminate].
    intros [= <-]. simpl. lia.
Qed.

Lemma fire_levels (addr : list nat) :
  forall ts ts' H,
    Forall (fun t => (task_levels t <= H)%nat) ts ->
    fire addr ts = Some ts' ->
    Forall (fun t => (task_levels t <= H)%nat) ts'.
Proof.
  induction addr as [|i deeper IH]; intros ts ts' H Hts Hf; simpl in Hf;
    [discriminate|].
  destruct (nth_error ts i) as [t|] eqn:Hn; [|discriminate].
  assert (Ht := Forall_nth _ _ _ _ Hts Hn). simpl in Ht.
  destruct deeper as [|j deeper].
  - match type of Hf with
    | context [act ?m t] => destruct (act m t) as [t'|] eqn:Ha; [|discriminate]
    end.
    injection Hf as <-. apply Forall_replace; [assumption|].
    apply act_levels in Ha. lia.
  - destruct t as [| |nested| | |nested]; try discriminate;
      (destruct (fire (j :: deeper) nested) as [nested'|] eqn:Hn';
       [|discriminate]);
      injection Hf as <-; (apply Forall_replace; [assumption|]);
      simpl in *; (destruct H as [|H']; [lia|]);
      (assert (Hnested : Forall (fun t => (task_levels t <= H')%nat) nested)
        by (apply levels_max; lia));
      apply (IH _ _ _ Hnested) in Hn'; apply levels_max in Hn'; lia.
Qed.

Lemma run_levels (events : list (list nat)) :
  forall ts ts' H,
    Forall (fun t => (task_levels t <= H)%nat) ts ->
    run events ts = Some ts' ->
    Forall (fun t => (task_levels t <= H)%nat) ts'.
Proof.
  induction events as [|e events IH]; intros ts ts' H Hts Hr; simpl in Hr.
  - now injection Hr as <-.
  - destruct (fire e ts) as [ts1|] eqn:Hf; [|discriminate].
    apply (IH ts1 ts' H); [|exact Hr]. apply (fire_levels e ts ts1 H Hts Hf).
Qed.

(** Where no task rejects, none has rejected at any instant of a
    run. *)
Lemma queued_calm (ps : list plan) :
  forallb calm (map Queued ps) = forallb never_fails ps.
Proof. induction ps as [|p ps IH]; simpl; [reflexivity | now rewrite IH]. Qed.

Lemma calm_not_rejected (ts : list task) :
  forallb calm ts = true -> existsb has_rejected ts = false.
Proof.
  induction ts as [|t ts IH]; simpl; [reflexivity|].
  intros H. apply andb_prop in H. destruct H as [Ht H].
  rewrite (IH H). destruct t; simpl in *; try discriminate; reflexivity.
Qed.

Lemma act_calm (may_start : bool) (t t' : task) :
  calm t = true -> act may_start t = Some t' -> calm t' = true.
Proof.
  destruct t as [p|[| |ps]|nested| | |nested]; simpl; try discriminate.
  - intros Hc. destruct may_start; [|discriminate]. now intros [= <-].
  - now intros _ [= <-].
  - intros Hc [= <-]. cbn [calm]. now rewrite queued_calm.
  - intros Hc. rewrite (calm_not_rejected nested Hc).
    destruct (forallb has_fulfilled nested); [|discriminate].
    now intros [= <-].
Qed.

Lemma fire_calm (addr : list nat) :
  forall ts ts',
    forallb calm ts = true -> fire addr ts = Some ts' ->
    forallb calm ts' = true.
Proof.
  induction addr as [|i deeper IH]; intros ts ts' Hts Hf; simpl in Hf;
    [discriminate|].
  destruct (nth_error ts i) as [t|] eqn:Hn; [|discriminate].
  assert (Ht := LimiterFacts.forallb_nth _ _ _ _ Hts Hn).
  destruct deeper as [|j deeper].
  - match type of Hf with
    | context [act ?m t] => destruct (act m t) as [t'|] eqn:Ha; [|discriminate]
    end.
    injection Hf as <-. apply LimiterFacts.forallb_replace; [assumption|].
    apply (act_calm _ _ _ Ht Ha).
  - destruct t as [| |nested| | |nested]; try discriminate.
    destruct (fire (j :: deeper) nested) as [nested'|] eqn:Hn';
      [|discriminate].
    injection Hf as <-. apply LimiterFacts.forallb_replace; [assumption|].
    cbn [calm] in *. apply (IH _ _ Ht Hn').
Qed.

Lemma run_calm (events : list (list nat)) :
  forall ts ts',
    forallb calm ts = true -> run events ts = Some ts' ->
    forallb calm ts' = true.
Proof.
  induction events as [|e events IH]; intros ts ts' Hts Hr; simpl in Hr.
  - now injection Hr as <-.
  - destruct (fire e ts) as [ts1|] eqn:Hf; [|discriminate].
    apply (IH ts1 ts'); [|exact Hr]. apply (fire_calm e ts ts1 Hts Hf).
Qed.

Lemma sum_over_active (f : task -> nat) (M : nat) (ts : list task) :
  (forall t, In t ts -> active t = false -> f t = O) ->
  (forall t, In t ts -> (f t <= M)%nat) ->
  (list_sum (map f ts) <= activeCount ts * M)%nat.
Proof.
  induction ts as [|t ts IH]; intros H0 HM; simpl; [lia|].
  rewrite LimiterFacts.activeCount_cons.
  assert (Hl := IH (fun x Hx => H0 x (or_intror Hx))
                   (fun x Hx => HM x (or_intror Hx))).
  assert (Ht := HM t (or_introl eq_refl)).
  destruct (active t) eqn:Ea; [lia|].
  rewrite (H0 t (or_introl eq_refl) Ea). lia.
Qed.

Lemma idle_tasks (t : task) :
  calm t = true -> active t = false -> in_flight t = O /\ busy t = O.
Proof. destruct t; simpl; try discriminate; auto. Qed.

Lemma tree_bound (H : nat) :
  forall t,
    calm t = true ->
    within_limit t = true -> (task_levels t <= H)%nat ->
    (in_flight t + 1 <= 2 * 2 ^ H)%nat /\ (busy t <= 2 ^ H)%nat.
Proof.
  induction H as [|H IH]; intros t Hcalm Hw Hl.
  - change (2 ^ 0)%nat with 1%nat.
    destruct t as [p|p|nested| | |nested];
      cbn [task_levels in_flight busy calm] in *; try discriminate; lia.
  - rewrite Nat.pow_succ_r'.
    assert (Hp := Nat.pow_nonzero 2 H ltac:(lia)).
    destruct t as [p|p|nested| | |nested];
      cbn [task_levels in_flight busy within_limit calm] in *;
      try discriminate; try lia.
    apply andb_prop in Hw. destruct Hw as [Hc Hall].
    apply Nat.leb_le in Hc. unfold ConcurrencyLimit in Hc.
    assert (Hn : Forall (fun t => (task_levels t <= H)%nat) nested).
    { apply levels_max. lia. }
    rewrite forallb_forall in Hall, Hcalm. rewrite Forall_forall in Hn.
    assert (H1 : (list_sum (map in_flight nested)
                  <= activeCount nested * (2 * 2 ^ H - 1))%nat).
    { apply sum_over_active.
      - intros t Ht Ha. apply (idle_tasks t (Hcalm t Ht) Ha).
      - intros t Ht. destruct (IH t (Hcalm t Ht) (Hall t Ht) (Hn t Ht)). lia. }
    assert (H2 : (list_sum (map busy nested)
                  <= activeCount nested * 2 ^ H)%nat).
    { apply sum_over_active.
      - intros t Ht Ha. apply (idle_tasks t (Hcalm t Ht) Ha).
      - intros t Ht. apply (IH t (Hcalm t Ht) (Hall t Ht) (Hn t Ht)). }
    clear IH. remember (2 ^ H)%nat as P eqn:EP. clear EP. nia.
Qed.

(** In a run of a depth up to [2^53] in which no planning call of a
    nested call rejects, the tasks in flight across the whole tree of
    calls are bounded by the depth, not by [ConcurrencyLimit]: with
    [levels = max 1 depth] levels of calls, at most [2 + 4 + ... +
    2^levels] branch tasks are in flight at any instant, and at most
    [2^levels] of them are retrieving or synthesising. *)
Theorem in_flight_bounded_by_depth (q : string) (breadth depth : Z)
    (learnings visitedUrls : list string)
    (events : list (list nat)) (ts : list task) :
  depth <= JS.MaxSafe ->
  forallb never_fails
          (call_plan w (levels depth) [] q breadth depth learnings visitedUrls)
  = true ->
  run events (initial w q breadth depth learnings visitedUrls) = Some ts ->
  (in_flight_all ts + 2 <= 2 ^ S (levels depth))%nat
  /\ (busy_all ts <= 2 ^ levels depth)%nat.
Proof.
  intros Hsafe Hnever Hrun. unfold levels.
  set (H := Z.to_nat (depth - 1)).
  assert (Hok : limiters_ok ts = true).
  { apply (LimiterFacts.run_ok events _ ts (LimiterFacts.queued_ok _) Hrun). }
  assert (Hcalm : forallb calm ts = true).
  { apply (run_calm events _ ts) in Hrun; [exact Hrun|].
    unfold initial. now rewrite queued_calm. }
  assert (Hlv : Forall (fun t => (task_levels t <= H)%nat) ts).
  { apply (run_levels events _ ts H) in Hrun; [exact Hrun|].
    unfold initial. apply Forall_map.
    apply (plan_levels_bound (levels depth)); [exact Hsafe|].
    unfold levels. lia. }
  unfold limiters_ok in Hok. apply andb_prop in Hok.
  destruct Hok as [Hc Hall]. apply Nat.leb_le in Hc.
  unfold ConcurrencyLimit in Hc.
  rewrite forallb_forall in Hall, Hcalm. rewrite Forall_forall in Hlv.
  assert (Hp := Nat.pow_nonzero 2 H ltac:(lia)).
  assert (H1 : (list_sum (map in_flight ts)
                <= activeCount ts * (2 * 2 ^ H - 1))%nat).
  { apply sum_over_active.
    - intros t Ht Ha. apply (idle_tasks t (Hcalm t Ht) Ha).
    - intros t Ht.
      destruct (tree_bound H t (Hcalm t Ht) (Hall t Ht) (Hlv t Ht)). lia. }
  assert (H2 : (list_sum (map busy ts) <= activeCount ts * 2 ^ H)%nat).
  { apply sum_over_active.
    - intros t Ht Ha. apply (idle_tasks t (Hcalm t Ht) Ha).
    - intros t Ht.
      apply (tree_bound H t (Hcalm t Ht) (Hall t Ht) (Hlv t Ht)). }
  unfold in_flight_all, busy_all.
  rewrite !Nat.pow_succ_r'.
  remember (2 ^ H)%nat as P eqn:EP. clear EP. nia.
Qed.

(** ** Runs end *)







(** ** Runs do not get stuck *)

Lemma find_first (P : task -> bool) (ts : list task) :
  existsb P ts = true ->
  exists i t,
    nth_error ts i = Some t /\ P t = true
    /\ existsb P (firstn i ts) = false.
Proof.
  induction ts as [|x ts IH]; simpl; [discriminate|].
  destruct (P x) eqn:Ex.
  - intros _. exists O, x. auto.
  - simpl. intros H. destruct (IH H) as [i [t [Hn [Ht Hb]]]].
    exists (S i), t. simpl. rewrite Ex. auto.
Qed.

Lemma no_active_count (ts : list task) :
  existsb active ts = false -> activeCount ts = O.
Proof.
  induction ts as [|t ts IH]; [reflexivity|].
  simpl. intros H. apply orb_false_elim in H. destruct H as [Ht H].
  rewrite LimiterFacts.activeCount_cons, Ht. now rewrite IH.
Qed.

Lemma unsettled_inactive_is_queued (ts : list task) :
  existsb active ts = false ->
  existsb (fun t => negb (is_settled t)) ts = true ->
  existsb is_queued ts = true.
Proof.
  induction ts as [|t ts IH]; simpl; [discriminate|].
  intros Ha Hu. apply orb_false_elim in Ha. destruct Ha as [Ht Ha].
  destruct t; simpl in *; try discriminate; auto.
Qed.

(** Among tasks of which none has rejected and not all have
    fulfilled, one has not settled. *)
Lemma waiting_for_one (ts : list task) :
  existsb has_rejected ts = false ->
  forallb has_fulfilled ts = false ->
  existsb (fun t => negb (is_settled t)) ts = true.
Proof.
  induction ts as [|t ts IH]; simpl; [discriminate|].
  intros Hr Hf. apply orb_false_elim in Hr. destruct Hr as [Ht Hr].
  unfold is_settled at 1. rewrite Ht.
  destruct (has_fulfilled t); simpl in *; [|reflexivity].
  apply (IH Hr Hf).
Qed.

(** The oldest queued task of a limiter without active task can
    start. *)
Lemma idle_limiter_starts (ts : list task) :
  existsb active ts = false ->
  existsb (fun t => negb (is_settled t)) ts = true ->
  exists addr ts', fire addr ts = Some ts'.
Proof.
  intros Ea Hu.
  assert (Hq := unsettled_inactive_is_queued ts Ea Hu).
  apply find_first in Hq. destruct Hq as [i [t [Hn [Ht Hb]]]].
  destruct t as [p| | | | |]; try discriminate.
  exists [i]. eexists. simpl. rewrite Hn.
  rewrite (no_active_count ts Ea), Hb. reflexivity.
Qed.

Lemma progress (H : nat) :
  forall ts,
    Forall (fun t => (task_levels t <= H)%nat) ts ->
    existsb (fun t => negb (is_settled t)) ts = true ->
    exists addr ts', fire addr ts = Some ts'.
Proof.
  induction H as [|H IH]; intros ts Hl Hu.
  - (* no nested call anywhere: a running task can go on, or the
       oldest queued task can start *)
    destruct (existsb active ts) eqn:Ea; [|apply (idle_limiter_starts ts Ea Hu)].
    apply find_first in Ea. destruct Ea as [i [t [Hn [Ht _]]]].
    assert (Hlt := Forall_nth _ _ _ _ Hl Hn).
    destruct t as [p|[| |ps]|nested| | |nested]; try discriminate;
      simpl in Hlt; try lia;
      exists [i]; eexists; simpl; rewrite Hn; reflexivity.
  - destruct (existsb active ts) eqn:Ea; [|apply (idle_limiter_starts ts Ea Hu)].
    apply find_first in Ea. destruct Ea as [i [t [Hn [Ht _]]]].
    assert (Hlt := Forall_nth _ _ _ _ Hl Hn).
    destruct t as [p|[| |ps]|nested| | |nested]; try discriminate;
      try (exists [i]; eexists; simpl; rewrite Hn; reflexivity).
    destruct (existsb has_rejected nested) eqn:Er.
    { exists [i]. eexists. cbn [fire]. rewrite Hn. cbn [act].
      rewrite Er. reflexivity. }
    destruct (forallb has_fulfilled nested) eqn:Es.
    { exists [i]. eexists. cbn [fire]. rewrite Hn. cbn [act].
      rewrite Er, Es. reflexivity. }
    assert (Hn' : Forall (fun t => (task_levels t <= H)%nat) nested).
    { apply levels_max. simpl in Hlt. lia. }
    destruct (IH nested Hn' (waiting_for_one nested Er Es))
      as [addr [nested' Hf]].
    destruct addr as [|j deeper]; [discriminate|].
    exists (i :: j :: deeper). eexists.
    cbn [fire]. rewrite Hn. cbn [fire] in Hf. rewrite Hf. reflexivity.
Qed.

(** A run never gets stuck: in every state a run reaches, as long as
    a task has not settled there is an event that can happen. A task
    waiting for its nested call holds a slot of its own limiter only,
    so the tasks of the nested call are never kept waiting by it. *)
Theorem run_never_stuck (q : string) (breadth depth : Z)
    (learnings visitedUrls : list string)
    (events : list (list nat)) (ts : list task) :
  run events (initial w q breadth depth learnings visitedUrls) = Some ts ->
  (exists t, In t ts /\ is_settled t = false) ->
  exists addr ts',
    fire addr ts = Some ts'
    /\ run (events ++ [addr])
           (initial w q breadth depth learnings visitedUrls) = Some ts'.
Proof.
  intros Hrun [t [Hin Ht]].
  assert (Hu : existsb (fun t => negb (is_settled t)) ts = true).
  { apply existsb_exists. exists t. split; [exact Hin | now rewrite Ht]. }
  destruct (progress (list_max (map task_levels ts)) ts
              (proj1 (levels_max task_levels ts _) (Nat.le_refl _)) Hu)
    as [addr [ts' Hf]].
  exists addr, ts'. split; [exact Hf|].
  revert Hrun.
  generalize (initial w q breadth depth learnings visitedUrls).
  induction events as [|e events IH]; intros ts0 Hr; simpl in *.
  - injection Hr as ->. now rewrite Hf.
  - destruct (fire e ts0); [now apply IH | discriminate].
Qed.

(** ** Two more edges of a call *)

Lemma nth_error_firstn_some {A} (l : list A) (n i : nat) (x : A) :
  nth_error (firstn n l) i = Some x -> nth_error l i = Some x.
Proof.
  rewrite nth_error_firstn. destruct (Nat.ltb i n); [auto | discriminate].
Qed.

(** [generateSerpQueries] keeps the order of the planner: the query
    it returns at a position is the planner's entry at that position,
    a bare string completed with the default research goal. It returns
    the first [numQueries] entries, or, for a negative [numQueries],
    all but the last [-numQueries]. *)
Theorem generateSerpQueries_keeps_order (site : list nat) (q : string)
    (numQueries : Z) (learnings : list string) (planned : list PlannedQuery) :
  plan_call w site q numQueries learnings = Returned planned ->
  exists serpQueries,
    generateSerpQueries w site q numQueries learnings = Returned serpQueries
    /\ Z.of_nat (List.length serpQueries)
       = (if 0 <=? numQueries
          then Z.min numQueries (Z.of_nat (List.length planned))
          else Z.max (Z.of_nat (List.length planned) + numQueries) 0)
    /\ forall i serpQuery,
         nth_error serpQueries i = Some serpQuery ->
         exists entry,
           nth_error planned i = Some entry
           /\ serpQuery = processedQuery entry.
Proof.
  intros Hp. unfold generateSerpQueries. rewrite Hp. simpl.
  eexists. split; [reflexivity|]. split.
  - unfold JS.arr_slice0. rewrite length_map.
    destruct (Z.leb_spec 0 numQueries); destruct (Z.ltb_spec numQueries 0);
      try lia; rewrite length_firstn, length_map; lia.
  - intros i sq Hi. unfold JS.arr_slice0 in Hi.
    assert (Hm : nth_error (map processedQuery planned) i = Some sq).
    { destruct (numQueries <? 0);
        apply nth_error_firstn_some in Hi; exact Hi. }
    rewrite nth_error_map in Hm.
    destruct (nth_error planned i) as [entry|]; [|discriminate].
    injection Hm as <-. eauto.
Qed.

(** A crawler output that parses, but not to an array of items, fails
    the branch: no synthesis is made and the branch returns the empty
    result, without the learnings and URLs it was given. *)
Theorem malformed_crawl_output_empties_branch
    (recur : list nat -> string -> Z -> Z -> list string -> list string
             -> outcome ResearchResult)
    (site : list nat) (serpQuery : SerpQuery) (breadth depth : Z)
    (learnings visitedUrls : list string) (stdout : string) :
  execAsync w site (crawl_command (query serpQuery)) = ExecOutput stdout ->
  JSON_parse w stdout = Some Malformed ->
  discoveries w site serpQuery breadth = None
  /\ branch w recur site serpQuery breadth depth learnings visitedUrls
     = Returned emptyResult.
Proof.
  intros He Hp.
  assert (Hc : crawlWebsite w site (query serpQuery) = Returned Malformed).
  { unfold crawlWebsite, crawl_result. now rewrite He, Hp. }
  unfold discoveries, branch, branch_try. rewrite Hc. split; reflexivity.
Qed.

End World.

End AccountingFacts.

Module AccountingSamples.

Import Research Limiter Accounting Samples MoreSamples.

(** A run of breadth 4 and depth 2 on the crawler that finds one page:
    the learning comes from a synthesis call of the run and the URL
    from one of its crawls. *)
Lemma results_are_sourced_witness :
  deepResearch_fuel crawling_world (levels 2) [] "topic" 4 2 ["known"] []
  = Returned {| learnings := ["known"; "fact"];
                visitedUrls := ["https://example.org/a"] |}
  /\ In (Synthesising [O] "a" ["text of the page"] 3 2)
        (calls crawling_world "topic" 4 2 ["known"] [])
  /\ In (Crawling [O] "a") (calls crawling_world "topic" 4 2 ["known"] [])
  /\ sourced crawling_world (calls crawling_world "topic" 4 2 ["known"] [])
             ["known"] []
             {| learnings := ["known"; "fact"];
                visitedUrls := ["https://example.org/a"] |}.
Proof.
  assert (E : deepResearch_fuel crawling_world (levels 2) [] "topic" 4 2
                                ["known"] []
              = Returned {| learnings := ["known"; "fact"];
                            visitedUrls := ["https://example.org/a"] |})
    by (vm_compute; reflexivity).
  refine (conj E (conj _ (conj _
           (AccountingFacts.results_are_sourced crawling_world (levels 2)
              [] "topic" 4 2 ["known"] [] _ E)))).
  - vm_compute. tauto.
  - vm_compute. tauto.
Defined.

Lemma result_is_union_of_branches_witness :
  generateSerpQueries crawling_world [] "topic" 2 ["known"]
  = Returned [query_a; query_b]
  /\ deepResearch_fuel crawling_world 1 [] "topic" 2 1 ["known"] []
     = Returned {| learnings := ["known"; "fact"];
                   visitedUrls := ["https://example.org/a"] |}
  /\ forall i serpQuery,
       nth_error [query_a; query_b] i = Some serpQuery ->
       exists rb,
         branch crawling_world (deepResearch_fuel crawling_world 0)
                (i :: []) serpQuery 2 1 ["known"] [] = Returned rb.
Proof.
  assert (E1 : generateSerpQueries crawling_world [] "topic" 2 ["known"]
               = Returned [query_a; query_b]) by reflexivity.
  assert (E2 : deepResearch_fuel crawling_world 1 [] "topic" 2 1 ["known"] []
               = Returned {| learnings := ["known"; "fact"];
                             visitedUrls := ["https://example.org/a"] |})
    by (vm_compute; reflexivity).
  exact (conj E1 (conj E2
           (proj1 (AccountingFacts.result_is_union_of_branches crawling_world
                     0 [] "topic" 2 1 ["known"] [] _ _ E1 E2)))).
Defined.

Lemma retrieval_failure_is_not_fatal_witness :
  execAsync eager_world [O] (crawl_command (query query_a)) = ExecError
  /\ crawlWebsite eager_world [O] (query query_a) = Returned (Items [])
  /\ branch eager_world (fun _ _ _ _ _ _ => Threw) [O] query_a 3 1
            ["known"] ["seen"]
     = Returned {| learnings := ["known"; "fact"]; visitedUrls := ["seen"] |}.
Proof.
  destruct (AccountingFacts.retrieval_failure_is_not_fatal eager_world
              [O] query_a 3 1 ["known"] ["seen"]
              {| syn_learnings := ["fact"]; syn_followUpQuestions := None |}
              (or_introl eq_refl) eq_refl) as [Hc Hb].
  exact (conj eq_refl (conj Hc (Hb (fun _ _ _ _ _ _ => Threw)))).
Defined.

Lemma zero_breadth_empty_result_witness :
  deepResearch eager_world "topic" 0 2 ["known"] ["seen"] = Returned emptyResult
  /\ initial eager_world "topic" 0 2 ["known"] ["seen"] = [].
Proof.
  exact (conj eq_refl
           (proj2 (AccountingFacts.zero_breadth_empty_result eager_world
                     "topic" 2 ["known"] ["seen"] emptyResult eq_refl))).
Defined.


(** The crowded state of the run of breadth 3 and depth 2, in which no
    planning call rejects, reaches both bounds: six tasks in flight,
    four of them at work. *)
Lemma in_flight_bounded_by_depth_witness :
  2 <= JS.MaxSafe
  /\ forallb never_fails (call_plan eager_world (levels 2) [] "topic" 3 2 [] [])
     = true
  /\ run crowded_events (initial eager_world "topic" 3 2 [] [])
     = Some crowded_state
  /\ in_flight_all crowded_state = 6%nat
  /\ busy_all crowded_state = 4%nat
  /\ (in_flight_all crowded_state + 2 <= 2 ^ S (levels 2))%nat
  /\ (busy_all crowded_state <= 2 ^ levels 2)%nat.
Proof.
  assert (Hs : 2 <= JS.MaxSafe) by (vm_compute; congruence).
  assert (Hn : forallb never_fails
                 (call_plan eager_world (levels 2) [] "topic" 3 2 [] [])
               = true) by (vm_compute; reflexivity).
  assert (E : run crowded_events (initial eager_world "topic" 3 2 [] [])
              = Some crowded_state) by (vm_compute; reflexivity).
  exact (conj Hs (conj Hn (conj E (conj eq_refl (conj eq_refl
           (AccountingFacts.in_flight_bounded_by_depth eager_world
              "topic" 3 2 [] [] crowded_events crowded_state Hs Hn E)))))).
Defined.

(** A nested call rejects when the planning of a call nested in one of
    its tasks rejects: the task that waits for it at the top rejects
    with it and gives its slot back, while the other task of the
    nested call goes on. *)
Lemma orphaned_task_goes_on :
  call_plan orphaning_world (levels 3) [] "topic" 3 3 [] []
  = [Nests [Fails; Nests [Ends]]]
  /\ run [[0]; [0]; [0; 0]; [0; 1]; [0; 0]; [0]]%nat
         (initial orphaning_world "topic" 3 3 [] [])
     = Some [Detached [Rejected; Running (Nests [Ends])]]
  /\ activeCount [Detached [Rejected; Running (Nests [Ends])]] = O
  /\ in_flight_all [Detached [Rejected; Running (Nests [Ends])]] = 1%nat.
Proof. repeat split; vm_compute; reflexivity. Qed.


Lemma run_never_stuck_witness :
  run crowded_events (initial eager_world "topic" 3 2 [] [])
  = Some crowded_state
  /\ exists addr ts',
       fire addr crowded_state = Some ts'
       /\ run (crowded_events ++ [addr])
              (initial eager_world "topic" 3 2 [] []) = Some ts'.
Proof.
  assert (E : run crowded_events (initial eager_world "topic" 3 2 [] [])
              = Some crowded_state) by (vm_compute; reflexivity).
  exact (conj E
           (AccountingFacts.run_never_stuck eager_world "topic" 3 2 [] []
              crowded_events crowded_state E
              (ex_intro _ (Queued (Nests [Ends; Ends]))
                 (conj (or_intror (or_intror (or_introl eq_refl))) eq_refl)))).
Defined.

Lemma generateSerpQueries_keeps_order_witness :
  plan_call crawling_world [] "topic" 2 []
  = Returned [Bare "a"; Bare "b"; Bare "c"; Bare "d"]
  /\ exists serpQueries,
       generateSerpQueries crawling_world [] "topic" 2 [] = Returned serpQueries
       /\ Z.of_nat (List.length serpQueries) = 2.
Proof.
  destruct (AccountingFacts.generateSerpQueries_keeps_order crawling_world
              [] "topic" 2 [] _ eq_refl) as [serpQueries [E [Hlen _]]].
  exact (conj eq_refl (ex_intro _ serpQueries (conj E Hlen))).
Defined.

Lemma malformed_crawl_output_empties_branch_witness :
  execAsync garbled_world [O] (crawl_command (query query_a)) = ExecOutput "{}"
  /\ JSON_parse garbled_world "{}" = Some Malformed
  /\ branch garbled_world (deepResearch_fuel garbled_world 1) [O] query_a
            2 2 ["known"] ["seen"]
     = Returned emptyResult.
Proof.
  exact (conj eq_refl (conj eq_refl
           (proj2 (AccountingFacts.malformed_crawl_output_empties_branch
                     garbled_world (deepResearch_fuel garbled_world 1)
                     [O] query_a 2 2 ["known"] ["seen"] "{}"
                     eq_refl eq_refl)))).
Defined.

End AccountingSamples.
